(** * Elite-Radar-React: the radar projection [transformToRadarSpace]

    A shallow embedding of the coordinate transform of
    [src/EliteRadar3D.jsx] (lines 51-96) and of its copy in
    [src/EliteRadarDemo.jsx] (lines 43-64), with the properties the
    specification states about it.

    Numbers.  A JavaScript number is modelled by [number]: a real number
    or one of the three exceptional values [Infinity], [-Infinity] and
    [NaN].  The exceptional values follow IEEE 754 as ECMAScript
    prescribes it (division by zero, [Infinity - Infinity],
    [0 * Infinity], [Math.min] with [NaN], ...); on finite values the
    operations are the exact real ones: rounding, overflow and the sign
    of zero are not modelled.

    Signed zeros.  The two copies of the transform differ in one step,
    the rotation by the player's quaternion, and with the identity
    quaternion that step changes nothing but the sign of a zero.  Their
    comparison is therefore stated over [Signed.number], which adds the
    negative zero to [number]: [Fin 0] is the positive zero there, a zero
    result takes the sign IEEE 754 gives it, and [Math.atan2],
    [Math.min], [Math.sin] and [Math.sqrt] tell the two zeros apart.
    Non-zero finite results remain the exact real ones.

    The second part covers the computations of the React components of
    [src/EliteRadar3D.jsx] around the transform: the geometry of the ring,
    the grid, the sweep, the heading indicator and the stalks, the scene's
    batch of contacts and the demo's animation. *)

From Stdlib Require Import Reals Lra Ascii String.
From stdpp Require Import base option list strings pretty gmap.

Local Open Scope R_scope.

(** ** JavaScript numbers *)

Module JS.

Inductive number : Type :=
| Fin (r : R)
| PInf
| NInf
| NaN.

Definition finite (a : number) : bool :=
  match a with Fin _ => true | _ => false end.

(** The sign of a real scales an infinity: [x * Infinity]. *)
Definition scale_inf (x : R) : number :=
  if Rlt_dec 0 x then PInf else if Rlt_dec x 0 then NInf else NaN.

Definition neg (a : number) : number :=
  match a with
  | Fin x => Fin (- x)
  | PInf => NInf
  | NInf => PInf
  | NaN => NaN
  end.

Definition add (a b : number) : number :=
  match a, b with
  | NaN, _ | _, NaN => NaN
  | Fin x, Fin y => Fin (x + y)
  | PInf, NInf | NInf, PInf => NaN
  | PInf, _ | _, PInf => PInf
  | NInf, _ | _, NInf => NInf
  end.

Definition sub (a b : number) : number :=
  match a, b with
  | NaN, _ | _, NaN => NaN
  | Fin x, Fin y => Fin (x - y)
  | PInf, PInf | NInf, NInf => NaN
  | PInf, _ | _, NInf => PInf
  | NInf, _ | _, PInf => NInf
  end.

Definition mul (a b : number) : number :=
  match a, b with
  | NaN, _ | _, NaN => NaN
  | Fin x, Fin y => Fin (x * y)
  | Fin x, PInf | PInf, Fin x => scale_inf x
  | Fin x, NInf | NInf, Fin x => scale_inf (- x)
  | PInf, PInf | NInf, NInf => PInf
  | PInf, NInf | NInf, PInf => NInf
  end.

(** Division; a zero divisor is the positive zero. *)
Definition div (a b : number) : number :=
  match a, b with
  | NaN, _ | _, NaN => NaN
  | Fin x, Fin y => if Req_dec_T y 0 then scale_inf x else Fin (x / y)
  | Fin _, _ => Fin 0
  | PInf, Fin y => if Rlt_dec y 0 then NInf else PInf
  | NInf, Fin y => if Rlt_dec y 0 then PInf else NInf
  | _, _ => NaN
  end.

(** The comparison [a > b]; [false] as soon as one side is [NaN]. *)
Definition gt (a b : number) : bool :=
  match a, b with
  | NaN, _ | _, NaN => false
  | Fin x, Fin y => if Rlt_dec y x then true else false
  | PInf, PInf | NInf, _ => false
  | PInf, _ => true
  | Fin _, NInf => true
  | Fin _, PInf => false
  end.

(** The two-argument arctangent on the reals, with [atan2 0 0 = 0]. *)
Definition Ratan2 (y x : R) : R :=
  if Rlt_dec 0 x then atan (y / x)
  else if Rlt_dec x 0 then
    (if Rle_dec 0 y then atan (y / x) + PI else atan (y / x) - PI)
  else if Rlt_dec 0 y then PI / 2
  else if Rlt_dec y 0 then - (PI / 2)
  else 0.

(** The remainder [a % b]: the dividend minus the divisor times the
    quotient truncated towards zero. *)
Definition Rtrunc (q : R) : Z :=
  if Rle_dec 0 q then Int_part q else (- Int_part (- q))%Z.

Definition Rrem (n d : R) : R := n - d * IZR (Rtrunc (n / d)).

Definition rem (a b : number) : number :=
  match a, b with
  | NaN, _ | _, NaN => NaN
  | PInf, _ | NInf, _ => NaN
  | Fin n, PInf | Fin n, NInf => Fin n
  | Fin n, Fin d => if Req_dec_T d 0 then NaN else Fin (Rrem n d)
  end.

(** A loop counter as a number. *)
Definition of_nat (i : nat) : number := Fin (INR i).

End JS.

Declare Scope js_scope.
Delimit Scope js_scope with js.
Bind Scope js_scope with JS.number.
Notation "a + b" := (JS.add a b) : js_scope.
Notation "a - b" := (JS.sub a b) : js_scope.
Notation "a * b" := (JS.mul a b) : js_scope.
Notation "a / b" := (JS.div a b) : js_scope.
Notation "a >? b" := (JS.gt a b) (at level 70) : js_scope.

(** ** The [Math] object *)

Module Math.
Import JS.

Definition sqrt (a : number) : number :=
  match a with
  | Fin x => if Rlt_dec x 0 then NaN else Fin (R_sqrt.sqrt x)
  | PInf => PInf
  | NInf | NaN => NaN
  end.

Definition min (a b : number) : number :=
  match a, b with
  | NaN, _ | _, NaN => NaN
  | NInf, _ | _, NInf => NInf
  | PInf, c | c, PInf => c
  | Fin x, Fin y => Fin (Rmin x y)
  end.

Definition sin (a : number) : number :=
  match a with Fin x => Fin (Rtrigo_def.sin x) | _ => NaN end.

Definition cos (a : number) : number :=
  match a with Fin x => Fin (Rtrigo_def.cos x) | _ => NaN end.

Definition atan2 (y x : number) : number :=
  match y, x with
  | NaN, _ | _, NaN => NaN
  | Fin b, Fin a => Fin (Ratan2 b a)
  | Fin b, PInf => Fin 0
  | Fin b, NInf => if Rlt_dec b 0 then Fin (- PI) else Fin PI
  | PInf, Fin _ => Fin (PI / 2)
  | NInf, Fin _ => Fin (- (PI / 2))
  | PInf, PInf => Fin (PI / 4)
  | PInf, NInf => Fin (3 * PI / 4)
  | NInf, PInf => Fin (- (PI / 4))
  | NInf, NInf => Fin (- (3 * PI / 4))
  end.

Definition PI : number := Fin Rtrigo1.PI.

End Math.

(** ** Values and objects

    A contact is a plain object: a finite map from property names to
    values.  The values are the ones the repository stores in a contact:
    numbers, booleans, strings and arrays of numbers; an absent key reads
    as [undefined]. *)

Inductive value : Type :=
| VNumber (a : JS.number)
| VBoolean (b : bool)
| VString (s : string)
| VArray (l : list JS.number).

Inductive error : Type :=
| TypeError.

(** The outcome of a call: a returned value or a thrown exception. *)
Inductive completion (A : Type) : Type :=
| Normal (a : A)
| Throw (e : error).
Arguments Normal {A} a.
Arguments Throw {A} e.

(** [ToNumber] of a one-character string: a digit is its value, white
    space is [0], any other character is [NaN].  Strings are ASCII. *)
Definition char_to_number (c : ascii) : JS.number :=
  let n := nat_of_ascii c in
  if (48 <=? n)%nat && (n <=? 57)%nat then JS.Fin (INR (n - 48))
  else if (9 <=? n)%nat && (n <=? 13)%nat || (n =? 32)%nat then JS.Fin 0
  else JS.NaN.

(** [ToNumber (v[i])], the element read in a numeric context; an element
    that is [undefined] gives [NaN]. *)
Definition index_number (v : value) (i : nat) : JS.number :=
  match v with
  | VArray l => default JS.NaN (l !! i)
  | VString s =>
      match String.get i s with
      | Some c => char_to_number c
      | None => JS.NaN
      end
  | VNumber _ | VBoolean _ => JS.NaN
  end.

(** The argument [options]: each property is present or [undefined]. *)
Record Options : Type := {
  playerPosition : option (list JS.number);
  playerQuaternion : option (list JS.number);
  maxRange : option JS.number;
  radarRadius : option JS.number;
  shipRelative : option bool
}.

(** ** The parts of three.js the transform calls

    [Quaternion] and [Vector3] of the three.js library: the constructor
    [Quaternion(x = 0, y = 0, z = 0, w = 1)], [Quaternion.invert] (the
    conjugate: the quaternion is taken to be of unit length) and
    [Vector3.applyQuaternion]. *)

Module THREE.
Import JS.

Record Quaternion : Type := { _x : number; _y : number; _z : number; _w : number }.

Record Vector3 : Type := { x : number; y : number; z : number }.

(** [new THREE.Quaternion(...l)]: a missing argument takes its default. *)
Definition Quaternion_new (l : list number) : Quaternion :=
  {| _x := default (Fin 0) (l !! 0%nat);
     _y := default (Fin 0) (l !! 1%nat);
     _z := default (Fin 0) (l !! 2%nat);
     _w := default (Fin 1) (l !! 3%nat) |}.

Definition conjugate (q : Quaternion) : Quaternion :=
  {| _x := (_x q * Fin (-1))%js;
     _y := (_y q * Fin (-1))%js;
     _z := (_z q * Fin (-1))%js;
     _w := _w q |}.

Definition invert (q : Quaternion) : Quaternion := conjugate q.

Definition applyQuaternion (v : Vector3) (q : Quaternion) : Vector3 :=
  let vx := x v in let vy := y v in let vz := z v in
  let qx := _x q in let qy := _y q in let qz := _z q in let qw := _w q in
  let tx := (Fin 2 * (qy * vz - qz * vy))%js in
  let ty := (Fin 2 * (qz * vx - qx * vz))%js in
  let tz := (Fin 2 * (qx * vy - qy * vx))%js in
  {| x := (vx + qw * tx + qy * tz - qz * ty)%js;
     y := (vy + qw * ty + qz * tx - qx * tz)%js;
     z := (vz + qw * tz + qx * ty - qy * tx)%js |}.

(** [new THREE.Vector3(...l)]: [Vector3(x = 0, y = 0, z = 0)]. *)
Definition Vector3_new (l : list number) : Vector3 :=
  {| x := default (Fin 0) (l !! 0%nat);
     y := default (Fin 0) (l !! 1%nat);
     z := default (Fin 0) (l !! 2%nat) |}.

End THREE.

(** ** [src/EliteRadar3D.jsx] *)

Module EliteRadar3D.
Import JS.

(** The destructured [options], with their defaults (lines 52-58). *)
Definition playerPositionOf (options : Options) : list number :=
  default [Fin 0; Fin 0; Fin 0] (playerPosition options).
Definition playerQuaternionOf (options : Options) : list number :=
  default [Fin 0; Fin 0; Fin 0; Fin 1] (playerQuaternion options).
Definition maxRangeOf (options : Options) : number :=
  default (Fin 5000) (maxRange options).
Definition radarRadiusOf (options : Options) : number :=
  default (Fin 1) (radarRadius options).
Definition shipRelativeOf (options : Options) : bool :=
  default true (shipRelative options).

(** Lines 60-72: the position relative to the player, rotated into the
    ship's frame when [shipRelative] holds.  Reading [contact.position[0]]
    throws when [contact.position] is [undefined]. *)
Definition relative (contact : gmap string value) (options : Options)
  : completion (number * number * number) :=
  let playerPosition := playerPositionOf options in
  let playerQuaternion := playerQuaternionOf options in
  let shipRelative := shipRelativeOf options in
  match contact !! "position" with
  | None => Throw TypeError
  | Some position =>
      let relX := (index_number position 0 - default NaN (playerPosition !! 0%nat))%js in
      let relY := (index_number position 1 - default NaN (playerPosition !! 1%nat))%js in
      let relZ := (index_number position 2 - default NaN (playerPosition !! 2%nat))%js in
      if shipRelative then
        let quat := THREE.invert (THREE.Quaternion_new playerQuaternion) in
        let vec := THREE.applyQuaternion
                     {| THREE.x := relX; THREE.y := relY; THREE.z := relZ |} quat in
        Normal (THREE.x vec, THREE.y vec, THREE.z vec)
      else Normal (relX, relY, relZ)
  end.

(** Lines 74-87: the constants computed from the relative position. *)
Section Locals.
Variables relX relY relZ maxRange radarRadius : number.

Definition distance : number :=
  Math.sqrt (relX * relX + relY * relY + relZ * relZ).
Definition normalizedDist : number :=
  Math.min (distance / maxRange) (Fin 1).

Definition horizontalDist : number :=
  Math.sqrt (relX * relX + relZ * relZ).
Definition theta : number := Math.atan2 relX relZ.
Definition phi : number := Math.atan2 relY horizontalDist.

Definition radarHorizontalDist : number := (normalizedDist * radarRadius)%js.
Definition radarX : number := (radarHorizontalDist * Math.sin theta)%js.
Definition radarZ : number := (radarHorizontalDist * Math.cos theta)%js.
Definition radarY : number :=
  (normalizedDist * Math.sin phi * radarRadius * Fin 0.5)%js.
End Locals.

(** Lines 51-96. *)
Definition transformToRadarSpace (contact : gmap string value) (options : Options)
  : completion (gmap string value) :=
  let maxRange := maxRangeOf options in
  let radarRadius := radarRadiusOf options in
  match relative contact options with
  | Throw e => Throw e
  | Normal (relX, relY, relZ) =>
      let radarX := radarX relX relY relZ maxRange radarRadius in
      let radarY := radarY relX relY relZ maxRange radarRadius in
      let radarZ := radarZ relX relY relZ maxRange radarRadius in
      Normal
        (<["isAbove" := VBoolean (relY >? Fin 0)%js]>
           (<["normalizedDistance" := VNumber (normalizedDist relX relY relZ maxRange)]>
              (<["basePosition" := VArray [radarX; Fin 0; radarZ]]>
                 (<["radarPosition" := VArray [radarX; radarY; radarZ]]> contact))))
  end.

End EliteRadar3D.

(** ** [src/EliteRadarDemo.jsx] *)

Module EliteRadarDemo.
Import JS.

Definition maxRangeOf (options : Options) : number :=
  default (Fin 5000) (maxRange options).
Definition radarRadiusOf (options : Options) : number :=
  default (Fin 1) (radarRadius options).

(** Line 45, [let [relX, relY, relZ] = contact.position]: the value must
    be iterable (an array or a string); a missing element is [undefined]. *)
Definition destructure3 (position : option value)
  : completion (number * number * number) :=
  match position with
  | Some (VArray l) =>
      Normal (index_number (VArray l) 0, index_number (VArray l) 1,
              index_number (VArray l) 2)
  | Some (VString s) =>
      Normal (index_number (VString s) 0, index_number (VString s) 1,
              index_number (VString s) 2)
  | Some (VNumber _) | Some (VBoolean _) | None => Throw TypeError
  end.

Section Locals.
Variables relX relY relZ maxRange radarRadius : number.

Definition distance : number :=
  Math.sqrt (relX * relX + relY * relY + relZ * relZ).
Definition normalizedDist : number :=
  Math.min (distance / maxRange) (Fin 1).
Definition horizontalDist : number :=
  Math.sqrt (relX * relX + relZ * relZ).
Definition theta : number := Math.atan2 relX relZ.
Definition phi : number := Math.atan2 relY horizontalDist.

Definition radarHorizontalDist : number := (normalizedDist * radarRadius)%js.
Definition radarX : number := (radarHorizontalDist * Math.sin theta)%js.
Definition radarZ : number := (radarHorizontalDist * Math.cos theta)%js.
Definition radarY : number :=
  (normalizedDist * Math.sin phi * radarRadius * Fin 0.5)%js.
End Locals.

(** Lines 43-64. *)
Definition transformToRadarSpace (contact : gmap string value) (options : Options)
  : completion (gmap string value) :=
  let maxRange := maxRangeOf options in
  let radarRadius := radarRadiusOf options in
  match destructure3 (contact !! "position") with
  | Throw e => Throw e
  | Normal (relX, relY, relZ) =>
      let radarX := radarX relX relY relZ maxRange radarRadius in
      let radarY := radarY relX relY relZ maxRange radarRadius in
      let radarZ := radarZ relX relY relZ maxRange radarRadius in
      Normal
        (<["normalizedDistance" := VNumber (normalizedDist relX relY relZ maxRange)]>
           (<["basePosition" := VArray [radarX; Fin 0; radarZ]]>
              (<["radarPosition" := VArray [radarX; radarY; radarZ]]> contact)))
  end.

End EliteRadarDemo.

(** ** The components of [src/EliteRadar3D.jsx]

    The computations inside the React components: the geometry each one
    builds in [useMemo], the state update of the scan sweep, the props the
    scene hands to its children, and the demo's update of the contacts.
    [divisions] is a natural number; a random number is an argument. *)

Module Components.
Import JS.

(** [for (let i = from; i < from + count; i++) body]. *)
Fixpoint for_loop {St : Type} (count from : nat) (body : nat -> St -> St) (s : St) : St :=
  match count with
  | O => s
  | S n => for_loop n (S from) body (body from s)
  end.

(** A point of the circle of radius [radius] in the reference plane. *)
Definition circle_point (angle radius height : number) : THREE.Vector3 :=
  {| THREE.x := (Math.cos angle * radius)%js;
     THREE.y := height;
     THREE.z := (Math.sin angle * radius)%js |}.

(** [EquatorialRing], lines 135-147: [i] runs from [0] to [segments]
    inclusive. *)
Definition EquatorialRing_points (radius : option number) : list THREE.Vector3 :=
  let radius := default (Fin 1) radius in
  let segments := 64%nat in
  for_loop (segments + 1) 0
    (fun i pts =>
       let angle := (of_nat i / of_nat segments * Math.PI * Fin 2)%js in
       pts ++ [circle_point angle radius (Fin 0)])
    [].

Record GridLine : Type := { points : list THREE.Vector3; key : string }.

(** [RadarGrid], lines 165-202. *)
Definition RadarGrid_lines (radius : option number) (divisions : option nat)
  : list GridLine :=
  let radius := default (Fin 1) radius in
  let divisions := default 4%nat divisions in
  let spokeCount := 8%nat in
  let result :=
    for_loop spokeCount 0
      (fun i result =>
         let angle := (of_nat i / of_nat spokeCount * Math.PI * Fin 2)%js in
         result ++
           [{| points := [ {| THREE.x := Fin 0; THREE.y := Fin 0; THREE.z := Fin 0 |};
                           circle_point angle radius (Fin 0) ];
               key := "spoke-" +:+ pretty i |}])
      [] in
  for_loop (divisions - 1) 1
    (fun i result =>
       let ringRadius := (of_nat i / of_nat divisions * radius)%js in
       let segments := 32%nat in
       let pts :=
         for_loop (segments + 1) 0
           (fun j pts =>
              let angle := (of_nat j / of_nat segments * Math.PI * Fin 2)%js in
              pts ++ [circle_point angle ringRadius (Fin 0)])
           [] in
       result ++ [{| points := pts; key := "ring-" +:+ pretty i |}])
    result.

(** [ScanSweep], line 264: the angle after a frame that took [delta]. *)
Definition ScanSweep_next (prev delta : number) : number :=
  rem (prev + delta * Fin 1.5)%js (Math.PI * Fin 2)%js.

(** The angle after the frames [deltas], from the initial state [0]. *)
Definition ScanSweep_angle (deltas : list number) : number :=
  fold_left ScanSweep_next deltas (Fin 0).

(** [ScanSweep], lines 267-274. *)
Definition ScanSweep_points (angle : number) (radius : option number)
  : list THREE.Vector3 :=
  let radius := default (Fin 1) radius in
  [ {| THREE.x := Fin 0; THREE.y := Fin 0.001; THREE.z := Fin 0 |};
    circle_point angle radius (Fin 0.001) ].

(** [HeadingIndicator], lines 420-423. *)
Definition HeadingIndicator_points (radius : option number) : list THREE.Vector3 :=
  let radius := default (Fin 1) radius in
  [ {| THREE.x := Fin 0; THREE.y := Fin 0.002; THREE.z := Fin 0 |};
    {| THREE.x := Fin 0; THREE.y := Fin 0.002; THREE.z := (neg radius * Fin 0.15)%js |} ].

(** [new THREE.Vector3(...v)].  The spread of [undefined], a number or a
    boolean throws; the spread of a string yields strings, which a
    [Vector3] of numbers does not hold: [None], not modelled. *)
Definition Vector3_spread (v : option value) : option (completion THREE.Vector3) :=
  match v with
  | Some (VArray l) => Some (Normal (THREE.Vector3_new l))
  | Some (VString _) => None
  | Some (VNumber _) | Some (VBoolean _) | None => Some (Throw TypeError)
  end.

(** [RadarStalk], lines 293-296: the two ends of the stalk. *)
Definition RadarStalk_points (start end_ : option value)
  : option (completion (THREE.Vector3 * THREE.Vector3)) :=
  match Vector3_spread start with
  | None => None
  | Some (Throw e) => Some (Throw e)
  | Some (Normal a) =>
      match Vector3_spread end_ with
      | None => None
      | Some (Throw e) => Some (Throw e)
      | Some (Normal b) => Some (Normal (a, b))
      end
  end.

(** [RadarContact], lines 388 and 394-396: the stalk of a contact runs
    from its [basePosition] to its [radarPosition]. *)
Definition RadarContact_stalk (contact : gmap string value)
  : option (completion (THREE.Vector3 * THREE.Vector3)) :=
  let radarPosition := contact !! "radarPosition" in
  let basePosition := contact !! "basePosition" in
  RadarStalk_points basePosition radarPosition.

(** [Array.prototype.map] with a callback that may throw: the first
    exception ends the call. *)
Fixpoint array_map {A B : Type} (f : A -> completion B) (l : list A)
  : completion (list B) :=
  match l with
  | [] => Normal []
  | a :: l' =>
      match f a with
      | Throw e => Throw e
      | Normal b =>
          match array_map f l' with
          | Throw e => Throw e
          | Normal bs => Normal (b :: bs)
          end
      end
  end.

(** The props of [RadarScene] that reach the transform, lines 445-452. *)
Record SceneProps : Type := {
  contacts : option (list (gmap string value));
  scene_options : Options
}.

(** The options object [RadarScene] builds, lines 463-469: every property
    is defined, the defaults being those of the props. *)
Definition RadarScene_options (props : SceneProps) : Options :=
  let o := scene_options props in
  {| playerPosition := Some (default [Fin 0; Fin 0; Fin 0] (playerPosition o));
     playerQuaternion := Some (default [Fin 0; Fin 0; Fin 0; Fin 1] (playerQuaternion o));
     maxRange := Some (default (Fin 5000) (maxRange o));
     radarRadius := Some (default (Fin 1) (radarRadius o));
     shipRelative := Some (default true (shipRelative o)) |}.

(** [RadarScene], lines 461-470: [radarContacts]. *)
Definition RadarScene_radarContacts (props : SceneProps)
  : completion (list (gmap string value)) :=
  let contacts := default [] (contacts props) in
  array_map
    (fun contact =>
       EliteRadar3D.transformToRadarSpace contact (RadarScene_options props))
    contacts.

(** The geometries of three.js a marker is drawn with. *)
Inductive geometry : Type :=
| boxGeometry (width height depth : number)
| coneGeometry (radius height : number) (radialSegments : nat)
| sphereGeometry (radius : number) (widthSegments heightSegments : nat).

(** [type === s]: strict equality with a string literal. *)
Definition type_is (type : option value) (s : string) : bool :=
  match type with
  | Some (VString t) => bool_decide (t = s)
  | _ => false
  end.

(** [ContactMarker], lines 324-342: the [switch] on [type]. *)
Definition ContactMarker_geometry (type : option value) (size : option number)
  : geometry :=
  let size := default (Fin 0.025) size in
  if type_is type "hostile" then boxGeometry size size size
  else if type_is type "friendly" then boxGeometry size size size
  else if type_is type "station" then
    boxGeometry (size * Fin 1.8)%js (size * Fin 1.8)%js (size * Fin 1.8)%js
  else if type_is type "missile" then
    coneGeometry (size * Fin 0.6)%js (size * Fin 1.2)%js 3
  else sphereGeometry (size * Fin 0.6)%js 8 8.

(** [ContactMarker] of [src/EliteRadarDemo.jsx], lines 169-173: each
    geometry is a child of the mesh when its test holds. *)
Definition Demo_ContactMarker_geometries (type : option value) (size : option number)
  : list geometry :=
  let size := default (Fin 0.025) size in
  (if type_is type "hostile" then [boxGeometry size size size] else [])
  ++ (if type_is type "friendly" then [boxGeometry size size size] else [])
  ++ (if type_is type "station" then
        [boxGeometry (size * Fin 1.8)%js (size * Fin 1.8)%js (size * Fin 1.8)%js]
      else [])
  ++ (if type_is type "missile" then
        [coneGeometry (size * Fin 0.6)%js (size * Fin 1.2)%js 3]
      else [])
  ++ (if type_is type "neutral" then [sphereGeometry (size * Fin 0.6)%js 8 8] else []).

(** The demo's update of one contact, lines 547-554; [u0], [u1], [u2] are
    the three values [Math.random()] returns.  On a character of a string
    [+] concatenates: [None], not modelled. *)
Definition jitter (contact : gmap string value) (u0 u1 u2 : number)
  : option (completion (gmap string value)) :=
  match contact !! "position" with
  | None => Some (Throw TypeError)
  | Some (VString _) => None
  | Some position =>
      Some (Normal
        (<["position" :=
             VArray [ (index_number position 0 + (u0 - Fin 0.5) * Fin 100)%js;
                      (index_number position 1 + (u1 - Fin 0.5) * Fin 50)%js;
                      (index_number position 2 + (u2 - Fin 0.5) * Fin 100)%js ]]>
           contact))
  end.

(** One tick of the interval, line 547: [prev.map(...)], the calls of
    [Math.random()] numbered from [n] on. *)
Fixpoint animate (random : nat -> number) (n : nat) (prev : list (gmap string value))
  : option (completion (list (gmap string value))) :=
  match prev with
  | [] => Some (Normal [])
  | contact :: rest =>
      match jitter contact (random n) (random (n + 1)%nat) (random (n + 2)%nat) with
      | None => None
      | Some (Throw e) => Some (Throw e)
      | Some (Normal contact') =>
          match animate random (n + 3) rest with
          | None => None
          | Some (Throw e) => Some (Throw e)
          | Some (Normal rest') => Some (Normal (contact' :: rest'))
          end
      end
  end.

(** The ticks one after the other, each with its random numbers. *)
Fixpoint animate_ticks (randoms : list (nat -> number)) (prev : list (gmap string value))
  : option (completion (list (gmap string value))) :=
  match randoms with
  | [] => Some (Normal prev)
  | random :: later =>
      match animate random 0 prev with
      | None => None
      | Some (Throw e) => Some (Throw e)
      | Some (Normal next) => animate_ticks later next
      end
  end.

End Components.

(** ** The two copies with the sign of zero

    The comparison of the two copies of the transform depends on the sign
    of zero: [Math.atan2(0, -0)] is [PI] where [Math.atan2(0, 0)] is [0],
    and the identity rotation of the main component turns [-0] into [0].
    This module embeds both copies, and what they call, over numbers that
    keep that sign.  [Fin 0] is the positive zero and [NegZero] the
    negative one; a zero result takes the sign IEEE 754 gives it; on the
    other finite numbers the operations are the exact real ones, as
    before. *)

Module Signed.

Inductive number : Type :=
| Fin (r : R)
| NegZero
| PInf
| NInf
| NaN.

Definition zero (negative : bool) : number :=
  if negative then NegZero else Fin 0.

Definition inf (negative : bool) : number :=
  if negative then NInf else PInf.

(** The finite result [r]; when it is zero its sign is [negative]. *)
Definition finite_result (r : R) (negative : bool) : number :=
  if Req_dec_T r 0 then zero negative else Fin r.

Definition finite (a : number) : bool :=
  match a with Fin _ | NegZero => true | _ => false end.

Definition is_zero (a : number) : bool :=
  match a with
  | Fin r => if Req_dec_T r 0 then true else false
  | NegZero => true
  | _ => false
  end.

(** The sign bit. *)
Definition sign (a : number) : bool :=
  match a with
  | Fin r => if Rlt_dec r 0 then true else false
  | NegZero | NInf => true
  | PInf | NaN => false
  end.

(** The value of a finite number. *)
Definition real (a : number) : R :=
  match a with Fin r => r | _ => 0 end.

Definition neg (a : number) : number :=
  match a with
  | Fin r => if Req_dec_T r 0 then NegZero else Fin (- r)
  | NegZero => Fin 0
  | PInf => NInf
  | NInf => PInf
  | NaN => NaN
  end.

(** A zero sum is negative only when both terms are negative zeros. *)
Definition add (a b : number) : number :=
  match a, b with
  | NaN, _ | _, NaN => NaN
  | PInf, NInf | NInf, PInf => NaN
  | PInf, _ | _, PInf => PInf
  | NInf, _ | _, NInf => NInf
  | _, _ => finite_result (real a + real b) (sign a && sign b)
  end.

Definition sub (a b : number) : number := add a (neg b).

Definition mul (a b : number) : number :=
  match a, b with
  | NaN, _ | _, NaN => NaN
  | _, _ =>
      if finite a && finite b then
        finite_result (real a * real b) (xorb (sign a) (sign b))
      else if is_zero a || is_zero b then NaN
      else inf (xorb (sign a) (sign b))
  end.

Definition div (a b : number) : number :=
  match a, b with
  | NaN, _ | _, NaN => NaN
  | _, _ =>
      if finite a && finite b then
        if is_zero b then
          (if is_zero a then NaN else inf (xorb (sign a) (sign b)))
        else finite_result (real a / real b) (xorb (sign a) (sign b))
      else if finite a then zero (xorb (sign a) (sign b))
      else if finite b then inf (xorb (sign a) (sign b))
      else NaN
  end.

(** [a > b]; the two zeros are equal. *)
Definition gt (a b : number) : bool :=
  match a, b with
  | NaN, _ | _, NaN => false
  | PInf, PInf | NInf, _ => false
  | PInf, _ => true
  | _, PInf => false
  | _, NInf => true
  | _, _ => if Rlt_dec (real b) (real a) then true else false
  end.

Declare Scope signed_scope.
Delimit Scope signed_scope with sz.
Bind Scope signed_scope with number.
Notation "a + b" := (add a b) : signed_scope.
Notation "a - b" := (sub a b) : signed_scope.
Notation "a * b" := (mul a b) : signed_scope.
Notation "a / b" := (div a b) : signed_scope.
Notation "a >? b" := (gt a b) (at level 70) : signed_scope.

Module Math.

Definition sqrt (a : number) : number :=
  match a with
  | Fin x => if Rlt_dec x 0 then NaN else Fin (R_sqrt.sqrt x)
  | NegZero => NegZero
  | PInf => PInf
  | NInf | NaN => NaN
  end.

(** [Math.min]; the negative zero is the smaller zero. *)
Definition min (a b : number) : number :=
  match a, b with
  | NaN, _ | _, NaN => NaN
  | _, _ => if gt a b then b else if gt b a then a else if sign a then a else b
  end.

(** The sine is odd: a zero result has the sign of the argument. *)
Definition sin (a : number) : number :=
  match a with
  | Fin x => finite_result (Rtrigo_def.sin x) (sign a)
  | NegZero => NegZero
  | _ => NaN
  end.

Definition cos (a : number) : number :=
  match a with
  | Fin x => finite_result (Rtrigo_def.cos x) false
  | NegZero => Fin 1
  | _ => NaN
  end.

(** [Math.atan2 y x].  With [y] a zero the result is that zero when [x]
    is positive or the positive zero, and [PI] with the sign of [y] when
    [x] is negative or the negative zero. *)
Definition atan2 (y x : number) : number :=
  match y, x with
  | NaN, _ | _, NaN => NaN
  | PInf, PInf => Fin (PI / 4)
  | PInf, NInf => Fin (3 * PI / 4)
  | PInf, _ => Fin (PI / 2)
  | NInf, PInf => Fin (- (PI / 4))
  | NInf, NInf => Fin (- (3 * PI / 4))
  | NInf, _ => Fin (- (PI / 2))
  | _, _ =>
      if is_zero y then
        if sign x then (if sign y then Fin (- PI) else Fin PI) else zero (sign y)
      else
        match x with
        | PInf => zero (sign y)
        | NInf => if sign y then Fin (- PI) else Fin PI
        | _ => Fin (JS.Ratan2 (real y) (real x))
        end
  end.

End Math.

Inductive value : Type :=
| VNumber (a : number)
| VBoolean (b : bool)
| VString (s : string)
| VArray (l : list number).

Definition char_to_number (c : ascii) : number :=
  let n := nat_of_ascii c in
  if (48 <=? n)%nat && (n <=? 57)%nat then Fin (INR (n - 48))
  else if (9 <=? n)%nat && (n <=? 13)%nat || (n =? 32)%nat then Fin 0
  else NaN.

Definition index_number (v : value) (i : nat) : number :=
  match v with
  | VArray l => default NaN (l !! i)
  | VString s =>
      match String.get i s with
      | Some c => char_to_number c
      | None => NaN
      end
  | VNumber _ | VBoolean _ => NaN
  end.

Record Options : Type := {
  playerPosition : option (list number);
  playerQuaternion : option (list number);
  maxRange : option number;
  radarRadius : option number;
  shipRelative : option bool
}.

Module THREE.

Record Quaternion : Type := { _x : number; _y : number; _z : number; _w : number }.

Record Vector3 : Type := { x : number; y : number; z : number }.

Definition Quaternion_new (l : list number) : Quaternion :=
  {| _x := default (Fin 0) (l !! 0%nat);
     _y := default (Fin 0) (l !! 1%nat);
     _z := default (Fin 0) (l !! 2%nat);
     _w := default (Fin 1) (l !! 3%nat) |}.

Definition conjugate (q : Quaternion) : Quaternion :=
  {| _x := (_x q * Fin (-1))%sz;
     _y := (_y q * Fin (-1))%sz;
     _z := (_z q * Fin (-1))%sz;
     _w := _w q |}.

Definition invert (q : Quaternion) : Quaternion := conjugate q.

Definition applyQuaternion (v : Vector3) (q : Quaternion) : Vector3 :=
  let vx := x v in let vy := y v in let vz := z v in
  let qx := _x q in let qy := _y q in let qz := _z q in let qw := _w q in
  let tx := (Fin 2 * (qy * vz - qz * vy))%sz in
  let ty := (Fin 2 * (qz * vx - qx * vz))%sz in
  let tz := (Fin 2 * (qx * vy - qy * vx))%sz in
  {| x := (vx + qw * tx + qy * tz - qz * ty)%sz;
     y := (vy + qw * ty + qz * tx - qx * tz)%sz;
     z := (vz + qw * tz + qx * ty - qy * tx)%sz |}.

End THREE.

(** [src/EliteRadar3D.jsx], lines 51-96. *)
Module EliteRadar3D.

Definition playerPositionOf (options : Options) : list number :=
  default [Fin 0; Fin 0; Fin 0] (playerPosition options).
Definition playerQuaternionOf (options : Options) : list number :=
  default [Fin 0; Fin 0; Fin 0; Fin 1] (playerQuaternion options).
Definition maxRangeOf (options : Options) : number :=
  default (Fin 5000) (maxRange options).
Definition radarRadiusOf (options : Options) : number :=
  default (Fin 1) (radarRadius options).
Definition shipRelativeOf (options : Options) : bool :=
  default true (shipRelative options).

Definition relative (contact : gmap string value) (options : Options)
  : completion (number * number * number) :=
  let playerPosition := playerPositionOf options in
  let playerQuaternion := playerQuaternionOf options in
  let shipRelative := shipRelativeOf options in
  match contact !! "position" with
  | None => Throw TypeError
  | Some position =>
      let relX := (index_number position 0 - default NaN (playerPosition !! 0%nat))%sz in
      let relY := (index_number position 1 - default NaN (playerPosition !! 1%nat))%sz in
      let relZ := (index_number position 2 - default NaN (playerPosition !! 2%nat))%sz in
      if shipRelative then
        let quat := THREE.invert (THREE.Quaternion_new playerQuaternion) in
        let vec := THREE.applyQuaternion
                     {| THREE.x := relX; THREE.y := relY; THREE.z := relZ |} quat in
        Normal (THREE.x vec, THREE.y vec, THREE.z vec)
      else Normal (relX, relY, relZ)
  end.

Section Locals.
Variables relX relY relZ maxRange radarRadius : number.

Definition distance : number :=
  Math.sqrt (relX * relX + relY * relY + relZ * relZ).
Definition normalizedDist : number :=
  Math.min (distance / maxRange) (Fin 1).

Definition horizontalDist : number :=
  Math.sqrt (relX * relX + relZ * relZ).
Definition theta : number := Math.atan2 relX relZ.
Definition phi : number := Math.atan2 relY horizontalDist.

Definition radarHorizontalDist : number := (normalizedDist * radarRadius)%sz.
Definition radarX : number := (radarHorizontalDist * Math.sin theta)%sz.
Definition radarZ : number := (radarHorizontalDist * Math.cos theta)%sz.
Definition radarY : number :=
  (normalizedDist * Math.sin phi * radarRadius * Fin 0.5)%sz.
End Locals.

Definition transformToRadarSpace (contact : gmap string value) (options : Options)
  : completion (gmap string value) :=
  let maxRange := maxRangeOf options in
  let radarRadius := radarRadiusOf options in
  match relative contact options with
  | Throw e => Throw e
  | Normal (relX, relY, relZ) =>
      let radarX := radarX relX relY relZ maxRange radarRadius in
      let radarY := radarY relX relY relZ maxRange radarRadius in
      let radarZ := radarZ relX relY relZ maxRange radarRadius in
      Normal
        (<["isAbove" := VBoolean (relY >? Fin 0)%sz]>
           (<["normalizedDistance" := VNumber (normalizedDist relX relY relZ maxRange)]>
              (<["basePosition" := VArray [radarX; Fin 0; radarZ]]>
                 (<["radarPosition" := VArray [radarX; radarY; radarZ]]> contact))))
  end.

End EliteRadar3D.

(** [src/EliteRadarDemo.jsx], lines 43-64. *)
Module EliteRadarDemo.

Definition maxRangeOf (options : Options) : number :=
  default (Fin 5000) (maxRange options).
Definition radarRadiusOf (options : Options) : number :=
  default (Fin 1) (radarRadius options).

Definition destructure3 (position : option value)
  : completion (number * number * number) :=
  match position with
  | Some (VArray l) =>
      Normal (index_number (VArray l) 0, index_number (VArray l) 1,
              index_number (VArray l) 2)
  | Some (VString s) =>
      Normal (index_number (VString s) 0, index_number (VString s) 1,
              index_number (VString s) 2)
  | Some (VNumber _) | Some (VBoolean _) | None => Throw TypeError
  end.

Section Locals.
Variables relX relY relZ maxRange radarRadius : number.

Definition distance : number :=
  Math.sqrt (relX * relX + relY * relY + relZ * relZ).
Definition normalizedDist : number :=
  Math.min (distance / maxRange) (Fin 1).
Definition horizontalDist : number :=
  Math.sqrt (relX * relX + relZ * relZ).
Definition theta : number := Math.atan2 relX relZ.
Definition phi : number := Math.atan2 relY horizontalDist.

Definition radarHorizontalDist : number := (normalizedDist * radarRadius)%sz.
Definition radarX : number := (radarHorizontalDist * Math.sin theta)%sz.
Definition radarZ : number := (radarHorizontalDist * Math.cos theta)%sz.
Definition radarY : number :=
  (normalizedDist * Math.sin phi * radarRadius * Fin 0.5)%sz.
End Locals.

Definition transformToRadarSpace (contact : gmap string value) (options : Options)
  : completion (gmap string value) :=
  let maxRange := maxRangeOf options in
  let radarRadius := radarRadiusOf options in
  match destructure3 (contact !! "position") with
  | Throw e => Throw e
  | Normal (relX, relY, relZ) =>
      let radarX := radarX relX relY relZ maxRange radarRadius in
      let radarY := radarY relX relY relZ maxRange radarRadius in
      let radarZ := radarZ relX relY relZ maxRange radarRadius in
      Normal
        (<["normalizedDistance" := VNumber (normalizedDist relX relY relZ maxRange)]>
           (<["basePosition" := VArray [radarX; Fin 0; radarZ]]>
              (<["radarPosition" := VArray [radarX; radarY; radarZ]]> contact)))
  end.

End EliteRadarDemo.

(** A contact whose position is three real numbers, none of them the
    negative zero. *)
Definition tracked (contact : gmap string value) (x y z : R) : Prop :=
  contact !! "position" = Some (VArray [Fin x; Fin y; Fin z]).

(** The options of the comparison: the player at the origin with the
    identity orientation. *)
Definition at_origin (mr rr : option number) (sr : option bool) : Options :=
  {| playerPosition := Some [Fin 0; Fin 0; Fin 0];
     playerQuaternion := Some [Fin 0; Fin 0; Fin 0; Fin 1];
     maxRange := mr; radarRadius := rr; shipRelative := sr |}.

(** The first contact of the demo data, and a contact straight above the
    observer whose third coordinate is the negative zero. *)
Definition hostile_1 : gmap string value :=
  <["id" := VString "hostile-1"]>
    (<["position" := VArray [Fin 2000; Fin 800; Fin 1500]]>
       (<["type" := VString "hostile"]> ∅)).

Definition overhead_negative_zero : gmap string value :=
  <["id" := VString "overhead"]>
    (<["position" := VArray [Fin 0; Fin 5000; NegZero]]> ∅).

End Signed.

(** ** Well-formed inputs

    The data model of the specification: a tracked object carries three
    real coordinates, the observer finite coordinates and a finite
    orientation. *)

Definition tracked (contact : gmap string value) (x y z : R) : Prop :=
  contact !! "position" = Some (VArray [JS.Fin x; JS.Fin y; JS.Fin z]).

(** The numbers the transform reads from the observer are finite; the
    orientation is read only when [shipRelative] holds. *)
Definition finite_observer (options : Options) : bool :=
  let p := EliteRadar3D.playerPositionOf options in
  let q := THREE.Quaternion_new (EliteRadar3D.playerQuaternionOf options) in
  JS.finite (default JS.NaN (p !! 0%nat))
  && JS.finite (default JS.NaN (p !! 1%nat))
  && JS.finite (default JS.NaN (p !! 2%nat))
  && (negb (EliteRadar3D.shipRelativeOf options)
      || (JS.finite (THREE._x q) && JS.finite (THREE._y q)
          && JS.finite (THREE._z q) && JS.finite (THREE._w q))).

(** The observer stands at the origin and the frame is not rotated:
    [shipRelative] is off, or the orientation is the identity. *)
Definition at_origin_unrotated (options : Options) : Prop :=
  (playerPosition options = None
   \/ playerPosition options = Some [JS.Fin 0; JS.Fin 0; JS.Fin 0])
  /\ (shipRelative options = Some false
      \/ playerQuaternion options = None
      \/ playerQuaternion options = Some [JS.Fin 0; JS.Fin 0; JS.Fin 0; JS.Fin 1]).

(** The contact of the demo data, line 525 of [src/EliteRadar3D.jsx]. *)
Definition hostile_1 : gmap string value :=
  <["id" := VString "hostile-1"]>
    (<["position" := VArray [JS.Fin 2000; JS.Fin 800; JS.Fin 1500]]>
       (<["type" := VString "hostile"]> ∅)).

Definition no_options : Options :=
  {| playerPosition := None; playerQuaternion := None; maxRange := None;
     radarRadius := None; shipRelative := None |}.

(** An object 5000 units straight above the observer, one 5000 units
    along the negative z axis, and one at the observer's own position. *)
Definition overhead : gmap string value :=
  <["id" := VString "overhead"]>
    (<["position" := VArray [JS.Fin 0; JS.Fin 5000; JS.Fin 0]]> ∅).

Definition minus_z : gmap string value :=
  <["id" := VString "minus-z"]>
    (<["position" := VArray [JS.Fin 0; JS.Fin 0; JS.Fin (- 5000)]]> ∅).

Definition colocated : gmap string value :=
  <["id" := VString "colocated"]>
    (<["position" := VArray [JS.Fin 0; JS.Fin 0; JS.Fin 0]]> ∅).

(** The selected station of the demo data, line 531 of
    [src/EliteRadar3D.jsx]. *)
Definition station_1 : gmap string value :=
  <["id" := VString "station-1"]>
    (<["position" := VArray [JS.Fin 0; JS.Fin 0; JS.Fin (- 4000)]]>
       (<["type" := VString "station"]>
          (<["selected" := VBoolean true]> ∅))).

(** The default options with [maxRange] set to [0]. *)
Definition zero_range : Options :=
  {| playerPosition := None; playerQuaternion := None; maxRange := Some (JS.Fin 0);
     radarRadius := None; shipRelative := None |}.

(** The overhead object twice as far, and the default options with the
    range doubled. *)
Definition overhead_doubled : gmap string value :=
  <["id" := VString "overhead-2"]>
    (<["position" := VArray [JS.Fin (2 * 0); JS.Fin (2 * 5000); JS.Fin (2 * 0)]]> ∅).

Definition double_range : Options :=
  {| playerPosition := None; playerQuaternion := None;
     maxRange := Some (JS.Fin (2 * 5000)); radarRadius := None; shipRelative := None |}.

(** A contact without a position. *)
Definition no_position : gmap string value :=
  <["id" := VString "ghost"]> (<["type" := VString "neutral"]> ∅).

(** A contact with three real coordinates. *)
Definition well_formed (contact : gmap string value) : Prop :=
  exists x y z : R, tracked contact x y z.

(** A source of random numbers in [[0, 1)]. *)
Definition unit_random (random : nat -> JS.number) : Prop :=
  forall n : nat, exists u : R, random n = JS.Fin u /\ 0 <= u < 1.

(** [c'] is [c] with the position moved by at most [bx], [by] and [bz]
    along the three axes, every other property being kept. *)
Definition moved_within (bx by_ bz : R) (c c' : gmap string value) : Prop :=
  exists x y z x' y' z' : R,
    tracked c x y z /\ tracked c' x' y' z'
    /\ Rabs (x' - x) <= bx /\ Rabs (y' - y) <= by_ /\ Rabs (z' - z) <= bz
    /\ forall k : string, k <> "position" -> c' !! k = c !! k.

(** * Properties *)

Import JS.

(** Arithmetic on finite numbers, and lookups through the inserted keys. *)
Ltac fin_arith := cbn [JS.add JS.sub JS.mul JS.neg].

Ltac lookup_out :=
  repeat first
    [ rewrite lookup_insert_eq
    | rewrite lookup_insert_ne by (intros ?; discriminate) ].

(** ** Arithmetic on finite numbers *)

Lemma finite_Fin (a : number) : finite a = true -> exists r, a = Fin r.
Proof. destruct a; simpl; intros H; try discriminate. eauto. Qed.

Lemma sqrt_Fin (x : R) : 0 <= x -> Math.sqrt (Fin x) = Fin (sqrt x).
Proof.
  intros Hx. unfold Math.sqrt. destruct (Rlt_dec x 0) as [Hneg|_]; [lra|reflexivity].
Qed.

Lemma div_Fin (x y : R) : y <> 0 -> (Fin x / Fin y)%js = Fin (x / y).
Proof.
  intros Hy. unfold div. destruct (Req_dec_T y 0) as [H0|_]; [contradiction|reflexivity].
Qed.

Lemma sum_squares3_nonneg (x y z : R) : 0 <= x * x + y * y + z * z.
Proof. nra. Qed.

Lemma sum_squares2_nonneg (x z : R) : 0 <= x * x + z * z.
Proof. nra. Qed.

(** ** The relative position *)

Lemma relative_undefined (contact : gmap string value) (options : Options) :
  contact !! "position" = None ->
  EliteRadar3D.relative contact options = Throw TypeError.
Proof. intros H. unfold EliteRadar3D.relative. rewrite H. reflexivity. Qed.

Lemma relative_defined (contact : gmap string value) (options : Options) (v : value) :
  contact !! "position" = Some v ->
  exists relX relY relZ,
    EliteRadar3D.relative contact options = Normal (relX, relY, relZ).
Proof.
  intros H. unfold EliteRadar3D.relative. rewrite H.
  destruct (EliteRadar3D.shipRelativeOf options); eauto.
Qed.

(** Finite inputs give a finite relative position. *)
Lemma relative_finite (contact : gmap string value) (options : Options) (x y z : R) :
  tracked contact x y z ->
  finite_observer options = true ->
  exists rx ry rz,
    EliteRadar3D.relative contact options = Normal (Fin rx, Fin ry, Fin rz).
Proof.
  unfold tracked, finite_observer, EliteRadar3D.relative. intros Hpos Hobs.
  rewrite Hpos.
  apply andb_prop in Hobs as [Hobs Hq].
  apply andb_prop in Hobs as [Hobs Hp2].
  apply andb_prop in Hobs as [Hp0 Hp1].
  apply finite_Fin in Hp0 as [p0 ->].
  apply finite_Fin in Hp1 as [p1 ->].
  apply finite_Fin in Hp2 as [p2 ->].
  destruct (EliteRadar3D.shipRelativeOf options).
  - simpl in Hq.
    apply andb_prop in Hq as [Hq Hw].
    apply andb_prop in Hq as [Hq Hz].
    apply andb_prop in Hq as [Hx Hy].
    apply finite_Fin in Hx as [qx Hx], Hy as [qy Hy], Hz as [qz Hz], Hw as [qw Hw].
    unfold THREE.invert, THREE.conjugate, THREE.applyQuaternion, THREE.Quaternion_new.
    cbn [THREE._x THREE._y THREE._z THREE._w THREE.x THREE.y THREE.z].
    rewrite Hx, Hy, Hz, Hw.
    cbn [index_number lookup list_lookup default].
    fin_arith. eauto.
  - cbn [index_number lookup list_lookup default]. fin_arith. eauto.
Qed.

(** ** The locals of [EliteRadar3D.transformToRadarSpace] on finite numbers *)

Section FiniteLocals.
Variables x y z : R.

Lemma distance_Fin :
  EliteRadar3D.distance (Fin x) (Fin y) (Fin z) = Fin (sqrt (x * x + y * y + z * z)).
Proof.
  unfold EliteRadar3D.distance. fin_arith. apply sqrt_Fin, sum_squares3_nonneg.
Qed.

Lemma horizontalDist_Fin :
  EliteRadar3D.horizontalDist (Fin x) (Fin z) = Fin (sqrt (x * x + z * z)).
Proof.
  unfold EliteRadar3D.horizontalDist. fin_arith. apply sqrt_Fin, sum_squares2_nonneg.
Qed.

Lemma theta_Fin : EliteRadar3D.theta (Fin x) (Fin z) = Fin (Ratan2 x z).
Proof. reflexivity. Qed.

Lemma phi_Fin :
  EliteRadar3D.phi (Fin x) (Fin y) (Fin z) = Fin (Ratan2 y (sqrt (x * x + z * z))).
Proof. unfold EliteRadar3D.phi. rewrite horizontalDist_Fin. reflexivity. Qed.

Variable m : R.
Hypothesis m_nonzero : m <> 0.

Lemma normalizedDist_Fin :
  EliteRadar3D.normalizedDist (Fin x) (Fin y) (Fin z) (Fin m)
  = Fin (Rmin (sqrt (x * x + y * y + z * z) / m) 1).
Proof.
  unfold EliteRadar3D.normalizedDist. rewrite distance_Fin, div_Fin by assumption.
  reflexivity.
Qed.

Variable r : R.

Lemma radarX_Fin :
  EliteRadar3D.radarX (Fin x) (Fin y) (Fin z) (Fin m) (Fin r)
  = Fin (Rmin (sqrt (x * x + y * y + z * z) / m) 1 * r * sin (Ratan2 x z)).
Proof.
  unfold EliteRadar3D.radarX, EliteRadar3D.radarHorizontalDist.
  rewrite normalizedDist_Fin, theta_Fin. reflexivity.
Qed.

Lemma radarZ_Fin :
  EliteRadar3D.radarZ (Fin x) (Fin y) (Fin z) (Fin m) (Fin r)
  = Fin (Rmin (sqrt (x * x + y * y + z * z) / m) 1 * r * cos (Ratan2 x z)).
Proof.
  unfold EliteRadar3D.radarZ, EliteRadar3D.radarHorizontalDist.
  rewrite normalizedDist_Fin, theta_Fin. reflexivity.
Qed.

Lemma radarY_Fin :
  EliteRadar3D.radarY (Fin x) (Fin y) (Fin z) (Fin m) (Fin r)
  = Fin (Rmin (sqrt (x * x + y * y + z * z) / m) 1
         * sin (Ratan2 y (sqrt (x * x + z * z))) * r * 0.5).
Proof.
  unfold EliteRadar3D.radarY. rewrite normalizedDist_Fin, phi_Fin. reflexivity.
Qed.
End FiniteLocals.

(** ** The returned object *)

Lemma transform_of_relative (contact : gmap string value) (options : Options)
    (relX relY relZ : number) :
  EliteRadar3D.relative contact options = Normal (relX, relY, relZ) ->
  EliteRadar3D.transformToRadarSpace contact options
  = Normal
      (<["isAbove" := VBoolean (relY >? Fin 0)%js]>
         (<["normalizedDistance" :=
              VNumber (EliteRadar3D.normalizedDist relX relY relZ
                         (EliteRadar3D.maxRangeOf options))]>
            (<["basePosition" :=
                 VArray [EliteRadar3D.radarX relX relY relZ
                           (EliteRadar3D.maxRangeOf options)
                           (EliteRadar3D.radarRadiusOf options);
                         Fin 0;
                         EliteRadar3D.radarZ relX relY relZ
                           (EliteRadar3D.maxRangeOf options)
                           (EliteRadar3D.radarRadiusOf options)]]>
               (<["radarPosition" :=
                    VArray [EliteRadar3D.radarX relX relY relZ
                              (EliteRadar3D.maxRangeOf options)
                              (EliteRadar3D.radarRadiusOf options);
                            EliteRadar3D.radarY relX relY relZ
                              (EliteRadar3D.maxRangeOf options)
                              (EliteRadar3D.radarRadiusOf options);
                            EliteRadar3D.radarZ relX relY relZ
                              (EliteRadar3D.maxRangeOf options)
                              (EliteRadar3D.radarRadiusOf options)]]>
                  contact)))).
Proof.
  intros H. unfold EliteRadar3D.transformToRadarSpace. rewrite H. reflexivity.
Qed.

(** The four properties the transform writes, read back. *)
Lemma transform_fields (contact : gmap string value) (options : Options)
    (relX relY relZ : number) :
  EliteRadar3D.relative contact options = Normal (relX, relY, relZ) ->
  exists out,
    EliteRadar3D.transformToRadarSpace contact options = Normal out
    /\ out !! "radarPosition"
       = Some (VArray [EliteRadar3D.radarX relX relY relZ
                         (EliteRadar3D.maxRangeOf options)
                         (EliteRadar3D.radarRadiusOf options);
                       EliteRadar3D.radarY relX relY relZ
                         (EliteRadar3D.maxRangeOf options)
                         (EliteRadar3D.radarRadiusOf options);
                       EliteRadar3D.radarZ relX relY relZ
                         (EliteRadar3D.maxRangeOf options)
                         (EliteRadar3D.radarRadiusOf options)])
    /\ out !! "basePosition"
       = Some (VArray [EliteRadar3D.radarX relX relY relZ
                         (EliteRadar3D.maxRangeOf options)
                         (EliteRadar3D.radarRadiusOf options);
                       Fin 0;
                       EliteRadar3D.radarZ relX relY relZ
                         (EliteRadar3D.maxRangeOf options)
                         (EliteRadar3D.radarRadiusOf options)])
    /\ out !! "normalizedDistance"
       = Some (VNumber (EliteRadar3D.normalizedDist relX relY relZ
                          (EliteRadar3D.maxRangeOf options)))
    /\ out !! "isAbove" = Some (VBoolean (relY >? Fin 0)%js).
Proof.
  intros H. eexists. split; [apply transform_of_relative, H|].
  repeat split; lookup_out; reflexivity.
Qed.

Lemma hostile_1_tracked : tracked hostile_1 2000 800 1500.
Proof. unfold tracked, hostile_1. lookup_out. reflexivity. Qed.

(** ** The normalized distance *)

(** C1.  For every tracked object (three real coordinates), every finite
    observer and every configuration with [maxRange > 0], the transform
    returns, and the [normalizedDistance] it returns lies in [[0,1]]; it is
    exactly [1] whenever the Euclidean distance of the relative position
    (the local [distance]) is at least [maxRange]. *)
Theorem normalizedDistance_unit_interval :
  forall (contact : gmap string value) (options : Options) (x y z m : R),
    tracked contact x y z ->
    finite_observer options = true ->
    EliteRadar3D.maxRangeOf options = Fin m ->
    0 < m ->
    exists (out : gmap string value) (rx ry rz dist d : R),
      EliteRadar3D.relative contact options = Normal (Fin rx, Fin ry, Fin rz)
      /\ EliteRadar3D.distance (Fin rx) (Fin ry) (Fin rz) = Fin dist
      /\ dist = sqrt (rx * rx + ry * ry + rz * rz)
      /\ EliteRadar3D.transformToRadarSpace contact options = Normal out
      /\ out !! "normalizedDistance" = Some (VNumber (Fin d))
      /\ 0 <= d <= 1
      /\ (m <= dist -> d = 1).
Proof.
  intros contact options x y z m Hpos Hobs Hm Hpos_m.
  destruct (relative_finite contact options x y z Hpos Hobs) as (rx & ry & rz & Hrel).
  destruct (transform_fields contact options _ _ _ Hrel) as (out & Hout & _ & _ & Hnd & _).
  rewrite Hm, normalizedDist_Fin in Hnd by lra.
  set (dist := sqrt (rx * rx + ry * ry + rz * rz)) in *.
  assert (Hdist : 0 <= dist) by apply sqrt_pos.
  assert (Hquot : 0 <= dist / m).
  { apply Rmult_le_pos; [assumption|]. left. apply Rinv_0_lt_compat. assumption. }
  exists out, rx, ry, rz, dist, (Rmin (dist / m) 1).
  repeat split; try assumption.
  - apply distance_Fin.
  - apply Rmin_glb; lra.
  - apply Rmin_r.
  - intros Hfar. apply Rmin_right.
    apply (Rmult_le_reg_r m); [assumption|].
    unfold Rdiv. rewrite Rmult_assoc, Rinv_l by lra. lra.
Qed.

Lemma normalizedDistance_unit_interval_witness :
  exists (out : gmap string value) (rx ry rz dist d : R),
    EliteRadar3D.relative hostile_1 no_options = Normal (Fin rx, Fin ry, Fin rz)
    /\ EliteRadar3D.distance (Fin rx) (Fin ry) (Fin rz) = Fin dist
    /\ dist = sqrt (rx * rx + ry * ry + rz * rz)
    /\ EliteRadar3D.transformToRadarSpace hostile_1 no_options = Normal out
    /\ out !! "normalizedDistance" = Some (VNumber (Fin d))
    /\ 0 <= d <= 1
    /\ (5000 <= dist -> d = 1).
Proof.
  apply (normalizedDistance_unit_interval hostile_1 no_options 2000 800 1500 5000).
  - unfold tracked, hostile_1. lookup_out. reflexivity.
  - reflexivity.
  - reflexivity.
  - lra.
Defined.

(** ** The base point and the frame of the returned object *)

Lemma transform_returns (contact : gmap string value) (options : Options)
    (out : gmap string value) :
  EliteRadar3D.transformToRadarSpace contact options = Normal out ->
  exists relX relY relZ,
    EliteRadar3D.relative contact options = Normal (relX, relY, relZ).
Proof.
  unfold EliteRadar3D.transformToRadarSpace.
  destruct (EliteRadar3D.relative contact options) as [[[relX relY] relZ]|e].
  - eauto.
  - discriminate.
Qed.

(** C5.  For every input the transform either throws, which happens
    exactly when [contact.position] is undefined, or returns an object
    whose [basePosition] is its [radarPosition] with the vertical
    component replaced by [0]. *)
Theorem basePosition_flattens_radarPosition :
  forall (contact : gmap string value) (options : Options),
    match EliteRadar3D.transformToRadarSpace contact options with
    | Normal out =>
        exists radarX radarY radarZ : number,
          out !! "radarPosition" = Some (VArray [radarX; radarY; radarZ])
          /\ out !! "basePosition" = Some (VArray [radarX; Fin 0; radarZ])
    | Throw _ => contact !! "position" = None
    end.
Proof.
  intros contact options.
  destruct (contact !! "position") as [v|] eqn:Hpos.
  - destruct (relative_defined contact options v Hpos) as (relX & relY & relZ & Hrel).
    destruct (transform_fields contact options _ _ _ Hrel)
      as (out & -> & Hradar & Hbase & _).
    eauto.
  - unfold EliteRadar3D.transformToRadarSpace.
    rewrite (relative_undefined contact options Hpos). reflexivity.
Qed.

(** C9.  The object returned by [transformToRadarSpace] agrees with the
    contact on every property other than [radarPosition], [basePosition],
    [normalizedDistance] and [isAbove]; the main component defines these
    four, the demo copy defines the first three. *)
Theorem transformToRadarSpace_frame :
  forall (contact : gmap string value) (options : Options) (k : string),
    k <> "radarPosition" -> k <> "basePosition" ->
    k <> "normalizedDistance" -> k <> "isAbove" ->
    (forall out,
        EliteRadar3D.transformToRadarSpace contact options = Normal out ->
        out !! k = contact !! k
        /\ is_Some (out !! "radarPosition") /\ is_Some (out !! "basePosition")
        /\ is_Some (out !! "normalizedDistance") /\ is_Some (out !! "isAbove"))
    /\ (forall out,
        EliteRadarDemo.transformToRadarSpace contact options = Normal out ->
        out !! k = contact !! k
        /\ out !! "isAbove" = contact !! "isAbove"
        /\ is_Some (out !! "radarPosition") /\ is_Some (out !! "basePosition")
        /\ is_Some (out !! "normalizedDistance")).
Proof.
  intros contact options k Hk1 Hk2 Hk3 Hk4. split; intros out Hout.
  - destruct (transform_returns contact options out Hout) as (relX & relY & relZ & Hrel).
    rewrite (transform_of_relative contact options _ _ _ Hrel) in Hout.
    injection Hout as <-.
    split; [rewrite !lookup_insert_ne by congruence; reflexivity|].
    repeat split; lookup_out; eexists; reflexivity.
  - unfold EliteRadarDemo.transformToRadarSpace in Hout.
    destruct (EliteRadarDemo.destructure3 (contact !! "position"))
      as [[[relX relY] relZ]|e]; [|discriminate].
    injection Hout as <-.
    split; [rewrite !lookup_insert_ne by congruence; reflexivity|].
    repeat split; lookup_out; try reflexivity; eexists; reflexivity.
Qed.

Lemma transformToRadarSpace_frame_witness :
  (exists out,
      EliteRadar3D.transformToRadarSpace hostile_1 no_options = Normal out
      /\ out !! "id" = Some (VString "hostile-1"))
  /\ (exists out,
      EliteRadarDemo.transformToRadarSpace hostile_1 no_options = Normal out
      /\ out !! "id" = Some (VString "hostile-1")).
Proof.
  destruct (transformToRadarSpace_frame hostile_1 no_options "id")
    as [H3D Hdemo]; try discriminate.
  split.
  - destruct (relative_defined hostile_1 no_options _ hostile_1_tracked)
      as (relX & relY & relZ & Hrel).
    eexists. split; [apply transform_of_relative, Hrel|].
    destruct (H3D _ (transform_of_relative _ _ _ _ _ Hrel)) as [-> _].
    reflexivity.
  - eexists. split; [reflexivity|].
    destruct (Hdemo _ eq_refl) as [-> _]. reflexivity.
Defined.

(** ** The observer at the origin, unrotated *)

Lemma Normal_Fin3 (a b c a' b' c' : R) :
  a = a' -> b = b' -> c = c' ->
  @Normal (number * number * number) (Fin a, Fin b, Fin c)
  = Normal (Fin a', Fin b', Fin c').
Proof. intros -> -> ->. reflexivity. Qed.

Lemma relative_origin (contact : gmap string value) (options : Options) (x y z : R) :
  tracked contact x y z ->
  at_origin_unrotated options ->
  EliteRadar3D.relative contact options = Normal (Fin x, Fin y, Fin z).
Proof.
  destruct options as [pp pq mr rr sr].
  unfold tracked, at_origin_unrotated, EliteRadar3D.relative,
    EliteRadar3D.playerPositionOf, EliteRadar3D.playerQuaternionOf,
    EliteRadar3D.shipRelativeOf.
  cbn [playerPosition playerQuaternion shipRelative].
  intros -> [Hpp Hrot].
  assert (Hplain :
    Normal ((index_number (VArray [Fin x; Fin y; Fin z]) 0 - Fin 0)%js,
            (index_number (VArray [Fin x; Fin y; Fin z]) 1 - Fin 0)%js,
            (index_number (VArray [Fin x; Fin y; Fin z]) 2 - Fin 0)%js)
    = Normal (Fin x, Fin y, Fin z)).
  { cbn [index_number lookup list_lookup default]. fin_arith.
    apply Normal_Fin3; lra. }
  destruct Hpp as [-> | ->]; cbn [default lookup list_lookup];
    (destruct Hrot as [-> | [-> | ->]]; [exact Hplain | |]);
    (destruct sr as [[|]|]; cbn [default]; try exact Hplain);
    unfold THREE.invert, THREE.conjugate, THREE.applyQuaternion, THREE.Quaternion_new;
    cbn [THREE._x THREE._y THREE._z THREE._w THREE.x THREE.y THREE.z
         index_number lookup list_lookup default];
    fin_arith; apply Normal_Fin3; lra.
Qed.

(** ** Special values of [atan2] and the clamp *)

Lemma Ratan2_0_0 : Ratan2 0 0 = 0.
Proof.
  unfold Ratan2. repeat (destruct (Rlt_dec _ _); try lra).
Qed.

Lemma Ratan2_pos_0 (y : R) : 0 < y -> Ratan2 y 0 = PI / 2.
Proof.
  intros Hy. unfold Ratan2. repeat (destruct (Rlt_dec _ _); try lra).
Qed.

Lemma Ratan2_0_pos (x : R) : 0 < x -> Ratan2 0 x = 0.
Proof.
  intros Hx. unfold Ratan2. destruct (Rlt_dec 0 x); [|lra].
  unfold Rdiv. rewrite Rmult_0_l. apply atan_0.
Qed.

Lemma Ratan2_0_neg (x : R) : x < 0 -> Ratan2 0 x = PI.
Proof.
  intros Hx. unfold Ratan2.
  destruct (Rlt_dec 0 x); [lra|]. destruct (Rlt_dec x 0); [|lra].
  destruct (Rle_dec 0 0); [|lra].
  unfold Rdiv. rewrite Rmult_0_l, atan_0. lra.
Qed.

Lemma sqrt_of_square (m : R) : 0 <= m -> sqrt (m * m) = m.
Proof. intros Hm. apply R_sqrt.sqrt_square. assumption. Qed.

(** At distance [maxRange] the clamp is reached exactly. *)
Lemma clamp_at_range (m : R) : 0 < m -> Rmin (m / m) 1 = 1.
Proof.
  intros Hm. unfold Rdiv. rewrite Rinv_r by lra. apply Rmin_left. lra.
Qed.

(** ** The projection on finite numbers *)

(** With a finite relative position, a finite non-zero [maxRange] and a
    finite [radarRadius], every returned coordinate is the real number the
    source's formula denotes. *)
Lemma projection_finite (contact : gmap string value) (options : Options)
    (rx ry rz m r : R) :
  EliteRadar3D.relative contact options = Normal (Fin rx, Fin ry, Fin rz) ->
  EliteRadar3D.maxRangeOf options = Fin m ->
  m <> 0 ->
  EliteRadar3D.radarRadiusOf options = Fin r ->
  exists out : gmap string value,
    EliteRadar3D.transformToRadarSpace contact options = Normal out
    /\ out !! "radarPosition"
       = Some (VArray
           [Fin (Rmin (sqrt (rx * rx + ry * ry + rz * rz) / m) 1 * r
                 * sin (Ratan2 rx rz));
            Fin (Rmin (sqrt (rx * rx + ry * ry + rz * rz) / m) 1
                 * sin (Ratan2 ry (sqrt (rx * rx + rz * rz))) * r * 0.5);
            Fin (Rmin (sqrt (rx * rx + ry * ry + rz * rz) / m) 1 * r
                 * cos (Ratan2 rx rz))])
    /\ out !! "basePosition"
       = Some (VArray
           [Fin (Rmin (sqrt (rx * rx + ry * ry + rz * rz) / m) 1 * r
                 * sin (Ratan2 rx rz));
            Fin 0;
            Fin (Rmin (sqrt (rx * rx + ry * ry + rz * rz) / m) 1 * r
                 * cos (Ratan2 rx rz))])
    /\ out !! "normalizedDistance"
       = Some (VNumber (Fin (Rmin (sqrt (rx * rx + ry * ry + rz * rz) / m) 1))).
Proof.
  intros Hrel Hm Hm0 Hr.
  destruct (transform_fields contact options _ _ _ Hrel)
    as (out & Hout & Hradar & Hbase & Hnd & _).
  rewrite Hm, Hr in Hradar, Hbase. rewrite Hm in Hnd.
  rewrite radarX_Fin, radarZ_Fin in Hradar, Hbase by assumption.
  rewrite radarY_Fin in Hradar by assumption.
  rewrite normalizedDist_Fin in Hnd by assumption.
  exists out. repeat split; assumption.
Qed.

(** The object straight above the observer, at distance [maxRange]. *)
Lemma overhead_projection (contact : gmap string value) (options : Options) (m r : R) :
  tracked contact 0 m 0 ->
  at_origin_unrotated options ->
  EliteRadar3D.maxRangeOf options = Fin m ->
  0 < m ->
  EliteRadar3D.radarRadiusOf options = Fin r ->
  EliteRadar3D.relative contact options = Normal (Fin 0, Fin m, Fin 0)
  /\ EliteRadar3D.horizontalDist (Fin 0) (Fin 0) = Fin 0
  /\ EliteRadar3D.theta (Fin 0) (Fin 0) = Fin 0
  /\ EliteRadar3D.phi (Fin 0) (Fin m) (Fin 0) = Fin (PI / 2)
  /\ exists out : gmap string value,
      EliteRadar3D.transformToRadarSpace contact options = Normal out
      /\ out !! "normalizedDistance" = Some (VNumber (Fin 1))
      /\ out !! "radarPosition" = Some (VArray [Fin 0; Fin (r * 0.5); Fin r]).
Proof.
  intros Hpos Horigin Hm Hm0 Hr.
  pose proof (relative_origin contact options 0 m 0 Hpos Horigin) as Hrel.
  assert (Hh : sqrt (0 * 0 + 0 * 0) = 0).
  { replace (0 * 0 + 0 * 0) with 0 by lra. apply sqrt_0. }
  assert (Hd : Rmin (sqrt (0 * 0 + m * m + 0 * 0) / m) 1 = 1).
  { replace (0 * 0 + m * m + 0 * 0) with (m * m) by lra.
    rewrite sqrt_of_square by lra. apply clamp_at_range. assumption. }
  split; [assumption|].
  split; [rewrite horizontalDist_Fin, Hh; reflexivity|].
  split; [rewrite theta_Fin, Ratan2_0_0; reflexivity|].
  split; [rewrite phi_Fin, Hh, Ratan2_pos_0 by assumption; reflexivity|].
  destruct (projection_finite contact options 0 m 0 m r Hrel Hm) as
    (out & Hout & Hradar & _ & Hnd); [lra|assumption|].
  rewrite Hd in Hnd, Hradar.
  rewrite Hh, Ratan2_0_0, Ratan2_pos_0, sin_0, cos_0, sin_PI2 in Hradar by assumption.
  exists out. split; [assumption|]. split; [assumption|].
  rewrite Hradar. do 2 f_equal.
  f_equal; [f_equal; lra|]. f_equal; [f_equal; lra|]. f_equal. f_equal. lra.
Qed.

Lemma Some_VArray3 (a b c a' b' c' : R) :
  a = a' -> b = b' -> c = c' ->
  Some (VArray [Fin a; Fin b; Fin c]) = Some (VArray [Fin a'; Fin b'; Fin c']).
Proof. intros -> -> ->. reflexivity. Qed.

Lemma overhead_tracked : tracked overhead 0 5000 0.
Proof. unfold tracked, overhead. lookup_out. reflexivity. Qed.

Lemma no_options_origin : at_origin_unrotated no_options.
Proof. split; [left | right; left]; reflexivity. Qed.

(** C3, as the code has it.  For an object at [[0, maxRange, 0]] with the
    observer at the origin and no rotation, [horizontalDist] is [0], [phi]
    is [PI / 2], [radarY] is [radarRadius * 0.5] and [radarX] is [0]; but
    [theta = atan2(0, 0) = 0], so [radarZ] is [radarRadius * cos 0], that
    is [radarRadius], not [0]. *)
Theorem overhead_radarPosition :
  forall (contact : gmap string value) (options : Options) (m r : R),
    tracked contact 0 m 0 ->
    at_origin_unrotated options ->
    EliteRadar3D.maxRangeOf options = Fin m ->
    0 < m ->
    EliteRadar3D.radarRadiusOf options = Fin r ->
    EliteRadar3D.relative contact options = Normal (Fin 0, Fin m, Fin 0)
    /\ EliteRadar3D.horizontalDist (Fin 0) (Fin 0) = Fin 0
    /\ EliteRadar3D.phi (Fin 0) (Fin m) (Fin 0) = Fin (PI / 2)
    /\ exists out : gmap string value,
        EliteRadar3D.transformToRadarSpace contact options = Normal out
        /\ out !! "radarPosition" = Some (VArray [Fin 0; Fin (r * 0.5); Fin r]).
Proof.
  intros contact options m r Hpos Horigin Hm Hm0 Hr.
  destruct (overhead_projection contact options m r Hpos Horigin Hm Hm0 Hr)
    as (Hrel & Hh & _ & Hphi & out & Hout & _ & Hradar).
  repeat split; try assumption. exists out. split; assumption.
Qed.

Lemma overhead_radarPosition_witness :
  EliteRadar3D.relative overhead no_options = Normal (Fin 0, Fin 5000, Fin 0)
  /\ EliteRadar3D.horizontalDist (Fin 0) (Fin 0) = Fin 0
  /\ EliteRadar3D.phi (Fin 0) (Fin 5000) (Fin 0) = Fin (PI / 2)
  /\ exists out : gmap string value,
      EliteRadar3D.transformToRadarSpace overhead no_options = Normal out
      /\ out !! "radarPosition" = Some (VArray [Fin 0; Fin (1 * 0.5); Fin 1]).
Proof.
  apply (overhead_radarPosition overhead no_options 5000 1).
  - unfold tracked, overhead. lookup_out. reflexivity.
  - split; [left | right; left]; reflexivity.
  - reflexivity.
  - lra.
  - reflexivity.
Defined.

(** C3 as the specification words it fails: for the object at
    [[0, 5000, 0]] under the default options the second horizontal
    component [radarZ] is [1], the radar radius, and not [0]. *)
Lemma overhead_radarZ_not_zero :
  exists (out : gmap string value) (radarX radarY radarZ : number),
    EliteRadar3D.transformToRadarSpace overhead no_options = Normal out
    /\ out !! "radarPosition" = Some (VArray [radarX; radarY; radarZ])
    /\ radarZ = Fin 1
    /\ radarZ <> Fin 0.
Proof.
  destruct (overhead_projection overhead no_options 5000 1
              overhead_tracked no_options_origin eq_refl ltac:(lra) eq_refl)
    as (_ & _ & _ & _ & out & Hout & _ & Hradar).
  exists out, (Fin 0), (Fin (1 * 0.5)), (Fin 1).
  split; [assumption|]. split; [assumption|]. split; [reflexivity|].
  intros H. injection H as H. lra.
Qed.

(** ** An object on the negative z axis *)

Lemma minus_z_projection (contact : gmap string value) (options : Options) (m r : R) :
  tracked contact 0 0 (- m) ->
  at_origin_unrotated options ->
  EliteRadar3D.maxRangeOf options = Fin m ->
  0 < m ->
  EliteRadar3D.radarRadiusOf options = Fin r ->
  EliteRadar3D.relative contact options = Normal (Fin 0, Fin 0, Fin (- m))
  /\ EliteRadar3D.theta (Fin 0) (Fin (- m)) = Fin PI
  /\ EliteRadar3D.phi (Fin 0) (Fin 0) (Fin (- m)) = Fin 0
  /\ exists out : gmap string value,
      EliteRadar3D.transformToRadarSpace contact options = Normal out
      /\ out !! "normalizedDistance" = Some (VNumber (Fin 1))
      /\ out !! "radarPosition" = Some (VArray [Fin 0; Fin 0; Fin (- r)]).
Proof.
  intros Hpos Horigin Hm Hm0 Hr.
  pose proof (relative_origin contact options 0 0 (- m) Hpos Horigin) as Hrel.
  assert (Hh : sqrt (0 * 0 + - m * - m) = m).
  { replace (0 * 0 + - m * - m) with (m * m) by lra. apply sqrt_of_square. lra. }
  assert (Hd : Rmin (sqrt (0 * 0 + 0 * 0 + - m * - m) / m) 1 = 1).
  { replace (0 * 0 + 0 * 0 + - m * - m) with (m * m) by lra.
    rewrite sqrt_of_square by lra. apply clamp_at_range. assumption. }
  assert (Htheta : Ratan2 0 (- m) = PI) by (apply Ratan2_0_neg; lra).
  split; [assumption|].
  split; [rewrite theta_Fin, Htheta; reflexivity|].
  split; [rewrite phi_Fin, Hh, Ratan2_0_pos by assumption; reflexivity|].
  destruct (projection_finite contact options 0 0 (- m) m r Hrel Hm) as
    (out & Hout & Hradar & _ & Hnd); [lra|assumption|].
  rewrite Hd in Hnd, Hradar.
  rewrite Hh, Htheta, Ratan2_0_pos, sin_0, sin_PI, cos_PI in Hradar by assumption.
  exists out. split; [assumption|]. split; [assumption|].
  rewrite Hradar. apply Some_VArray3; lra.
Qed.

Lemma minus_z_tracked : tracked minus_z 0 0 (- 5000).
Proof. unfold tracked, minus_z. lookup_out. reflexivity. Qed.

(** C7, as the code has it.  For an object at [[0, 0, -maxRange]] with the
    observer at the origin and no rotation, the azimuth [theta] is
    [atan2(0, -maxRange) = PI], the elevation [phi] is [0],
    [normalizedDistance] is [1] and [radarPosition] is
    [[0, 0, -radarRadius]]: zero vertical component, magnitude
    [|radarRadius|], which is [radarRadius] when that is not negative. *)
Theorem minus_z_radarPosition :
  forall (contact : gmap string value) (options : Options) (m r : R),
    tracked contact 0 0 (- m) ->
    at_origin_unrotated options ->
    EliteRadar3D.maxRangeOf options = Fin m ->
    0 < m ->
    EliteRadar3D.radarRadiusOf options = Fin r ->
    EliteRadar3D.relative contact options = Normal (Fin 0, Fin 0, Fin (- m))
    /\ EliteRadar3D.theta (Fin 0) (Fin (- m)) = Fin PI
    /\ EliteRadar3D.phi (Fin 0) (Fin 0) (Fin (- m)) = Fin 0
    /\ (exists out : gmap string value,
        EliteRadar3D.transformToRadarSpace contact options = Normal out
        /\ out !! "normalizedDistance" = Some (VNumber (Fin 1))
        /\ out !! "radarPosition" = Some (VArray [Fin 0; Fin 0; Fin (- r)]))
    /\ sqrt (0 * 0 + 0 * 0 + - r * - r) = Rabs r
    /\ (0 <= r -> sqrt (0 * 0 + 0 * 0 + - r * - r) = r).
Proof.
  intros contact options m r Hpos Horigin Hm Hm0 Hr.
  destruct (minus_z_projection contact options m r Hpos Horigin Hm Hm0 Hr)
    as (Hrel & Htheta & Hphi & Hout).
  assert (Hnorm : sqrt (0 * 0 + 0 * 0 + - r * - r) = Rabs r).
  { replace (0 * 0 + 0 * 0 + - r * - r) with (Rsqr r) by (unfold Rsqr; lra).
    apply sqrt_Rsqr_abs. }
  repeat split; try assumption.
  intros Hr0. rewrite Hnorm. apply Rabs_right. lra.
Qed.

Lemma minus_z_radarPosition_witness :
  EliteRadar3D.relative minus_z no_options = Normal (Fin 0, Fin 0, Fin (- 5000))
  /\ EliteRadar3D.theta (Fin 0) (Fin (- 5000)) = Fin PI
  /\ EliteRadar3D.phi (Fin 0) (Fin 0) (Fin (- 5000)) = Fin 0
  /\ (exists out : gmap string value,
      EliteRadar3D.transformToRadarSpace minus_z no_options = Normal out
      /\ out !! "normalizedDistance" = Some (VNumber (Fin 1))
      /\ out !! "radarPosition" = Some (VArray [Fin 0; Fin 0; Fin (- 1)]))
  /\ sqrt (0 * 0 + 0 * 0 + - 1 * - 1) = Rabs 1
  /\ (0 <= 1 -> sqrt (0 * 0 + 0 * 0 + - 1 * - 1) = 1).
Proof.
  apply (minus_z_radarPosition minus_z no_options 5000 1).
  - unfold tracked, minus_z. lookup_out. reflexivity.
  - split; [left | right; left]; reflexivity.
  - reflexivity.
  - lra.
  - reflexivity.
Defined.

(** C7 as the specification words it fails: for the object at
    [[0, 0, -5000]] under the default options the azimuth is [PI], not
    [0]. *)
Lemma minus_z_azimuth_not_zero :
  EliteRadar3D.relative minus_z no_options = Normal (Fin 0, Fin 0, Fin (- 5000))
  /\ EliteRadar3D.theta (Fin 0) (Fin (- 5000)) = Fin PI
  /\ EliteRadar3D.theta (Fin 0) (Fin (- 5000)) <> Fin 0.
Proof.
  destruct (minus_z_projection minus_z no_options 5000 1
              minus_z_tracked no_options_origin eq_refl ltac:(lra) eq_refl)
    as (Hrel & Htheta & _).
  split; [assumption|]. split; [assumption|].
  intros H. pose proof (eq_trans (eq_sym Htheta) H) as HPI.
  injection HPI as HPI. pose proof PI_RGT_0. lra.
Qed.

(** ** An object at the observer's position *)

Lemma relative_colocated (contact : gmap string value) (options : Options) (x y z : R) :
  tracked contact x y z ->
  EliteRadar3D.playerPositionOf options = [Fin x; Fin y; Fin z] ->
  finite_observer options = true ->
  EliteRadar3D.relative contact options = Normal (Fin 0, Fin 0, Fin 0).
Proof.
  unfold tracked, finite_observer, EliteRadar3D.relative. intros Hpos Hpp Hobs.
  rewrite Hpos, Hpp. rewrite Hpp in Hobs.
  apply andb_prop in Hobs as [_ Hq].
  cbn [index_number lookup list_lookup default]. fin_arith.
  destruct (EliteRadar3D.shipRelativeOf options).
  - simpl in Hq.
    apply andb_prop in Hq as [Hq Hw].
    apply andb_prop in Hq as [Hq Hz].
    apply andb_prop in Hq as [Hx Hy].
    apply finite_Fin in Hx as [qx Hx], Hy as [qy Hy], Hz as [qz Hz], Hw as [qw Hw].
    unfold THREE.invert, THREE.conjugate, THREE.applyQuaternion, THREE.Quaternion_new.
    cbn [THREE._x THREE._y THREE._z THREE._w THREE.x THREE.y THREE.z].
    rewrite Hx, Hy, Hz, Hw. fin_arith. apply Normal_Fin3; ring.
  - apply Normal_Fin3; ring.
Qed.

Lemma colocated_projection (contact : gmap string value) (options : Options)
    (x y z m r : R) :
  tracked contact x y z ->
  EliteRadar3D.playerPositionOf options = [Fin x; Fin y; Fin z] ->
  finite_observer options = true ->
  EliteRadar3D.maxRangeOf options = Fin m ->
  m <> 0 ->
  EliteRadar3D.radarRadiusOf options = Fin r ->
  exists out : gmap string value,
    EliteRadar3D.transformToRadarSpace contact options = Normal out
    /\ out !! "normalizedDistance" = Some (VNumber (Fin 0))
    /\ out !! "radarPosition" = Some (VArray [Fin 0; Fin 0; Fin 0])
    /\ out !! "basePosition" = Some (VArray [Fin 0; Fin 0; Fin 0]).
Proof.
  intros Hpos Hpp Hobs Hm Hm0 Hr.
  pose proof (relative_colocated contact options x y z Hpos Hpp Hobs) as Hrel.
  destruct (projection_finite contact options 0 0 0 m r Hrel Hm Hm0 Hr)
    as (out & Hout & Hradar & Hbase & Hnd).
  assert (Hd : Rmin (sqrt (0 * 0 + 0 * 0 + 0 * 0) / m) 1 = 0).
  { replace (0 * 0 + 0 * 0 + 0 * 0) with 0 by lra. rewrite sqrt_0.
    unfold Rdiv. rewrite Rmult_0_l. apply Rmin_left. lra. }
  rewrite Hd in Hradar, Hbase, Hnd.
  exists out. split; [assumption|]. split; [assumption|].
  split; [rewrite Hradar | rewrite Hbase]; apply Some_VArray3; ring.
Qed.

(** C6.  For an object at the observer's exact position (relative
    position [[0,0,0]], where [atan2(0,0)] is [0]), with a finite observer,
    a non-zero [maxRange] and a finite [radarRadius], the transform yields
    [normalizedDistance = 0], [radarPosition = [0,0,0]] and
    [basePosition = [0,0,0]]. *)
Theorem colocated_projects_to_centre :
  forall (contact : gmap string value) (options : Options) (x y z m r : R),
    tracked contact x y z ->
    EliteRadar3D.playerPositionOf options = [Fin x; Fin y; Fin z] ->
    finite_observer options = true ->
    EliteRadar3D.maxRangeOf options = Fin m ->
    m <> 0 ->
    EliteRadar3D.radarRadiusOf options = Fin r ->
    EliteRadar3D.relative contact options = Normal (Fin 0, Fin 0, Fin 0)
    /\ EliteRadar3D.theta (Fin 0) (Fin 0) = Fin 0
    /\ EliteRadar3D.phi (Fin 0) (Fin 0) (Fin 0) = Fin 0
    /\ exists out : gmap string value,
        EliteRadar3D.transformToRadarSpace contact options = Normal out
        /\ out !! "normalizedDistance" = Some (VNumber (Fin 0))
        /\ out !! "radarPosition" = Some (VArray [Fin 0; Fin 0; Fin 0])
        /\ out !! "basePosition" = Some (VArray [Fin 0; Fin 0; Fin 0]).
Proof.
  intros contact options x y z m r Hpos Hpp Hobs Hm Hm0 Hr.
  split; [exact (relative_colocated contact options x y z Hpos Hpp Hobs)|].
  split; [rewrite theta_Fin, Ratan2_0_0; reflexivity|].
  split.
  - rewrite phi_Fin. replace (0 * 0 + 0 * 0) with 0 by lra.
    rewrite sqrt_0, Ratan2_0_0. reflexivity.
  - exact (colocated_projection contact options x y z m r Hpos Hpp Hobs Hm Hm0 Hr).
Qed.

Lemma colocated_projects_to_centre_witness :
  EliteRadar3D.relative colocated no_options = Normal (Fin 0, Fin 0, Fin 0)
  /\ EliteRadar3D.theta (Fin 0) (Fin 0) = Fin 0
  /\ EliteRadar3D.phi (Fin 0) (Fin 0) (Fin 0) = Fin 0
  /\ exists out : gmap string value,
      EliteRadar3D.transformToRadarSpace colocated no_options = Normal out
      /\ out !! "normalizedDistance" = Some (VNumber (Fin 0))
      /\ out !! "radarPosition" = Some (VArray [Fin 0; Fin 0; Fin 0])
      /\ out !! "basePosition" = Some (VArray [Fin 0; Fin 0; Fin 0]).
Proof.
  apply (colocated_projects_to_centre colocated no_options 0 0 0 5000 1).
  - unfold tracked, colocated. lookup_out. reflexivity.
  - reflexivity.
  - reflexivity.
  - reflexivity.
  - lra.
  - reflexivity.
Defined.

(** ** The horizontal radius and the height of the projected point *)

Lemma clamp_nonneg (dist m : R) : 0 <= dist -> 0 < m -> 0 <= Rmin (dist / m) 1 <= 1.
Proof.
  intros Hdist Hm. split; [|apply Rmin_r].
  apply Rmin_glb; [|lra].
  apply Rmult_le_pos; [assumption|]. left. apply Rinv_0_lt_compat. assumption.
Qed.

Lemma horizontal_norm (h t : R) :
  sqrt (h * sin t * (h * sin t) + h * cos t * (h * cos t)) = Rabs h.
Proof.
  replace (h * sin t * (h * sin t) + h * cos t * (h * cos t))
    with (Rsqr h * (Rsqr (sin t) + Rsqr (cos t))) by (unfold Rsqr; ring).
  rewrite sin2_cos2, Rmult_1_r. apply sqrt_Rsqr_abs.
Qed.

Lemma height_bound (d s r : R) :
  0 <= d -> -1 <= s <= 1 -> Rabs (d * s * r * 0.5) <= 0.5 * d * Rabs r.
Proof.
  intros Hd Hs.
  rewrite !Rabs_mult, (Rabs_right d), (Rabs_right 0.5) by lra.
  assert (Hs' : Rabs s <= 1) by (apply Rabs_le; assumption).
  pose proof (Rabs_pos s). pose proof (Rabs_pos r).
  assert (0 <= d * Rabs r) by (apply Rmult_le_pos; assumption).
  nra.
Qed.

(** C4.  For every tracked object, finite observer and configuration with
    [maxRange > 0], the Euclidean norm of the two horizontal components of
    [radarPosition] is [normalizedDistance * |radarRadius|], hence
    [normalizedDistance * radarRadius] for a radius that is not negative;
    the factor [0.5] (the height scale) occurs in the vertical component
    only. *)
Theorem horizontal_norm_is_scaled_distance :
  forall (contact : gmap string value) (options : Options) (x y z m r : R),
    tracked contact x y z ->
    finite_observer options = true ->
    EliteRadar3D.maxRangeOf options = Fin m ->
    0 < m ->
    EliteRadar3D.radarRadiusOf options = Fin r ->
    exists (out : gmap string value) (d theta phi : R),
      EliteRadar3D.transformToRadarSpace contact options = Normal out
      /\ out !! "normalizedDistance" = Some (VNumber (Fin d))
      /\ out !! "radarPosition"
         = Some (VArray [Fin (d * r * sin theta);
                         Fin (d * sin phi * r * 0.5);
                         Fin (d * r * cos theta)])
      /\ sqrt (d * r * sin theta * (d * r * sin theta)
               + d * r * cos theta * (d * r * cos theta)) = d * Rabs r
      /\ (0 <= r ->
          sqrt (d * r * sin theta * (d * r * sin theta)
                + d * r * cos theta * (d * r * cos theta)) = d * r).
Proof.
  intros contact options x y z m r Hpos Hobs Hm Hm0 Hr.
  destruct (relative_finite contact options x y z Hpos Hobs) as (rx & ry & rz & Hrel).
  destruct (projection_finite contact options rx ry rz m r Hrel Hm) as
    (out & Hout & Hradar & _ & Hnd); [lra|assumption|].
  destruct (clamp_nonneg (sqrt (rx * rx + ry * ry + rz * rz)) m) as [Hd0 _];
    [apply sqrt_pos|assumption|].
  set (d := Rmin (sqrt (rx * rx + ry * ry + rz * rz) / m) 1) in *.
  exists out, d, (Ratan2 rx rz), (Ratan2 ry (sqrt (rx * rx + rz * rz))).
  split; [assumption|]. split; [assumption|]. split; [assumption|].
  assert (Hnorm : sqrt (d * r * sin (Ratan2 rx rz) * (d * r * sin (Ratan2 rx rz))
                        + d * r * cos (Ratan2 rx rz) * (d * r * cos (Ratan2 rx rz)))
                  = d * Rabs r).
  { rewrite horizontal_norm, Rabs_mult, (Rabs_right d) by lra. reflexivity. }
  split; [assumption|].
  intros Hr0. rewrite Hnorm, (Rabs_right r) by lra. reflexivity.
Qed.

Lemma horizontal_norm_is_scaled_distance_witness :
  exists (out : gmap string value) (d theta phi : R),
    EliteRadar3D.transformToRadarSpace hostile_1 no_options = Normal out
    /\ out !! "normalizedDistance" = Some (VNumber (Fin d))
    /\ out !! "radarPosition"
       = Some (VArray [Fin (d * 1 * sin theta);
                       Fin (d * sin phi * 1 * 0.5);
                       Fin (d * 1 * cos theta)])
    /\ sqrt (d * 1 * sin theta * (d * 1 * sin theta)
             + d * 1 * cos theta * (d * 1 * cos theta)) = d * Rabs 1
    /\ (0 <= 1 ->
        sqrt (d * 1 * sin theta * (d * 1 * sin theta)
              + d * 1 * cos theta * (d * 1 * cos theta)) = d * 1).
Proof.
  apply (horizontal_norm_is_scaled_distance hostile_1 no_options 2000 800 1500 5000 1).
  - unfold tracked, hostile_1. lookup_out. reflexivity.
  - reflexivity.
  - reflexivity.
  - lra.
  - reflexivity.
Defined.

(** C10.  For every tracked object, finite observer and configuration
    with [maxRange > 0], the vertical component [radarY] satisfies
    [|radarY| <= 0.5 * normalizedDistance * |radarRadius|]; for a radius
    that is not negative this is [0.5 * normalizedDistance * radarRadius],
    which is at most [0.5 * radarRadius].  The distance of the projected
    point from the centre can nevertheless exceed [radarRadius]: it does
    for the object straight above the observer at distance [maxRange]. *)
Theorem radarY_bounded_by_half_radius :
  (forall (contact : gmap string value) (options : Options) (x y z m r : R),
      tracked contact x y z ->
      finite_observer options = true ->
      EliteRadar3D.maxRangeOf options = Fin m ->
      0 < m ->
      EliteRadar3D.radarRadiusOf options = Fin r ->
      exists (out : gmap string value) (d radarX radarY radarZ : R),
        EliteRadar3D.transformToRadarSpace contact options = Normal out
        /\ out !! "normalizedDistance" = Some (VNumber (Fin d))
        /\ out !! "radarPosition" = Some (VArray [Fin radarX; Fin radarY; Fin radarZ])
        /\ Rabs radarY <= 0.5 * d * Rabs r
        /\ (0 <= r -> Rabs radarY <= 0.5 * d * r /\ Rabs radarY <= 0.5 * r))
  /\ (exists (out : gmap string value) (radarX radarY radarZ : R),
        EliteRadar3D.transformToRadarSpace overhead no_options = Normal out
        /\ out !! "radarPosition" = Some (VArray [Fin radarX; Fin radarY; Fin radarZ])
        /\ EliteRadar3D.radarRadiusOf no_options = Fin 1
        /\ 1 < sqrt (radarX * radarX + radarY * radarY + radarZ * radarZ)).
Proof.
  split.
  - intros contact options x y z m r Hpos Hobs Hm Hm0 Hr.
    destruct (relative_finite contact options x y z Hpos Hobs) as (rx & ry & rz & Hrel).
    destruct (projection_finite contact options rx ry rz m r Hrel Hm) as
      (out & Hout & Hradar & _ & Hnd); [lra|assumption|].
    destruct (clamp_nonneg (sqrt (rx * rx + ry * ry + rz * rz)) m) as [Hd0 Hd1];
      [apply sqrt_pos|assumption|].
    set (d := Rmin (sqrt (rx * rx + ry * ry + rz * rz) / m) 1) in *.
    pose proof (height_bound d (sin (Ratan2 ry (sqrt (rx * rx + rz * rz)))) r
                  Hd0 (SIN_bound _)) as Hbound.
    eexists out, d, _, _, _.
    split; [assumption|]. split; [assumption|]. split; [exact Hradar|].
    split; [assumption|].
    intros Hr0. rewrite (Rabs_right r) in Hbound by lra.
    split; [assumption|]. nra.
  - destruct (overhead_projection overhead no_options 5000 1
                overhead_tracked no_options_origin eq_refl ltac:(lra) eq_refl)
      as (_ & _ & _ & _ & out & Hout & _ & Hradar).
    exists out, 0, (1 * 0.5), 1.
    split; [assumption|]. split; [assumption|]. split; [reflexivity|].
    rewrite <- sqrt_1 at 1. apply sqrt_lt_1_alt. lra.
Qed.

Lemma radarY_bounded_by_half_radius_witness :
  exists (out : gmap string value) (d radarX radarY radarZ : R),
    EliteRadar3D.transformToRadarSpace hostile_1 no_options = Normal out
    /\ out !! "normalizedDistance" = Some (VNumber (Fin d))
    /\ out !! "radarPosition" = Some (VArray [Fin radarX; Fin radarY; Fin radarZ])
    /\ Rabs radarY <= 0.5 * d * Rabs 1
    /\ (0 <= 1 -> Rabs radarY <= 0.5 * d * 1 /\ Rabs radarY <= 0.5 * 1).
Proof.
  apply (proj1 radarY_bounded_by_half_radius hostile_1 no_options 2000 800 1500 5000 1).
  - unfold tracked, hostile_1. lookup_out. reflexivity.
  - reflexivity.
  - reflexivity.
  - lra.
  - reflexivity.
Defined.

(** ** The copy in the demo *)

(** *** Zeros and their signs *)

Lemma signed_sign_zero (s : bool) : Signed.sign (Signed.zero s) = s.
Proof.
  destruct s; [reflexivity|]. simpl. destruct (Rlt_dec 0 0); [lra|reflexivity].
Qed.

Lemma signed_sign_pos (r : R) : 0 <= r -> Signed.sign (Signed.Fin r) = false.
Proof. intros H. simpl. destruct (Rlt_dec r 0); [lra|reflexivity]. Qed.

Lemma signed_sign_neg (r : R) : r < 0 -> Signed.sign (Signed.Fin r) = true.
Proof. intros H. simpl. destruct (Rlt_dec r 0); [reflexivity|lra]. Qed.

Lemma signed_finite_zero (s : bool) : Signed.finite (Signed.zero s) = true.
Proof. destruct s; reflexivity. Qed.

Lemma signed_real_zero (s : bool) : Signed.real (Signed.zero s) = 0.
Proof. destruct s; reflexivity. Qed.

Lemma signed_is_zero_zero (s : bool) : Signed.is_zero (Signed.zero s) = true.
Proof.
  destruct s; [reflexivity|]. simpl. destruct (Req_dec_T 0 0); [reflexivity|contradiction].
Qed.

Lemma signed_finite_result_zero (r : R) (s : bool) :
  r = 0 -> Signed.finite_result r s = Signed.zero s.
Proof.
  intros ->. unfold Signed.finite_result.
  destruct (Req_dec_T 0 0); [reflexivity|contradiction].
Qed.

Lemma signed_finite_result_nonzero (r : R) (s : bool) :
  r <> 0 -> Signed.finite_result r s = Signed.Fin r.
Proof.
  intros H. unfold Signed.finite_result.
  destruct (Req_dec_T r 0); [contradiction|reflexivity].
Qed.

(** A result that is not a negative zero. *)
Lemma signed_finite_result_positive (r : R) :
  Signed.finite_result r false = Signed.Fin r.
Proof.
  unfold Signed.finite_result. destruct (Req_dec_T r 0) as [->|]; reflexivity.
Qed.

Lemma signed_add_eq (a b : Signed.number) :
  Signed.finite a = true -> Signed.finite b = true ->
  Signed.add a b
  = Signed.finite_result (Signed.real a + Signed.real b) (Signed.sign a && Signed.sign b).
Proof. destruct a, b; intros Ha Hb; try discriminate; reflexivity. Qed.

Lemma signed_mul_eq (a b : Signed.number) :
  Signed.finite a = true -> Signed.finite b = true ->
  Signed.mul a b
  = Signed.finite_result (Signed.real a * Signed.real b)
      (xorb (Signed.sign a) (Signed.sign b)).
Proof. destruct a, b; intros Ha Hb; try discriminate; reflexivity. Qed.

Lemma signed_neg_zero (s : bool) : Signed.neg (Signed.zero s) = Signed.zero (negb s).
Proof.
  destruct s; [reflexivity|]. simpl. destruct (Req_dec_T 0 0); [reflexivity|contradiction].
Qed.

Lemma signed_add_Fin_zero (v : R) (s : bool) :
  Signed.add (Signed.Fin v) (Signed.zero s) = Signed.Fin v.
Proof.
  rewrite signed_add_eq by (try apply signed_finite_zero; reflexivity).
  rewrite signed_real_zero, signed_sign_zero. cbn [Signed.real].
  destruct (Req_dec_T v 0) as [->|Hv].
  - rewrite signed_finite_result_zero by lra.
    rewrite signed_sign_pos by lra. reflexivity.
  - rewrite signed_finite_result_nonzero by lra. f_equal. lra.
Qed.

Lemma signed_sub_Fin_zero (v : R) (s : bool) :
  Signed.sub (Signed.Fin v) (Signed.zero s) = Signed.Fin v.
Proof. unfold Signed.sub. rewrite signed_neg_zero. apply signed_add_Fin_zero. Qed.

Lemma signed_add_zero_zero (s s' : bool) :
  Signed.add (Signed.zero s) (Signed.zero s') = Signed.zero (s && s').
Proof.
  rewrite signed_add_eq by apply signed_finite_zero.
  rewrite !signed_real_zero, !signed_sign_zero.
  apply signed_finite_result_zero. lra.
Qed.

Lemma signed_sub_zero_zero (s s' : bool) :
  Signed.sub (Signed.zero s) (Signed.zero s') = Signed.zero (s && negb s').
Proof. unfold Signed.sub. rewrite signed_neg_zero. apply signed_add_zero_zero. Qed.

Lemma signed_mul_zero_l (s : bool) (a : Signed.number) :
  Signed.finite a = true ->
  Signed.mul (Signed.zero s) a = Signed.zero (xorb s (Signed.sign a)).
Proof.
  intros Ha. rewrite signed_mul_eq by (try apply signed_finite_zero; assumption).
  rewrite signed_real_zero, signed_sign_zero.
  apply signed_finite_result_zero. ring.
Qed.

Lemma signed_mul_zero_r (a : Signed.number) (s : bool) :
  Signed.finite a = true ->
  Signed.mul a (Signed.zero s) = Signed.zero (xorb (Signed.sign a) s).
Proof.
  intros Ha. rewrite signed_mul_eq by (try apply signed_finite_zero; assumption).
  rewrite signed_real_zero, signed_sign_zero.
  apply signed_finite_result_zero. ring.
Qed.

Lemma signed_mul_pos_zero (v : R) (s : bool) :
  0 <= v -> Signed.mul (Signed.Fin v) (Signed.zero s) = Signed.zero s.
Proof.
  intros Hv. rewrite signed_mul_zero_r by reflexivity.
  rewrite signed_sign_pos by assumption. reflexivity.
Qed.

Lemma signed_mul_one_zero (s : bool) :
  Signed.mul (Signed.Fin 1) (Signed.zero s) = Signed.zero s.
Proof. apply signed_mul_pos_zero. lra. Qed.

Lemma signed_mul_two_zero (s : bool) :
  Signed.mul (Signed.Fin 2) (Signed.zero s) = Signed.zero s.
Proof. apply signed_mul_pos_zero. lra. Qed.

Lemma signed_add_zero_Fin (s : bool) (v : R) :
  Signed.add (Signed.zero s) (Signed.Fin v) = Signed.Fin v.
Proof.
  rewrite signed_add_eq by (try apply signed_finite_zero; reflexivity).
  rewrite signed_real_zero, signed_sign_zero. cbn [Signed.real].
  destruct (Req_dec_T v 0) as [->|Hv].
  - rewrite signed_finite_result_zero by lra.
    rewrite signed_sign_pos by lra. rewrite andb_false_r. reflexivity.
  - rewrite signed_finite_result_nonzero by lra. f_equal. lra.
Qed.

Lemma signed_mul_Fin (x y : R) :
  x * y <> 0 -> Signed.mul (Signed.Fin x) (Signed.Fin y) = Signed.Fin (x * y).
Proof.
  intros H. rewrite signed_mul_eq by reflexivity.
  apply signed_finite_result_nonzero. exact H.
Qed.

Lemma signed_div_Fin (x y : R) :
  x <> 0 -> y <> 0 -> Signed.div (Signed.Fin x) (Signed.Fin y) = Signed.Fin (x / y).
Proof.
  intros Hx Hy. unfold Signed.div. cbn [Signed.finite andb Signed.is_zero Signed.real].
  destruct (Req_dec_T y 0); [contradiction|].
  apply signed_finite_result_nonzero.
  unfold Rdiv. apply Rmult_integral_contrapositive_currified; [assumption|].
  apply Rinv_neq_0_compat. assumption.
Qed.

Lemma signed_sqrt_Fin (x : R) :
  0 <= x -> Signed.Math.sqrt (Signed.Fin x) = Signed.Fin (sqrt x).
Proof.
  intros Hx. unfold Signed.Math.sqrt. destruct (Rlt_dec x 0); [lra|reflexivity].
Qed.

Lemma signed_min_one : Signed.Math.min (Signed.Fin 1) (Signed.Fin 1) = Signed.Fin 1.
Proof.
  unfold Signed.Math.min, Signed.gt. cbn [Signed.real Signed.sign].
  destruct (Rlt_dec 1 1); [lra|]. destruct (Rlt_dec 1 0); reflexivity.
Qed.

(** The conjugate of the identity quaternion: [0 * -1] is the negative
    zero. *)
Lemma signed_conjugate_identity :
  Signed.THREE.invert
    (Signed.THREE.Quaternion_new
       [Signed.Fin 0; Signed.Fin 0; Signed.Fin 0; Signed.Fin 1])
  = {| Signed.THREE._x := Signed.NegZero; Signed.THREE._y := Signed.NegZero;
       Signed.THREE._z := Signed.NegZero; Signed.THREE._w := Signed.Fin 1 |}.
Proof.
  unfold Signed.THREE.invert, Signed.THREE.conjugate, Signed.THREE.Quaternion_new.
  cbn [lookup list_lookup from_option Datatypes.id default
       Signed.THREE._x Signed.THREE._y Signed.THREE._z Signed.THREE._w].
  assert (H : Signed.mul (Signed.Fin 0) (Signed.Fin (-1)) = Signed.NegZero).
  { change (Signed.Fin 0) with (Signed.zero false).
    rewrite signed_mul_zero_l by reflexivity.
    rewrite signed_sign_neg by lra. reflexivity. }
  rewrite H. reflexivity.
Qed.

Lemma signed_mul_negzero_l (a : Signed.number) :
  Signed.finite a = true ->
  Signed.mul (Signed.zero true) a = Signed.zero (negb (Signed.sign a)).
Proof.
  intros Ha. rewrite signed_mul_zero_l by assumption.
  destruct (Signed.sign a); reflexivity.
Qed.

Lemma signed_sub_origin (a : Signed.number) :
  Signed.finite a = true -> Signed.sub a (Signed.Fin 0) = a.
Proof.
  destruct a as [r| | | |]; intros Ha; try discriminate.
  - apply (signed_sub_Fin_zero r false).
  - apply (signed_sub_zero_zero true false).
Qed.

(** *** The rotation by the identity *)

(** One component of the rotated vector: the component plus two zeros
    minus a third.  Unless the three terms all keep the sign of a negative
    zero, the result is the component with a positive zero. *)
Lemma signed_rotated_component (a : Signed.number) (s1 s2 s3 : bool) :
  Signed.finite a = true ->
  Signed.sign a && s1 && s2 && negb s3 = false ->
  Signed.sub (Signed.add (Signed.add a (Signed.zero s1)) (Signed.zero s2))
    (Signed.zero s3)
  = Signed.Fin (Signed.real a).
Proof.
  destruct a as [r| | | |]; intros Ha Hs; try discriminate.
  - rewrite !signed_add_Fin_zero, signed_sub_Fin_zero. reflexivity.
  - change Signed.NegZero with (Signed.zero true) in *.
    rewrite signed_sign_zero in Hs.
    rewrite !signed_add_zero_zero, signed_sub_zero_zero, Hs.
    rewrite signed_real_zero. reflexivity.
Qed.

(** [applyQuaternion] with the inverse of the identity quaternion returns
    the vector with every negative zero replaced by the positive zero. *)
Lemma signed_identity_rotation (a b c : Signed.number) :
  Signed.finite a = true -> Signed.finite b = true -> Signed.finite c = true ->
  Signed.THREE.applyQuaternion
    {| Signed.THREE.x := a; Signed.THREE.y := b; Signed.THREE.z := c |}
    (Signed.THREE.invert
       (Signed.THREE.Quaternion_new
          [Signed.Fin 0; Signed.Fin 0; Signed.Fin 0; Signed.Fin 1]))
  = {| Signed.THREE.x := Signed.Fin (Signed.real a);
       Signed.THREE.y := Signed.Fin (Signed.real b);
       Signed.THREE.z := Signed.Fin (Signed.real c) |}.
Proof.
  intros Ha Hb Hc. rewrite signed_conjugate_identity.
  unfold Signed.THREE.applyQuaternion.
  cbn [Signed.THREE.x Signed.THREE.y Signed.THREE.z
       Signed.THREE._x Signed.THREE._y Signed.THREE._z Signed.THREE._w].
  change Signed.NegZero with (Signed.zero true).
  rewrite !(signed_mul_negzero_l a), !(signed_mul_negzero_l b),
    !(signed_mul_negzero_l c) by assumption.
  rewrite !signed_sub_zero_zero, !signed_mul_two_zero, !signed_mul_one_zero.
  rewrite !signed_mul_negzero_l by apply signed_finite_zero.
  rewrite !signed_sign_zero.
  rewrite !signed_rotated_component
    by (try assumption; destruct (Signed.sign a), (Signed.sign b), (Signed.sign c);
        reflexivity).
  reflexivity.
Qed.

(** *** The two transforms at the origin *)

Lemma signed_relative_origin (contact : gmap string Signed.value)
  (options : Signed.Options) (a b c : Signed.number) :
  contact !! "position" = Some (Signed.VArray [a; b; c]) ->
  Signed.finite a = true -> Signed.finite b = true -> Signed.finite c = true ->
  Signed.playerPosition options = Some [Signed.Fin 0; Signed.Fin 0; Signed.Fin 0] ->
  Signed.playerQuaternion options
  = Some [Signed.Fin 0; Signed.Fin 0; Signed.Fin 0; Signed.Fin 1] ->
  Signed.EliteRadar3D.relative contact options
  = Normal
      (if Signed.EliteRadar3D.shipRelativeOf options
       then (Signed.Fin (Signed.real a), Signed.Fin (Signed.real b),
             Signed.Fin (Signed.real c))
       else (a, b, c)).
Proof.
  intros Hpos Ha Hb Hc Hpp Hpq.
  unfold Signed.EliteRadar3D.relative, Signed.EliteRadar3D.playerPositionOf,
    Signed.EliteRadar3D.playerQuaternionOf.
  rewrite Hpos, Hpp, Hpq.
  cbn [Signed.index_number lookup list_lookup from_option Datatypes.id default].
  rewrite !signed_sub_origin by assumption.
  destruct (Signed.EliteRadar3D.shipRelativeOf options); [|reflexivity].
  rewrite signed_identity_rotation by assumption. reflexivity.
Qed.

Lemma signed_transform_of_relative (contact : gmap string Signed.value)
  (options : Signed.Options) (relX relY relZ : Signed.number) :
  Signed.EliteRadar3D.relative contact options = Normal (relX, relY, relZ) ->
  Signed.EliteRadar3D.transformToRadarSpace contact options
  = Normal
      (<["isAbove" := Signed.VBoolean (Signed.gt relY (Signed.Fin 0))]>
         (<["normalizedDistance" :=
              Signed.VNumber
                (Signed.EliteRadar3D.normalizedDist relX relY relZ
                   (Signed.EliteRadar3D.maxRangeOf options))]>
            (<["basePosition" :=
                 Signed.VArray
                   [Signed.EliteRadar3D.radarX relX relY relZ
                      (Signed.EliteRadar3D.maxRangeOf options)
                      (Signed.EliteRadar3D.radarRadiusOf options);
                    Signed.Fin 0;
                    Signed.EliteRadar3D.radarZ relX relY relZ
                      (Signed.EliteRadar3D.maxRangeOf options)
                      (Signed.EliteRadar3D.radarRadiusOf options)]]>
               (<["radarPosition" :=
                    Signed.VArray
                      [Signed.EliteRadar3D.radarX relX relY relZ
                         (Signed.EliteRadar3D.maxRangeOf options)
                         (Signed.EliteRadar3D.radarRadiusOf options);
                       Signed.EliteRadar3D.radarY relX relY relZ
                         (Signed.EliteRadar3D.maxRangeOf options)
                         (Signed.EliteRadar3D.radarRadiusOf options);
                       Signed.EliteRadar3D.radarZ relX relY relZ
                         (Signed.EliteRadar3D.maxRangeOf options)
                         (Signed.EliteRadar3D.radarRadiusOf options)]]>
                  contact)))).
Proof.
  intros Hrel. unfold Signed.EliteRadar3D.transformToRadarSpace.
  rewrite Hrel. reflexivity.
Qed.

Lemma signed_demo_of_position (contact : gmap string Signed.value)
  (options : Signed.Options) (relX relY relZ : Signed.number) :
  contact !! "position" = Some (Signed.VArray [relX; relY; relZ]) ->
  Signed.EliteRadarDemo.transformToRadarSpace contact options
  = Normal
      (<["normalizedDistance" :=
           Signed.VNumber
             (Signed.EliteRadarDemo.normalizedDist relX relY relZ
                (Signed.EliteRadarDemo.maxRangeOf options))]>
         (<["basePosition" :=
              Signed.VArray
                [Signed.EliteRadarDemo.radarX relX relY relZ
                   (Signed.EliteRadarDemo.maxRangeOf options)
                   (Signed.EliteRadarDemo.radarRadiusOf options);
                 Signed.Fin 0;
                 Signed.EliteRadarDemo.radarZ relX relY relZ
                   (Signed.EliteRadarDemo.maxRangeOf options)
                   (Signed.EliteRadarDemo.radarRadiusOf options)]]>
            (<["radarPosition" :=
                 Signed.VArray
                   [Signed.EliteRadarDemo.radarX relX relY relZ
                      (Signed.EliteRadarDemo.maxRangeOf options)
                      (Signed.EliteRadarDemo.radarRadiusOf options);
                    Signed.EliteRadarDemo.radarY relX relY relZ
                      (Signed.EliteRadarDemo.maxRangeOf options)
                      (Signed.EliteRadarDemo.radarRadiusOf options);
                    Signed.EliteRadarDemo.radarZ relX relY relZ
                      (Signed.EliteRadarDemo.maxRangeOf options)
                      (Signed.EliteRadarDemo.radarRadiusOf options)]]>
               contact))).
Proof.
  intros Hpos. unfold Signed.EliteRadarDemo.transformToRadarSpace.
  rewrite Hpos. reflexivity.
Qed.

(** *** Straight above the observer, with either zero behind *)

Lemma signed_overhead_distance (s : bool) :
  Signed.EliteRadar3D.distance (Signed.Fin 0) (Signed.Fin 5000) (Signed.zero s)
  = Signed.Fin 5000.
Proof.
  unfold Signed.EliteRadar3D.distance.
  change (Signed.Fin 0) with (Signed.zero false).
  rewrite !signed_mul_zero_l by apply signed_finite_zero.
  rewrite !signed_sign_zero, xorb_nilpotent. cbn [xorb].
  rewrite signed_mul_Fin by lra.
  rewrite signed_add_zero_Fin, signed_add_Fin_zero.
  rewrite signed_sqrt_Fin by lra.
  rewrite sqrt_of_square by lra. reflexivity.
Qed.

Lemma signed_overhead_normalizedDist (s : bool) :
  Signed.EliteRadar3D.normalizedDist (Signed.Fin 0) (Signed.Fin 5000) (Signed.zero s)
    (Signed.Fin 5000)
  = Signed.Fin 1.
Proof.
  unfold Signed.EliteRadar3D.normalizedDist. rewrite signed_overhead_distance.
  rewrite signed_div_Fin by lra.
  replace (5000 / 5000) with 1 by lra. apply signed_min_one.
Qed.

Lemma signed_overhead_horizontalDist (s : bool) :
  Signed.EliteRadar3D.horizontalDist (Signed.Fin 0) (Signed.zero s) = Signed.Fin 0.
Proof.
  unfold Signed.EliteRadar3D.horizontalDist.
  change (Signed.Fin 0) with (Signed.zero false).
  rewrite !signed_mul_zero_l by apply signed_finite_zero.
  rewrite !signed_sign_zero, xorb_nilpotent. cbn [xorb].
  rewrite signed_add_zero_zero. cbn [andb Signed.zero].
  rewrite signed_sqrt_Fin by lra. rewrite sqrt_0. reflexivity.
Qed.

(** The azimuth [Math.atan2(0, z)] of a zero [z]: [0] for the positive
    zero, [PI] for the negative one. *)
Lemma signed_overhead_theta (s : bool) :
  Signed.EliteRadar3D.theta (Signed.Fin 0) (Signed.zero s)
  = if s then Signed.Fin PI else Signed.Fin 0.
Proof.
  unfold Signed.EliteRadar3D.theta, Signed.Math.atan2.
  assert (Hz : Signed.is_zero (Signed.Fin 0) = true)
    by apply (signed_is_zero_zero false).
  assert (Hs : Signed.sign (Signed.Fin 0) = false) by (apply signed_sign_pos; lra).
  destruct s; cbn [Signed.zero]; rewrite Hz, ?Hs; reflexivity.
Qed.

Lemma signed_overhead_phi (s : bool) :
  Signed.EliteRadar3D.phi (Signed.Fin 0) (Signed.Fin 5000) (Signed.zero s)
  = Signed.Fin (PI / 2).
Proof.
  unfold Signed.EliteRadar3D.phi.
  rewrite signed_overhead_horizontalDist.
  unfold Signed.Math.atan2. cbn [Signed.is_zero Signed.real].
  destruct (Req_dec_T 5000 0); [lra|].
  rewrite Ratan2_pos_0 by lra. reflexivity.
Qed.

Lemma signed_sin_zero : Signed.Math.sin (Signed.Fin 0) = Signed.Fin 0.
Proof.
  unfold Signed.Math.sin. rewrite signed_sign_pos by lra.
  rewrite sin_0. apply signed_finite_result_positive.
Qed.

Lemma signed_sin_PI : Signed.Math.sin (Signed.Fin PI) = Signed.Fin 0.
Proof.
  unfold Signed.Math.sin. rewrite signed_sign_pos by (pose proof PI_RGT_0; lra).
  rewrite sin_PI. apply signed_finite_result_positive.
Qed.

Lemma signed_sin_PI2 : Signed.Math.sin (Signed.Fin (PI / 2)) = Signed.Fin 1.
Proof.
  unfold Signed.Math.sin. rewrite sin_PI2. apply signed_finite_result_nonzero. lra.
Qed.

Lemma signed_cos_zero : Signed.Math.cos (Signed.Fin 0) = Signed.Fin 1.
Proof. unfold Signed.Math.cos. rewrite cos_0. apply signed_finite_result_positive. Qed.

Lemma signed_cos_PI : Signed.Math.cos (Signed.Fin PI) = Signed.Fin (- 1).
Proof. unfold Signed.Math.cos. rewrite cos_PI. apply signed_finite_result_positive. Qed.

Lemma signed_overhead_radarX (s : bool) :
  Signed.EliteRadar3D.radarX (Signed.Fin 0) (Signed.Fin 5000) (Signed.zero s)
    (Signed.Fin 5000) (Signed.Fin 1)
  = Signed.Fin 0.
Proof.
  unfold Signed.EliteRadar3D.radarX, Signed.EliteRadar3D.radarHorizontalDist.
  rewrite signed_overhead_normalizedDist, signed_overhead_theta.
  rewrite signed_mul_Fin by lra.
  destruct s; rewrite ?signed_sin_PI, ?signed_sin_zero;
    apply (signed_mul_pos_zero (1 * 1) false); lra.
Qed.

Lemma signed_overhead_radarZ (s : bool) :
  Signed.EliteRadar3D.radarZ (Signed.Fin 0) (Signed.Fin 5000) (Signed.zero s)
    (Signed.Fin 5000) (Signed.Fin 1)
  = if s then Signed.Fin (- 1) else Signed.Fin 1.
Proof.
  unfold Signed.EliteRadar3D.radarZ, Signed.EliteRadar3D.radarHorizontalDist.
  rewrite signed_overhead_normalizedDist, signed_overhead_theta.
  rewrite signed_mul_Fin by lra.
  destruct s; rewrite ?signed_cos_PI, ?signed_cos_zero;
    rewrite signed_mul_Fin by lra; f_equal; lra.
Qed.

Lemma signed_overhead_radarY (s : bool) :
  Signed.EliteRadar3D.radarY (Signed.Fin 0) (Signed.Fin 5000) (Signed.zero s)
    (Signed.Fin 5000) (Signed.Fin 1)
  = Signed.Fin 0.5.
Proof.
  unfold Signed.EliteRadar3D.radarY.
  rewrite signed_overhead_normalizedDist.
  rewrite signed_overhead_phi, signed_sin_PI2.
  rewrite !signed_mul_Fin by lra. f_equal. lra.
Qed.

(** The bodies of the two copies are the same expressions. *)
Lemma signed_demo_locals (relX relY relZ maxRange radarRadius : Signed.number) :
  Signed.EliteRadarDemo.normalizedDist relX relY relZ maxRange
  = Signed.EliteRadar3D.normalizedDist relX relY relZ maxRange
  /\ Signed.EliteRadarDemo.radarX relX relY relZ maxRange radarRadius
     = Signed.EliteRadar3D.radarX relX relY relZ maxRange radarRadius
  /\ Signed.EliteRadarDemo.radarY relX relY relZ maxRange radarRadius
     = Signed.EliteRadar3D.radarY relX relY relZ maxRange radarRadius
  /\ Signed.EliteRadarDemo.radarZ relX relY relZ maxRange radarRadius
     = Signed.EliteRadar3D.radarZ relX relY relZ maxRange radarRadius.
Proof.
  unfold Signed.EliteRadarDemo.radarX, Signed.EliteRadarDemo.radarY,
    Signed.EliteRadarDemo.radarZ, Signed.EliteRadarDemo.radarHorizontalDist,
    Signed.EliteRadarDemo.phi, Signed.EliteRadarDemo.theta,
    Signed.EliteRadarDemo.horizontalDist, Signed.EliteRadarDemo.normalizedDist,
    Signed.EliteRadarDemo.distance.
  unfold Signed.EliteRadar3D.radarX, Signed.EliteRadar3D.radarY,
    Signed.EliteRadar3D.radarZ, Signed.EliteRadar3D.radarHorizontalDist,
    Signed.EliteRadar3D.phi, Signed.EliteRadar3D.theta,
    Signed.EliteRadar3D.horizontalDist, Signed.EliteRadar3D.normalizedDist,
    Signed.EliteRadar3D.distance.
  repeat split.
Qed.

Lemma signed_demo_options (options : Signed.Options) :
  Signed.EliteRadarDemo.maxRangeOf options = Signed.EliteRadar3D.maxRangeOf options
  /\ Signed.EliteRadarDemo.radarRadiusOf options
     = Signed.EliteRadar3D.radarRadiusOf options.
Proof.
  unfold Signed.EliteRadarDemo.maxRangeOf, Signed.EliteRadarDemo.radarRadiusOf,
    Signed.EliteRadar3D.maxRangeOf, Signed.EliteRadar3D.radarRadiusOf.
  split; reflexivity.
Qed.

(** The object the demo returns, in the terms of the main component. *)
Lemma signed_demo_of_position_3D (contact : gmap string Signed.value)
  (options : Signed.Options) (relX relY relZ : Signed.number) :
  contact !! "position" = Some (Signed.VArray [relX; relY; relZ]) ->
  Signed.EliteRadarDemo.transformToRadarSpace contact options
  = Normal
      (<["normalizedDistance" :=
           Signed.VNumber
             (Signed.EliteRadar3D.normalizedDist relX relY relZ
                (Signed.EliteRadar3D.maxRangeOf options))]>
         (<["basePosition" :=
              Signed.VArray
                [Signed.EliteRadar3D.radarX relX relY relZ
                   (Signed.EliteRadar3D.maxRangeOf options)
                   (Signed.EliteRadar3D.radarRadiusOf options);
                 Signed.Fin 0;
                 Signed.EliteRadar3D.radarZ relX relY relZ
                   (Signed.EliteRadar3D.maxRangeOf options)
                   (Signed.EliteRadar3D.radarRadiusOf options)]]>
            (<["radarPosition" :=
                 Signed.VArray
                   [Signed.EliteRadar3D.radarX relX relY relZ
                      (Signed.EliteRadar3D.maxRangeOf options)
                      (Signed.EliteRadar3D.radarRadiusOf options);
                    Signed.EliteRadar3D.radarY relX relY relZ
                      (Signed.EliteRadar3D.maxRangeOf options)
                      (Signed.EliteRadar3D.radarRadiusOf options);
                    Signed.EliteRadar3D.radarZ relX relY relZ
                      (Signed.EliteRadar3D.maxRangeOf options)
                      (Signed.EliteRadar3D.radarRadiusOf options)]]>
               contact))).
Proof.
  intros Hpos. rewrite (signed_demo_of_position _ _ _ _ _ Hpos).
  destruct (signed_demo_options options) as [-> ->].
  destruct (signed_demo_locals relX relY relZ (Signed.EliteRadar3D.maxRangeOf options)
              (Signed.EliteRadar3D.radarRadiusOf options)) as (-> & -> & -> & ->).
  reflexivity.
Qed.

Lemma signed_Some_VArray_z (x y z x' y' z' : Signed.number) :
  Some (Signed.VArray [x; y; z]) = Some (Signed.VArray [x'; y'; z']) -> z = z'.
Proof. intros H. injection H as _ _ H. exact H. Qed.

Lemma signed_one_not_minus_one : Signed.Fin 1 <> Signed.Fin (- 1).
Proof. intros H. injection H as H. lra. Qed.

(** C8 as the specification words it fails on a contact straight above
    the observer whose third coordinate is the negative zero,
    [position: [0, 5000, -0]], under the default [maxRange] and
    [radarRadius]: the rotation by the identity quaternion of the main
    component returns the positive zero, so its azimuth
    [Math.atan2(0, 0)] is [0] and the marker is at [[0, 0.5, 1]]; the demo
    keeps the negative zero, its azimuth [Math.atan2(0, -0)] is [PI] and
    the marker is at [[0, 0.5, -1]].  [normalizedDistance] is [1] in
    both. *)
Lemma demo_copy_differs_at_negative_zero :
  exists out3D outDemo : gmap string Signed.value,
    Signed.EliteRadar3D.transformToRadarSpace Signed.overhead_negative_zero
      (Signed.at_origin None None None) = Normal out3D
    /\ Signed.EliteRadarDemo.transformToRadarSpace Signed.overhead_negative_zero
         (Signed.at_origin None None None) = Normal outDemo
    /\ out3D !! "radarPosition"
       = Some (Signed.VArray [Signed.Fin 0; Signed.Fin 0.5; Signed.Fin 1])
    /\ outDemo !! "radarPosition"
       = Some (Signed.VArray [Signed.Fin 0; Signed.Fin 0.5; Signed.Fin (- 1)])
    /\ out3D !! "basePosition"
       = Some (Signed.VArray [Signed.Fin 0; Signed.Fin 0; Signed.Fin 1])
    /\ outDemo !! "basePosition"
       = Some (Signed.VArray [Signed.Fin 0; Signed.Fin 0; Signed.Fin (- 1)])
    /\ out3D !! "normalizedDistance" = Some (Signed.VNumber (Signed.Fin 1))
    /\ outDemo !! "normalizedDistance" = Some (Signed.VNumber (Signed.Fin 1))
    /\ out3D !! "radarPosition" <> outDemo !! "radarPosition"
    /\ out3D !! "basePosition" <> outDemo !! "basePosition".
Proof.
  assert (Hpos : Signed.overhead_negative_zero !! "position"
                 = Some (Signed.VArray [Signed.Fin 0; Signed.Fin 5000; Signed.NegZero])).
  { unfold Signed.overhead_negative_zero. lookup_out. reflexivity. }
  pose proof (signed_relative_origin _ (Signed.at_origin None None None) _ _ _
                Hpos eq_refl eq_refl eq_refl eq_refl eq_refl) as Hrel.
  cbn [Signed.EliteRadar3D.shipRelativeOf Signed.at_origin Signed.shipRelative
       from_option Datatypes.id default Signed.real] in Hrel.
  pose proof (signed_overhead_radarX false) as HX.
  pose proof (signed_overhead_radarY false) as HY.
  pose proof (signed_overhead_radarZ false) as HZ.
  pose proof (signed_overhead_normalizedDist false) as HN.
  pose proof (signed_overhead_radarX true) as HX'.
  pose proof (signed_overhead_radarY true) as HY'.
  pose proof (signed_overhead_radarZ true) as HZ'.
  pose proof (signed_overhead_normalizedDist true) as HN'.
  cbn [Signed.zero] in HX, HY, HZ, HN, HX', HY', HZ', HN'.
  eexists _, _.
  split; [apply signed_transform_of_relative, Hrel|].
  split; [apply signed_demo_of_position_3D, Hpos|].
  unfold Signed.EliteRadar3D.maxRangeOf, Signed.EliteRadar3D.radarRadiusOf.
  cbn [Signed.at_origin Signed.maxRange Signed.radarRadius
       from_option Datatypes.id default].
  rewrite HX, HY, HZ, HN, HX', HY', HZ', HN'.
  lookup_out.
  repeat (split; [reflexivity|]).
  split; intros H; apply signed_Some_VArray_z in H;
    exact (signed_one_not_minus_one H).
Qed.

(** C8.  For every contact whose position is three real numbers, none of
    them the negative zero, and every [maxRange] and [radarRadius],
    present or defaulted, the transform of the main component called with
    [playerPosition = [0,0,0]] and the identity [playerQuaternion] returns
    the same [radarPosition], [basePosition] and [normalizedDistance] as
    the transform of the demo on the same contact and options; the two
    returned objects differ in [isAbove] only. *)
Theorem demo_copy_agrees_without_negative_zero :
  forall (contact : gmap string Signed.value) (options : Signed.Options)
         (x y z : R),
    Signed.tracked contact x y z ->
    Signed.playerPosition options
    = Some [Signed.Fin 0; Signed.Fin 0; Signed.Fin 0] ->
    Signed.playerQuaternion options
    = Some [Signed.Fin 0; Signed.Fin 0; Signed.Fin 0; Signed.Fin 1] ->
    exists out3D outDemo : gmap string Signed.value,
      Signed.EliteRadar3D.transformToRadarSpace contact options = Normal out3D
      /\ Signed.EliteRadarDemo.transformToRadarSpace contact options = Normal outDemo
      /\ is_Some (outDemo !! "radarPosition")
      /\ is_Some (outDemo !! "basePosition")
      /\ is_Some (outDemo !! "normalizedDistance")
      /\ out3D !! "radarPosition" = outDemo !! "radarPosition"
      /\ out3D !! "basePosition" = outDemo !! "basePosition"
      /\ out3D !! "normalizedDistance" = outDemo !! "normalizedDistance"
      /\ out3D
         = <["isAbove" := Signed.VBoolean (Signed.gt (Signed.Fin y) (Signed.Fin 0))]>
             outDemo.
Proof.
  intros contact options x y z Hpos Hpp Hpq.
  pose proof (signed_relative_origin contact options _ _ _
                Hpos eq_refl eq_refl eq_refl Hpp Hpq) as Hrel.
  cbn [Signed.real] in Hrel.
  assert (Hrel' : Signed.EliteRadar3D.relative contact options
                  = Normal (Signed.Fin x, Signed.Fin y, Signed.Fin z)).
  { rewrite Hrel. destruct (Signed.EliteRadar3D.shipRelativeOf options); reflexivity. }
  eexists _, _.
  split; [apply signed_transform_of_relative, Hrel'|].
  split; [apply signed_demo_of_position_3D, Hpos|].
  repeat split; lookup_out; try reflexivity; eexists; reflexivity.
Qed.

Lemma demo_copy_agrees_without_negative_zero_witness :
  exists out3D outDemo : gmap string Signed.value,
    Signed.EliteRadar3D.transformToRadarSpace Signed.hostile_1
      (Signed.at_origin (Some (Signed.Fin 5000)) (Some (Signed.Fin 1)) (Some true))
    = Normal out3D
    /\ Signed.EliteRadarDemo.transformToRadarSpace Signed.hostile_1
         (Signed.at_origin (Some (Signed.Fin 5000)) (Some (Signed.Fin 1)) (Some true))
       = Normal outDemo
    /\ is_Some (outDemo !! "radarPosition")
    /\ is_Some (outDemo !! "basePosition")
    /\ is_Some (outDemo !! "normalizedDistance")
    /\ out3D !! "radarPosition" = outDemo !! "radarPosition"
    /\ out3D !! "basePosition" = outDemo !! "basePosition"
    /\ out3D !! "normalizedDistance" = outDemo !! "normalizedDistance"
    /\ out3D
       = <["isAbove" := Signed.VBoolean (Signed.gt (Signed.Fin 800) (Signed.Fin 0))]>
           outDemo.
Proof.
  apply (demo_copy_agrees_without_negative_zero Signed.hostile_1 _ 2000 800 1500).
  - unfold Signed.tracked, Signed.hostile_1. lookup_out. reflexivity.
  - reflexivity.
  - reflexivity.
Defined.

(** ** Invalid configurations *)

Lemma scale_inf_0 : scale_inf 0 = NaN.
Proof.
  unfold scale_inf. destruct (Rlt_dec 0 0); [lra|reflexivity].
Qed.

(** [0 / 0]: with [maxRange = 0] and the object at the observer the
    normalized distance is [NaN]. *)
Lemma normalizedDist_zero_range :
  EliteRadar3D.normalizedDist (Fin 0) (Fin 0) (Fin 0) (Fin 0) = NaN.
Proof.
  unfold EliteRadar3D.normalizedDist. rewrite distance_Fin.
  replace (0 * 0 + 0 * 0 + 0 * 0) with 0 by lra. rewrite sqrt_0.
  unfold div. destruct (Req_dec_T 0 0) as [_|H]; [|contradiction].
  rewrite scale_inf_0. reflexivity.
Qed.

Lemma colocated_tracked : tracked colocated 0 0 0.
Proof. unfold tracked, colocated. lookup_out. reflexivity. Qed.

Lemma zero_range_origin : at_origin_unrotated zero_range.
Proof. split; [left | right; left]; reflexivity. Qed.

(** C2 as the specification words it fails: with [maxRange = 0] and the
    object at the observer the transform throws nothing; it returns an
    object whose [radarPosition] is [[NaN, NaN, NaN]]. *)
Lemma zero_maxRange_returns_NaN :
  EliteRadar3D.maxRangeOf zero_range = Fin 0
  /\ exists out : gmap string value,
      EliteRadar3D.transformToRadarSpace colocated zero_range = Normal out
      /\ out !! "radarPosition" = Some (VArray [NaN; NaN; NaN])
      /\ out !! "normalizedDistance" = Some (VNumber NaN).
Proof.
  split; [reflexivity|].
  pose proof (relative_origin colocated zero_range 0 0 0
                colocated_tracked zero_range_origin) as Hrel.
  destruct (transform_fields colocated zero_range _ _ _ Hrel)
    as (out & Hout & Hradar & _ & Hnd & _).
  exists out. split; [assumption|].
  unfold EliteRadar3D.radarX, EliteRadar3D.radarY, EliteRadar3D.radarZ,
    EliteRadar3D.radarHorizontalDist in Hradar.
  change (EliteRadar3D.maxRangeOf zero_range) with (Fin 0) in Hradar, Hnd.
  rewrite normalizedDist_zero_range in Hradar, Hnd.
  split; assumption.
Qed.

(** C2, as the code has it.  The transform validates nothing: whatever
    the configuration ([maxRange <= 0] and [radarRadius <= 0] included) it
    returns an object as soon as [contact.position] is defined, and throws
    only when it is not.  The returned [radarPosition] is made of finite
    numbers when the tracked object and the observer are finite,
    [radarRadius] is finite and [maxRange] is finite and not zero. *)
Theorem transform_never_rejects_configuration :
  (forall (contact : gmap string value) (options : Options) (v : value),
      contact !! "position" = Some v ->
      exists out : gmap string value,
        EliteRadar3D.transformToRadarSpace contact options = Normal out)
  /\ (forall (contact : gmap string value) (options : Options) (x y z m r : R),
      tracked contact x y z ->
      finite_observer options = true ->
      EliteRadar3D.maxRangeOf options = Fin m ->
      m <> 0 ->
      EliteRadar3D.radarRadiusOf options = Fin r ->
      exists (out : gmap string value) (radarX radarY radarZ : R),
        EliteRadar3D.transformToRadarSpace contact options = Normal out
        /\ out !! "radarPosition"
           = Some (VArray [Fin radarX; Fin radarY; Fin radarZ])).
Proof.
  split.
  - intros contact options v Hpos.
    destruct (relative_defined contact options v Hpos) as (relX & relY & relZ & Hrel).
    eexists. apply transform_of_relative, Hrel.
  - intros contact options x y z m r Hpos Hobs Hm Hm0 Hr.
    destruct (relative_finite contact options x y z Hpos Hobs) as (rx & ry & rz & Hrel).
    destruct (projection_finite contact options rx ry rz m r Hrel Hm Hm0 Hr)
      as (out & Hout & Hradar & _).
    eexists out, _, _, _. split; [assumption|exact Hradar].
Qed.

Lemma transform_never_rejects_configuration_witness :
  (exists out : gmap string value,
      EliteRadar3D.transformToRadarSpace colocated zero_range = Normal out)
  /\ (exists (out : gmap string value) (radarX radarY radarZ : R),
      EliteRadar3D.transformToRadarSpace hostile_1 no_options = Normal out
      /\ out !! "radarPosition"
         = Some (VArray [Fin radarX; Fin radarY; Fin radarZ])).
Proof.
  split.
  - apply (proj1 transform_never_rejects_configuration colocated zero_range
             (VArray [Fin 0; Fin 0; Fin 0])).
    unfold colocated. lookup_out. reflexivity.
  - apply (proj2 transform_never_rejects_configuration
             hostile_1 no_options 2000 800 1500 5000 1).
    + unfold tracked, hostile_1. lookup_out. reflexivity.
    + reflexivity.
    + reflexivity.
    + lra.
    + reflexivity.
Defined.

(** ** The demo data

    The station at [[0, 0, -4000]] under the default options
    ([maxRange = 5000], [radarRadius = 1]) is drawn at [[0, 0, -0.8]], on
    the reference plane, and keeps its [selected] flag. *)
Example station_1_projection :
  exists out : gmap string value,
    EliteRadar3D.transformToRadarSpace station_1 no_options = Normal out
    /\ out !! "normalizedDistance" = Some (VNumber (Fin 0.8))
    /\ out !! "radarPosition" = Some (VArray [Fin 0; Fin 0; Fin (- 0.8)])
    /\ out !! "isAbove" = Some (VBoolean false)
    /\ out !! "selected" = Some (VBoolean true).
Proof.
  assert (Hpos : tracked station_1 0 0 (- 4000)).
  { unfold tracked, station_1. lookup_out. reflexivity. }
  pose proof (relative_origin station_1 no_options 0 0 (- 4000)
                Hpos no_options_origin) as Hrel.
  destruct (projection_finite station_1 no_options 0 0 (- 4000) 5000 1
              Hrel eq_refl ltac:(lra) eq_refl) as (out & Hout & Hradar & _ & Hnd).
  assert (Hh : sqrt (0 * 0 + - 4000 * - 4000) = 4000).
  { replace (0 * 0 + - 4000 * - 4000) with (4000 * 4000) by lra.
    apply sqrt_of_square. lra. }
  assert (Hd : Rmin (sqrt (0 * 0 + 0 * 0 + - 4000 * - 4000) / 5000) 1 = 0.8).
  { replace (0 * 0 + 0 * 0 + - 4000 * - 4000) with (4000 * 4000) by lra.
    rewrite sqrt_of_square, Rmin_left by lra. lra. }
  rewrite Hd in Hradar, Hnd.
  rewrite Hh, Ratan2_0_neg, Ratan2_0_pos, sin_0, sin_PI, cos_PI in Hradar by lra.
  exists out. split; [assumption|]. split; [assumption|].
  split; [rewrite Hradar; apply Some_VArray3; lra|].
  rewrite (transform_of_relative _ _ _ _ _ Hrel) in Hout. injection Hout as <-.
  split; lookup_out.
  - unfold gt. destruct (Rlt_dec 0 0); [lra|reflexivity].
  - reflexivity.
Qed.

(** * Further properties of the transform *)

(** ** Sine and cosine of [atan2] *)

Lemma sqrt_scaled (x y : R) :
  x <> 0 -> sqrt (x * x + y * y) = Rabs x * sqrt (1 + (y / x)²).
Proof.
  intros Hx. apply sqrt_lem_1.
  - nra.
  - apply Rmult_le_pos; [apply Rabs_pos | apply sqrt_pos].
  - assert (Hs : 0 <= 1 + (y / x)²) by (unfold Rsqr; nra).
    replace (Rabs x * sqrt (1 + (y / x)²) * (Rabs x * sqrt (1 + (y / x)²)))
      with (Rabs x * Rabs x * (sqrt (1 + (y / x)²) * sqrt (1 + (y / x)²))) by ring.
    rewrite sqrt_sqrt by assumption.
    replace (Rabs x * Rabs x) with (x * x)
      by (unfold Rabs; destruct (Rcase_abs x); ring).
    unfold Rsqr. field. assumption.
Qed.

Lemma sqrt_scaled_pos (x y : R) : x <> 0 -> 0 < sqrt (1 + (y / x)²).
Proof. intros Hx. apply sqrt_lt_R0. unfold Rsqr. nra. Qed.

Lemma sin_Ratan2 (y x : R) :
  x <> 0 \/ y <> 0 -> sin (Ratan2 y x) = y / sqrt (x * x + y * y).
Proof.
  intros Hxy. unfold Ratan2.
  destruct (Rlt_dec 0 x) as [Hpos|Hnpos].
  - rewrite sin_atan, sqrt_scaled, Rabs_right by lra.
    pose proof (sqrt_scaled_pos x y ltac:(lra)). field. lra.
  - destruct (Rlt_dec x 0) as [Hneg|Hnneg].
    + pose proof (sqrt_scaled_pos x y ltac:(lra)) as Hs.
      rewrite sqrt_scaled, Rabs_left by lra.
      destruct (Rle_dec 0 y).
      * rewrite neg_sin, sin_atan. field. lra.
      * unfold Rminus. rewrite sin_plus, sin_neg, cos_neg, sin_PI, cos_PI, sin_atan.
        field. lra.
    + assert (x = 0) by lra. subst x.
      replace (0 * 0 + y * y) with (Rsqr y) by (unfold Rsqr; ring).
      rewrite sqrt_Rsqr_abs.
      destruct (Rlt_dec 0 y).
      * rewrite sin_PI2, Rabs_right by lra. field. lra.
      * destruct (Rlt_dec y 0); [|lra].
        rewrite sin_neg, sin_PI2, Rabs_left by lra. field. lra.
Qed.

Lemma cos_Ratan2 (y x : R) :
  x <> 0 \/ y <> 0 -> cos (Ratan2 y x) = x / sqrt (x * x + y * y).
Proof.
  intros Hxy. unfold Ratan2.
  destruct (Rlt_dec 0 x) as [Hpos|Hnpos].
  - rewrite cos_atan, sqrt_scaled, Rabs_right by lra.
    pose proof (sqrt_scaled_pos x y ltac:(lra)). field. lra.
  - destruct (Rlt_dec x 0) as [Hneg|Hnneg].
    + pose proof (sqrt_scaled_pos x y ltac:(lra)) as Hs.
      rewrite sqrt_scaled, Rabs_left by lra.
      destruct (Rle_dec 0 y).
      * rewrite neg_cos, cos_atan. field. lra.
      * unfold Rminus. rewrite cos_plus, sin_neg, cos_neg, sin_PI, cos_PI, cos_atan.
        field. lra.
    + assert (x = 0) by lra. subst x.
      destruct (Rlt_dec 0 y).
      * rewrite cos_PI2. unfold Rdiv. ring.
      * destruct (Rlt_dec y 0); [|lra].
        rewrite cos_neg, cos_PI2. unfold Rdiv. ring.
Qed.

Lemma sin_elevation (rx ry rz : R) :
  sin (Ratan2 ry (sqrt (rx * rx + rz * rz))) * sqrt (rx * rx + ry * ry + rz * rz) = ry.
Proof.
  pose proof (sqrt_pos (rx * rx + rz * rz)) as Hh.
  pose proof (sqrt_sqrt (rx * rx + rz * rz) (sum_squares2_nonneg rx rz)) as Hhh.
  set (h := sqrt (rx * rx + rz * rz)) in *.
  replace (rx * rx + ry * ry + rz * rz) with (h * h + ry * ry) by lra.
  destruct (Req_dec_T h 0) as [Hh0|Hh0].
  - destruct (Req_dec_T ry 0) as [Hy0|Hy0].
    + rewrite Hh0, Hy0, Ratan2_0_0, sin_0. ring.
    + rewrite sin_Ratan2 by (right; assumption).
      assert (0 < sqrt (h * h + ry * ry)) by (apply sqrt_lt_R0; nra).
      field. lra.
  - rewrite sin_Ratan2 by (left; assumption).
    assert (0 < sqrt (h * h + ry * ry)) by (apply sqrt_lt_R0; nra).
    field. lra.
Qed.

Lemma gt_Fin_0 (y : R) : (Fin y >? Fin 0)%js = true <-> 0 < y.
Proof.
  unfold gt. destruct (Rlt_dec 0 y); split; intros H; try reflexivity;
    try assumption; try discriminate; contradiction.
Qed.

(** The returned object for a tracked contact and a finite observer. *)
Lemma projection_tracked (contact : gmap string value) (options : Options)
    (x y z m r : R) :
  tracked contact x y z ->
  finite_observer options = true ->
  EliteRadar3D.maxRangeOf options = Fin m ->
  m <> 0 ->
  EliteRadar3D.radarRadiusOf options = Fin r ->
  exists (out : gmap string value) (rx ry rz : R),
    EliteRadar3D.relative contact options = Normal (Fin rx, Fin ry, Fin rz)
    /\ EliteRadar3D.transformToRadarSpace contact options = Normal out
    /\ out !! "radarPosition"
       = Some (VArray
           [Fin (Rmin (sqrt (rx * rx + ry * ry + rz * rz) / m) 1 * r
                 * sin (Ratan2 rx rz));
            Fin (Rmin (sqrt (rx * rx + ry * ry + rz * rz) / m) 1
                 * sin (Ratan2 ry (sqrt (rx * rx + rz * rz))) * r * 0.5);
            Fin (Rmin (sqrt (rx * rx + ry * ry + rz * rz) / m) 1 * r
                 * cos (Ratan2 rx rz))])
    /\ out !! "normalizedDistance"
       = Some (VNumber (Fin (Rmin (sqrt (rx * rx + ry * ry + rz * rz) / m) 1)))
    /\ out !! "isAbove" = Some (VBoolean (Fin ry >? Fin 0)%js).
Proof.
  intros Hpos Hobs Hm Hm0 Hr.
  destruct (relative_finite contact options x y z Hpos Hobs) as (rx & ry & rz & Hrel).
  destruct (projection_finite contact options rx ry rz m r Hrel Hm Hm0 Hr)
    as (out & Hout & Hradar & _ & Hnd).
  destruct (transform_fields contact options _ _ _ Hrel)
    as (out' & Hout' & _ & _ & _ & Habove).
  rewrite Hout in Hout'. injection Hout' as <-.
  exists out, rx, ry, rz. repeat split; assumption.
Qed.

Lemma clamp_in_range (dist m : R) : 0 < m -> dist <= m -> Rmin (dist / m) 1 = dist / m.
Proof.
  intros Hm Hd. apply Rmin_left. apply (Rmult_le_reg_r m); [assumption|].
  unfold Rdiv. rewrite Rmult_assoc, Rinv_l by lra. lra.
Qed.

Lemma clamp_beyond_range (dist m : R) : 0 < m -> m <= dist -> Rmin (dist / m) 1 = 1.
Proof.
  intros Hm Hd. apply Rmin_right. apply (Rmult_le_reg_r m); [assumption|].
  unfold Rdiv. rewrite Rmult_assoc, Rinv_l by lra. lra.
Qed.

(** ** The marker, the reference plane and [isAbove] *)

(** The marker is drawn above the reference plane exactly when [isAbove]
    holds, and below it exactly when the contact is below the observer. *)
Theorem isAbove_iff_marker_above_plane :
  forall (contact : gmap string value) (options : Options) (x y z m r : R),
    tracked contact x y z ->
    finite_observer options = true ->
    EliteRadar3D.maxRangeOf options = Fin m ->
    0 < m ->
    EliteRadar3D.radarRadiusOf options = Fin r ->
    0 < r ->
    exists (out : gmap string value) (rx ry rz radarX radarY radarZ : R) (above : bool),
      EliteRadar3D.relative contact options = Normal (Fin rx, Fin ry, Fin rz)
      /\ EliteRadar3D.transformToRadarSpace contact options = Normal out
      /\ out !! "radarPosition" = Some (VArray [Fin radarX; Fin radarY; Fin radarZ])
      /\ out !! "isAbove" = Some (VBoolean above)
      /\ (above = true <-> 0 < ry)
      /\ (above = true <-> 0 < radarY)
      /\ (radarY < 0 <-> ry < 0).
Proof.
  intros contact options x y z m r Hpos Hobs Hm Hm0 Hr Hr0.
  destruct (projection_tracked contact options x y z m r Hpos Hobs Hm ltac:(lra) Hr)
    as (out & rx & ry & rz & Hrel & Hout & Hradar & _ & Habove).
  pose proof (sin_elevation rx ry rz) as Hsin.
  pose proof (sqrt_pos (rx * rx + ry * ry + rz * rz)) as Hdist.
  pose proof (sqrt_sqrt _ (sum_squares3_nonneg rx ry rz)) as Hsq.
  destruct (clamp_nonneg (sqrt (rx * rx + ry * ry + rz * rz)) m Hdist Hm0) as [Hd0 Hd1].
  set (dist := sqrt (rx * rx + ry * ry + rz * rz)) in *.
  set (s := sin (Ratan2 ry (sqrt (rx * rx + rz * rz)))) in *.
  assert (Hd_pos : 0 < dist -> 0 < Rmin (dist / m) 1).
  { intros H. apply Rmin_glb_lt; [|lra].
    apply Rmult_lt_0_compat; [assumption|]. apply Rinv_0_lt_compat. assumption. }
  set (d := Rmin (dist / m) 1) in *.
  assert (Hdist0 : ry <> 0 -> 0 < dist).
  { intros H. destruct (Req_dec_T dist 0) as [H0|H0]; [|lra].
    rewrite H0 in Hsq. assert (0 < ry * ry) by nra. nra. }
  eexists out, rx, ry, rz, _, _, _, _.
  split; [assumption|]. split; [assumption|]. split; [exact Hradar|].
  split; [exact Habove|].
  split; [apply gt_Fin_0|].
  assert (Hup : 0 < ry -> 0 < d * s * r * 0.5).
  { intros H. assert (0 < dist) by (apply Hdist0; lra).
    assert (0 < s) by nra. assert (0 < d) by auto.
    assert (0 < d * s) by (apply Rmult_lt_0_compat; assumption).
    assert (0 < d * s * r) by (apply Rmult_lt_0_compat; assumption). lra. }
  assert (Hdown : ry < 0 -> d * s * r * 0.5 < 0).
  { intros H. assert (0 < dist) by (apply Hdist0; lra).
    assert (s < 0) by nra. assert (0 < d) by auto.
    assert (0 < d * (- s)) by (apply Rmult_lt_0_compat; lra).
    assert (0 < d * (- s) * r) by (apply Rmult_lt_0_compat; assumption). lra. }
  assert (Hzero : ry = 0 -> d * s * r * 0.5 = 0).
  { intros H. destruct (Req_dec_T dist 0) as [H0|H0].
    - assert (d = 0); [|nra]. unfold d. rewrite H0. unfold Rdiv.
      rewrite Rmult_0_l. apply Rmin_left. lra.
    - assert (s = 0) by nra. subst s. nra. }
  split; [rewrite gt_Fin_0|]; split; intros H; try (apply Hup; assumption);
    try (apply Hdown; assumption).
  - destruct (Rlt_dec 0 ry) as [|Hn]; [assumption|].
    destruct (Req_dec_T ry 0) as [H0|H0]; [rewrite (Hzero H0) in H; lra|].
    assert (d * s * r * 0.5 < 0) by (apply Hdown; lra). lra.
  - destruct (Rlt_dec ry 0) as [|Hn]; [assumption|].
    destruct (Req_dec_T ry 0) as [H0|H0]; [rewrite (Hzero H0) in H; lra|].
    assert (0 < d * s * r * 0.5) by (apply Hup; lra). lra.
Qed.

Lemma isAbove_iff_marker_above_plane_witness :
  exists (out : gmap string value) (rx ry rz radarX radarY radarZ : R) (above : bool),
    EliteRadar3D.relative hostile_1 no_options = Normal (Fin rx, Fin ry, Fin rz)
    /\ EliteRadar3D.transformToRadarSpace hostile_1 no_options = Normal out
    /\ out !! "radarPosition" = Some (VArray [Fin radarX; Fin radarY; Fin radarZ])
    /\ out !! "isAbove" = Some (VBoolean above)
    /\ (above = true <-> 0 < ry)
    /\ (above = true <-> 0 < radarY)
    /\ (radarY < 0 <-> ry < 0).
Proof.
  apply (isAbove_iff_marker_above_plane hostile_1 no_options 2000 800 1500 5000 1).
  - unfold tracked, hostile_1. lookup_out. reflexivity.
  - reflexivity.
  - reflexivity.
  - lra.
  - reflexivity.
  - lra.
Defined.

(** Within range the height of the marker is proportional to the height
    of the contact: [radarY = 0.5 * radarRadius * relY / maxRange]; beyond
    range it is [0.5 * radarRadius * relY / distance]. *)
Theorem radarY_proportional_to_height :
  forall (contact : gmap string value) (options : Options) (x y z m r : R),
    tracked contact x y z ->
    finite_observer options = true ->
    EliteRadar3D.maxRangeOf options = Fin m ->
    0 < m ->
    EliteRadar3D.radarRadiusOf options = Fin r ->
    exists (out : gmap string value) (rx ry rz radarX radarY radarZ : R),
      EliteRadar3D.relative contact options = Normal (Fin rx, Fin ry, Fin rz)
      /\ EliteRadar3D.transformToRadarSpace contact options = Normal out
      /\ out !! "radarPosition" = Some (VArray [Fin radarX; Fin radarY; Fin radarZ])
      /\ (sqrt (rx * rx + ry * ry + rz * rz) <= m -> radarY = 0.5 * r * ry / m)
      /\ (m <= sqrt (rx * rx + ry * ry + rz * rz) ->
          radarY = 0.5 * r * ry / sqrt (rx * rx + ry * ry + rz * rz)).
Proof.
  intros contact options x y z m r Hpos Hobs Hm Hm0 Hr.
  destruct (projection_tracked contact options x y z m r Hpos Hobs Hm ltac:(lra) Hr)
    as (out & rx & ry & rz & Hrel & Hout & Hradar & _ & _).
  pose proof (sin_elevation rx ry rz) as Hsin.
  set (dist := sqrt (rx * rx + ry * ry + rz * rz)) in *.
  set (s := sin (Ratan2 ry (sqrt (rx * rx + rz * rz)))) in *.
  eexists out, rx, ry, rz, _, _, _.
  split; [assumption|]. split; [assumption|]. split; [exact Hradar|].
  split; intros Hrange.
  - rewrite clamp_in_range by assumption.
    rewrite <- Hsin. unfold Rdiv. lra.
  - rewrite clamp_beyond_range by assumption.
    assert (Hpos_dist : dist <> 0) by (unfold dist; lra).
    rewrite <- Hsin at 1. fold dist. unfold Rdiv.
    replace (0.5 * r * (s * dist) * / dist) with (0.5 * r * s * (dist * / dist)) by lra.
    rewrite Rinv_r by assumption. lra.
Qed.

Lemma radarY_proportional_to_height_witness :
  exists (out : gmap string value) (rx ry rz radarX radarY radarZ : R),
    EliteRadar3D.relative hostile_1 no_options = Normal (Fin rx, Fin ry, Fin rz)
    /\ EliteRadar3D.transformToRadarSpace hostile_1 no_options = Normal out
    /\ out !! "radarPosition" = Some (VArray [Fin radarX; Fin radarY; Fin radarZ])
    /\ (sqrt (rx * rx + ry * ry + rz * rz) <= 5000 -> radarY = 0.5 * 1 * ry / 5000)
    /\ (5000 <= sqrt (rx * rx + ry * ry + rz * rz) ->
        radarY = 0.5 * 1 * ry / sqrt (rx * rx + ry * ry + rz * rz)).
Proof.
  apply (radarY_proportional_to_height hostile_1 no_options 2000 800 1500 5000 1).
  - unfold tracked, hostile_1. lookup_out. reflexivity.
  - reflexivity.
  - reflexivity.
  - lra.
  - reflexivity.
Defined.

(** ** The base point *)

(** The base point keeps the horizontal direction of the contact: off the
    vertical axis, [(radarX, radarZ)] is [(relX, relZ)] scaled by
    [normalizedDistance * radarRadius / horizontalDist]. *)
Theorem base_point_keeps_direction :
  forall (contact : gmap string value) (options : Options) (x y z m r : R),
    tracked contact x y z ->
    finite_observer options = true ->
    EliteRadar3D.maxRangeOf options = Fin m ->
    0 < m ->
    EliteRadar3D.radarRadiusOf options = Fin r ->
    exists (out : gmap string value) (rx ry rz d radarX radarZ : R),
      EliteRadar3D.relative contact options = Normal (Fin rx, Fin ry, Fin rz)
      /\ EliteRadar3D.transformToRadarSpace contact options = Normal out
      /\ out !! "normalizedDistance" = Some (VNumber (Fin d))
      /\ out !! "basePosition" = Some (VArray [Fin radarX; Fin 0; Fin radarZ])
      /\ (0 < sqrt (rx * rx + rz * rz) ->
          radarX = d * r / sqrt (rx * rx + rz * rz) * rx
          /\ radarZ = d * r / sqrt (rx * rx + rz * rz) * rz).
Proof.
  intros contact options x y z m r Hpos Hobs Hm Hm0 Hr.
  destruct (relative_finite contact options x y z Hpos Hobs) as (rx & ry & rz & Hrel).
  destruct (projection_finite contact options rx ry rz m r Hrel Hm ltac:(lra) Hr)
    as (out & Hout & _ & Hbase & Hnd).
  eexists out, rx, ry, rz, _, _, _.
  split; [assumption|]. split; [assumption|]. split; [exact Hnd|].
  split; [exact Hbase|].
  intros Hh.
  assert (Hxz : rz <> 0 \/ rx <> 0).
  { destruct (Req_dec_T rz 0) as [Hz|Hz]; [|left; assumption].
    right. intros Hx. subst rx rz.
    replace (0 * 0 + 0 * 0) with 0 in Hh by ring. rewrite sqrt_0 in Hh. lra. }
  rewrite (sin_Ratan2 rx rz Hxz), (cos_Ratan2 rx rz Hxz).
  replace (rz * rz + rx * rx) with (rx * rx + rz * rz) by ring.
  split; field; lra.
Qed.

Lemma base_point_keeps_direction_witness :
  exists (out : gmap string value) (rx ry rz d radarX radarZ : R),
    EliteRadar3D.relative hostile_1 no_options = Normal (Fin rx, Fin ry, Fin rz)
    /\ EliteRadar3D.transformToRadarSpace hostile_1 no_options = Normal out
    /\ out !! "normalizedDistance" = Some (VNumber (Fin d))
    /\ out !! "basePosition" = Some (VArray [Fin radarX; Fin 0; Fin radarZ])
    /\ (0 < sqrt (rx * rx + rz * rz) ->
        radarX = d * 1 / sqrt (rx * rx + rz * rz) * rx
        /\ radarZ = d * 1 / sqrt (rx * rx + rz * rz) * rz).
Proof.
  apply (base_point_keeps_direction hostile_1 no_options 2000 800 1500 5000 1).
  - unfold tracked, hostile_1. lookup_out. reflexivity.
  - reflexivity.
  - reflexivity.
  - lra.
  - reflexivity.
Defined.



(** ** Scaling *)

Lemma Ratan2_scale (k y x : R) : 0 < k -> Ratan2 (k * y) (k * x) = Ratan2 y x.
Proof.
  intros Hk. unfold Ratan2.
  assert (Hq : x <> 0 -> k * y / (k * x) = y / x) by (intros; field; lra).
  destruct (Rlt_dec 0 x) as [Hx|Hx].
  - destruct (Rlt_dec 0 (k * x)) as [_|H]; [|exfalso; apply H; nra].
    rewrite Hq by lra. reflexivity.
  - destruct (Rlt_dec 0 (k * x)) as [H|_]; [exfalso; nra|].
    destruct (Rlt_dec x 0) as [Hx'|Hx'].
    + destruct (Rlt_dec (k * x) 0) as [_|H]; [|exfalso; apply H; nra].
      rewrite Hq by lra.
      destruct (Rle_dec 0 y) as [Hy|Hy].
      * destruct (Rle_dec 0 (k * y)) as [_|H]; [reflexivity|exfalso; apply H; nra].
      * destruct (Rle_dec 0 (k * y)) as [H|_]; [exfalso; nra|reflexivity].
    + destruct (Rlt_dec (k * x) 0) as [H|_]; [exfalso; nra|].
      destruct (Rlt_dec 0 y) as [Hy|Hy].
      * destruct (Rlt_dec 0 (k * y)) as [_|H]; [reflexivity|exfalso; apply H; nra].
      * destruct (Rlt_dec 0 (k * y)) as [H|_]; [exfalso; nra|].
        destruct (Rlt_dec y 0) as [Hy'|Hy'].
        -- destruct (Rlt_dec (k * y) 0) as [_|H]; [reflexivity|exfalso; apply H; nra].
        -- destruct (Rlt_dec (k * y) 0) as [H|_]; [exfalso; nra|reflexivity].
Qed.

Lemma sqrt_scale3 (k x y z : R) :
  0 <= k ->
  sqrt (k * x * (k * x) + k * y * (k * y) + k * z * (k * z))
  = k * sqrt (x * x + y * y + z * z).
Proof.
  intros Hk.
  replace (k * x * (k * x) + k * y * (k * y) + k * z * (k * z))
    with (k * k * (x * x + y * y + z * z)) by ring.
  rewrite sqrt_mult by nra. rewrite sqrt_of_square by assumption. reflexivity.
Qed.

Lemma sqrt_scale2 (k x z : R) :
  0 <= k ->
  sqrt (k * x * (k * x) + k * z * (k * z)) = k * sqrt (x * x + z * z).
Proof.
  intros Hk.
  replace (k * x * (k * x) + k * z * (k * z)) with (k * k * (x * x + z * z)) by ring.
  rewrite sqrt_mult by nra. rewrite sqrt_of_square by assumption. reflexivity.
Qed.

(** The angles of a scaled position. *)
Lemma angles_scale (k x y z : R) :
  0 < k ->
  Ratan2 (k * x) (k * z) = Ratan2 x z
  /\ Ratan2 (k * y) (sqrt (k * x * (k * x) + k * z * (k * z)))
     = Ratan2 y (sqrt (x * x + z * z)).
Proof.
  intros Hk. split; [apply Ratan2_scale; assumption|].
  rewrite sqrt_scale2 by lra. apply Ratan2_scale. assumption.
Qed.

(** The display does not depend on the unit of length: scaling the
    position and [maxRange] by the same positive factor changes nothing. *)
Theorem projection_scale_invariant :
  forall (c1 c2 : gmap string value) (o1 o2 : Options) (x y z m r k : R),
    0 < k ->
    tracked c1 x y z ->
    tracked c2 (k * x) (k * y) (k * z) ->
    at_origin_unrotated o1 ->
    at_origin_unrotated o2 ->
    EliteRadar3D.maxRangeOf o1 = Fin m ->
    EliteRadar3D.maxRangeOf o2 = Fin (k * m) ->
    m <> 0 ->
    EliteRadar3D.radarRadiusOf o1 = Fin r ->
    EliteRadar3D.radarRadiusOf o2 = Fin r ->
    exists out1 out2 : gmap string value,
      EliteRadar3D.transformToRadarSpace c1 o1 = Normal out1
      /\ EliteRadar3D.transformToRadarSpace c2 o2 = Normal out2
      /\ is_Some (out1 !! "radarPosition")
      /\ out2 !! "radarPosition" = out1 !! "radarPosition"
      /\ out2 !! "basePosition" = out1 !! "basePosition"
      /\ out2 !! "normalizedDistance" = out1 !! "normalizedDistance".
Proof.
  intros c1 c2 o1 o2 x y z m r k Hk Hc1 Hc2 Ho1 Ho2 Hm1 Hm2 Hm0 Hr1 Hr2.
  pose proof (relative_origin c1 o1 _ _ _ Hc1 Ho1) as Hrel1.
  pose proof (relative_origin c2 o2 _ _ _ Hc2 Ho2) as Hrel2.
  destruct (projection_finite c1 o1 _ _ _ m r Hrel1 Hm1 Hm0 Hr1)
    as (out1 & Hout1 & Hradar1 & Hbase1 & Hnd1).
  destruct (projection_finite c2 o2 _ _ _ (k * m) r Hrel2 Hm2 ltac:(nra) Hr2)
    as (out2 & Hout2 & Hradar2 & Hbase2 & Hnd2).
  destruct (angles_scale k x y z Hk) as [Htheta Hphi].
  rewrite sqrt_scale3 in Hradar2, Hbase2, Hnd2 by lra.
  rewrite Htheta in Hradar2, Hbase2. rewrite Hphi in Hradar2.
  replace (k * sqrt (x * x + y * y + z * z) / (k * m))
    with (sqrt (x * x + y * y + z * z) / m) in Hradar2, Hbase2, Hnd2
    by (field; lra).
  exists out1, out2.
  split; [assumption|]. split; [assumption|].
  split; [rewrite Hradar1; eexists; reflexivity|].
  rewrite Hradar1, Hradar2, Hbase1, Hbase2, Hnd1, Hnd2. repeat split; reflexivity.
Qed.

Lemma projection_scale_invariant_witness :
  exists out1 out2 : gmap string value,
    EliteRadar3D.transformToRadarSpace overhead no_options = Normal out1
    /\ EliteRadar3D.transformToRadarSpace overhead_doubled double_range = Normal out2
    /\ is_Some (out1 !! "radarPosition")
    /\ out2 !! "radarPosition" = out1 !! "radarPosition"
    /\ out2 !! "basePosition" = out1 !! "basePosition"
    /\ out2 !! "normalizedDistance" = out1 !! "normalizedDistance".
Proof.
  apply (projection_scale_invariant overhead overhead_doubled no_options double_range
           0 5000 0 5000 1 2).
  - lra.
  - unfold tracked, overhead. lookup_out. reflexivity.
  - unfold tracked, overhead_doubled. lookup_out. reflexivity.
  - split; [left | right; left]; reflexivity.
  - split; [left | right; left]; reflexivity.
  - reflexivity.
  - reflexivity.
  - lra.
  - reflexivity.
  - reflexivity.
Defined.

(** Beyond [maxRange] only the direction counts: a contact out of range
    and any contact farther away in the same direction are drawn at the
    same point, with [normalizedDistance = 1]. *)
Theorem out_of_range_contacts_collapse :
  forall (c1 c2 : gmap string value) (options : Options) (x y z m r k : R),
    1 <= k ->
    tracked c1 x y z ->
    tracked c2 (k * x) (k * y) (k * z) ->
    at_origin_unrotated options ->
    EliteRadar3D.maxRangeOf options = Fin m ->
    0 < m ->
    m <= sqrt (x * x + y * y + z * z) ->
    EliteRadar3D.radarRadiusOf options = Fin r ->
    exists out1 out2 : gmap string value,
      EliteRadar3D.transformToRadarSpace c1 options = Normal out1
      /\ EliteRadar3D.transformToRadarSpace c2 options = Normal out2
      /\ out1 !! "normalizedDistance" = Some (VNumber (Fin 1))
      /\ out2 !! "normalizedDistance" = Some (VNumber (Fin 1))
      /\ is_Some (out1 !! "radarPosition")
      /\ out2 !! "radarPosition" = out1 !! "radarPosition"
      /\ out2 !! "basePosition" = out1 !! "basePosition".
Proof.
  intros c1 c2 options x y z m r k Hk Hc1 Hc2 Ho Hm Hm0 Hfar Hr.
  pose proof (relative_origin c1 options _ _ _ Hc1 Ho) as Hrel1.
  pose proof (relative_origin c2 options _ _ _ Hc2 Ho) as Hrel2.
  destruct (projection_finite c1 options _ _ _ m r Hrel1 Hm ltac:(lra) Hr)
    as (out1 & Hout1 & Hradar1 & Hbase1 & Hnd1).
  destruct (projection_finite c2 options _ _ _ m r Hrel2 Hm ltac:(lra) Hr)
    as (out2 & Hout2 & Hradar2 & Hbase2 & Hnd2).
  destruct (angles_scale k x y z ltac:(lra)) as [Htheta Hphi].
  rewrite sqrt_scale3 in Hradar2, Hbase2, Hnd2 by lra.
  rewrite Htheta in Hradar2, Hbase2. rewrite Hphi in Hradar2.
  assert (Hfar2 : m <= k * sqrt (x * x + y * y + z * z)) by nra.
  rewrite (clamp_beyond_range _ m Hm0 Hfar) in Hradar1, Hbase1, Hnd1.
  rewrite (clamp_beyond_range _ m Hm0 Hfar2) in Hradar2, Hbase2, Hnd2.
  exists out1, out2.
  split; [assumption|]. split; [assumption|].
  split; [assumption|]. split; [assumption|].
  split; [rewrite Hradar1; eexists; reflexivity|].
  rewrite Hradar1, Hradar2, Hbase1, Hbase2. split; reflexivity.
Qed.

Lemma out_of_range_contacts_collapse_witness :
  exists out1 out2 : gmap string value,
    EliteRadar3D.transformToRadarSpace overhead no_options = Normal out1
    /\ EliteRadar3D.transformToRadarSpace overhead_doubled no_options = Normal out2
    /\ out1 !! "normalizedDistance" = Some (VNumber (Fin 1))
    /\ out2 !! "normalizedDistance" = Some (VNumber (Fin 1))
    /\ is_Some (out1 !! "radarPosition")
    /\ out2 !! "radarPosition" = out1 !! "radarPosition"
    /\ out2 !! "basePosition" = out1 !! "basePosition".
Proof.
  apply (out_of_range_contacts_collapse overhead overhead_doubled no_options
           0 5000 0 5000 1 2).
  - lra.
  - unfold tracked, overhead. lookup_out. reflexivity.
  - unfold tracked, overhead_doubled. lookup_out. reflexivity.
  - split; [left | right; left]; reflexivity.
  - reflexivity.
  - lra.
  - replace (0 * 0 + 5000 * 5000 + 0 * 0) with (5000 * 5000) by lra.
    rewrite sqrt_of_square by lra. lra.
  - reflexivity.
Defined.

(** ** Projecting a projected contact *)

Lemma relative_depends_on_position (c1 c2 : gmap string value) (options : Options) :
  c1 !! "position" = c2 !! "position" ->
  EliteRadar3D.relative c1 options = EliteRadar3D.relative c2 options.
Proof. intros H. unfold EliteRadar3D.relative. rewrite H. reflexivity. Qed.

Ltac by_key k :=
  destruct (decide (k = "isAbove")) as [->|?]; [lookup_out; reflexivity|];
  destruct (decide (k = "normalizedDistance")) as [->|?]; [lookup_out; reflexivity|];
  destruct (decide (k = "basePosition")) as [->|?]; [lookup_out; reflexivity|];
  destruct (decide (k = "radarPosition")) as [->|?]; [lookup_out; reflexivity|];
  rewrite !lookup_insert_ne by congruence; reflexivity.

(** The transform overwrites what it computes and reads only [position]:
    applied to its own result it returns that result, in both copies. *)
Theorem transformToRadarSpace_idempotent :
  forall (contact : gmap string value) (options : Options) (out : gmap string value),
    (EliteRadar3D.transformToRadarSpace contact options = Normal out ->
     EliteRadar3D.transformToRadarSpace out options = Normal out)
    /\ (EliteRadarDemo.transformToRadarSpace contact options = Normal out ->
        EliteRadarDemo.transformToRadarSpace out options = Normal out).
Proof.
  intros contact options out. split; intros Hout.
  - destruct (transform_returns contact options out Hout) as (relX & relY & relZ & Hrel).
    rewrite (transform_of_relative contact options _ _ _ Hrel) in Hout.
    injection Hout as Hout.
    assert (Hpos : out !! "position" = contact !! "position").
    { rewrite <- Hout. lookup_out. reflexivity. }
    rewrite <- (relative_depends_on_position out contact options Hpos) in Hrel.
    rewrite (transform_of_relative out options _ _ _ Hrel).
    f_equal. rewrite <- Hout at 2. rewrite <- Hout at 1.
    apply map_eq. intros k. by_key k.
  - unfold EliteRadarDemo.transformToRadarSpace in *.
    destruct (EliteRadarDemo.destructure3 (contact !! "position"))
      as [[[relX relY] relZ]|e] eqn:Hd; [|discriminate].
    injection Hout as Hout.
    assert (Hpos : out !! "position" = contact !! "position").
    { rewrite <- Hout. lookup_out. reflexivity. }
    rewrite Hpos, Hd.
    f_equal. rewrite <- Hout at 2. rewrite <- Hout at 1.
    apply map_eq. intros k. by_key k.
Qed.

Lemma transformToRadarSpace_idempotent_witness :
  (exists out : gmap string value,
      EliteRadar3D.transformToRadarSpace hostile_1 no_options = Normal out
      /\ EliteRadar3D.transformToRadarSpace out no_options = Normal out)
  /\ (exists out : gmap string value,
      EliteRadarDemo.transformToRadarSpace hostile_1 no_options = Normal out
      /\ EliteRadarDemo.transformToRadarSpace out no_options = Normal out).
Proof.
  split.
  - eexists. split; [reflexivity|].
    apply (proj1 (transformToRadarSpace_idempotent hostile_1 no_options _)).
    reflexivity.
  - eexists. split; [reflexivity|].
    apply (proj2 (transformToRadarSpace_idempotent hostile_1 no_options _)).
    reflexivity.
Defined.

(** ** Moving and turning the observer *)




(** The rotation of three.js keeps the length of a vector when the
    quaternion is of unit length. *)
Lemma rotation_keeps_norm (qx qy qz qw v1 v2 v3 : R) :
  qx * qx + qy * qy + qz * qz + qw * qw = 1 ->
  exists r1 r2 r3 : R,
    THREE.applyQuaternion
      {| THREE.x := Fin v1; THREE.y := Fin v2; THREE.z := Fin v3 |}
      (THREE.invert (THREE.Quaternion_new [Fin qx; Fin qy; Fin qz; Fin qw]))
    = {| THREE.x := Fin r1; THREE.y := Fin r2; THREE.z := Fin r3 |}
    /\ r1 * r1 + r2 * r2 + r3 * r3 = v1 * v1 + v2 * v2 + v3 * v3.
Proof.
  intros Hunit.
  unfold THREE.invert, THREE.conjugate, THREE.applyQuaternion, THREE.Quaternion_new.
  cbn [THREE._x THREE._y THREE._z THREE._w THREE.x THREE.y THREE.z
       lookup list_lookup from_option Datatypes.id].
  fin_arith. eexists _, _, _. split; [reflexivity|].
  match goal with
  | |- ?L = ?R =>
      replace L with
        (R + 4 * (1 - (qx * qx + qy * qy + qz * qz + qw * qw))
             * ((qx * v1 + qy * v2 + qz * v3) * (qx * v1 + qy * v2 + qz * v3)
                - (qx * qx + qy * qy + qz * qz) * R)) by ring
  end.
  rewrite Hunit. ring.
Qed.

(** Turning the observer does not change how far a contact is: with a
    unit [playerQuaternion] the [normalizedDistance] is the same with
    [shipRelative] on and off. *)
Theorem normalizedDistance_orientation_independent :
  forall (contact : gmap string value) (x y z px py pz qx qy qz qw : R)
         (mr rr : option number),
    tracked contact x y z ->
    qx * qx + qy * qy + qz * qz + qw * qw = 1 ->
    exists out_ship out_world : gmap string value,
      EliteRadar3D.transformToRadarSpace contact
        {| playerPosition := Some [Fin px; Fin py; Fin pz];
           playerQuaternion := Some [Fin qx; Fin qy; Fin qz; Fin qw];
           maxRange := mr; radarRadius := rr; shipRelative := Some true |}
      = Normal out_ship
      /\ EliteRadar3D.transformToRadarSpace contact
        {| playerPosition := Some [Fin px; Fin py; Fin pz];
           playerQuaternion := Some [Fin qx; Fin qy; Fin qz; Fin qw];
           maxRange := mr; radarRadius := rr; shipRelative := Some false |}
      = Normal out_world
      /\ is_Some (out_world !! "normalizedDistance")
      /\ out_ship !! "normalizedDistance" = out_world !! "normalizedDistance".
Proof.
  intros contact x y z px py pz qx qy qz qw mr rr Hpos Hunit.
  set (o_ship := {| playerPosition := Some [Fin px; Fin py; Fin pz];
                    playerQuaternion := Some [Fin qx; Fin qy; Fin qz; Fin qw];
                    maxRange := mr; radarRadius := rr; shipRelative := Some true |}).
  set (o_world := {| playerPosition := Some [Fin px; Fin py; Fin pz];
                     playerQuaternion := Some [Fin qx; Fin qy; Fin qz; Fin qw];
                     maxRange := mr; radarRadius := rr; shipRelative := Some false |}).
  destruct (rotation_keeps_norm qx qy qz qw (x - px) (y - py) (z - pz) Hunit)
    as (r1 & r2 & r3 & Hrot & Hnorm).
  assert (Hworld : EliteRadar3D.relative contact o_world
                   = Normal (Fin (x - px), Fin (y - py), Fin (z - pz))).
  { unfold EliteRadar3D.relative. unfold tracked in Hpos. rewrite Hpos. reflexivity. }
  assert (Hship : EliteRadar3D.relative contact o_ship = Normal (Fin r1, Fin r2, Fin r3)).
  { unfold EliteRadar3D.relative. unfold tracked in Hpos. rewrite Hpos.
    change (EliteRadar3D.shipRelativeOf o_ship) with true.
    change (EliteRadar3D.playerQuaternionOf o_ship)
      with [Fin qx; Fin qy; Fin qz; Fin qw].
    change (EliteRadar3D.playerPositionOf o_ship) with [Fin px; Fin py; Fin pz].
    cbn [index_number lookup list_lookup from_option Datatypes.id]. fin_arith.
    cbv zeta. rewrite Hrot. reflexivity. }
  destruct (transform_fields contact o_ship _ _ _ Hship) as (out1 & Hout1 & _ & _ & Hn1 & _).
  destruct (transform_fields contact o_world _ _ _ Hworld) as (out2 & Hout2 & _ & _ & Hn2 & _).
  exists out1, out2.
  split; [assumption|]. split; [assumption|].
  split; [rewrite Hn2; eexists; reflexivity|].
  rewrite Hn1, Hn2. do 2 f_equal.
  unfold EliteRadar3D.normalizedDist. rewrite !distance_Fin, Hnorm. reflexivity.
Qed.

Lemma normalizedDistance_orientation_independent_witness :
  exists out_ship out_world : gmap string value,
    EliteRadar3D.transformToRadarSpace hostile_1
      {| playerPosition := Some [Fin 0; Fin 0; Fin 0];
         playerQuaternion := Some [Fin 0; Fin 1; Fin 0; Fin 0];
         maxRange := None; radarRadius := None; shipRelative := Some true |}
    = Normal out_ship
    /\ EliteRadar3D.transformToRadarSpace hostile_1
      {| playerPosition := Some [Fin 0; Fin 0; Fin 0];
         playerQuaternion := Some [Fin 0; Fin 1; Fin 0; Fin 0];
         maxRange := None; radarRadius := None; shipRelative := Some false |}
    = Normal out_world
    /\ is_Some (out_world !! "normalizedDistance")
    /\ out_ship !! "normalizedDistance" = out_world !! "normalizedDistance".
Proof.
  apply (normalizedDistance_orientation_independent hostile_1 2000 800 1500).
  - unfold tracked, hostile_1. lookup_out. reflexivity.
  - lra.
Defined.

(** * The components *)

(** ** Loops that push *)

Lemma for_loop_push {A : Type} (f : nat -> A) (count from : nat) (acc : list A) :
  Components.for_loop count from (fun i pts => pts ++ [f i]) acc
  = acc ++ map f (seq from count).
Proof.
  revert from acc. induction count as [|n IH]; intros from acc; simpl.
  - rewrite app_nil_r. reflexivity.
  - rewrite IH, <- app_assoc. reflexivity.
Qed.

(** The angle of step [i] out of [n]: [(i / n) * Math.PI * 2]. *)
Lemma step_angle (i n : nat) :
  n <> 0%nat ->
  (of_nat i / of_nat n * Math.PI * Fin 2)%js = Fin (INR i / INR n * PI * 2).
Proof.
  intros Hn. unfold of_nat, Math.PI.
  rewrite div_Fin by (apply not_0_INR; assumption). reflexivity.
Qed.

Lemma circle_point_Fin (a r h : R) :
  Components.circle_point (Fin a) (Fin r) (Fin h)
  = {| THREE.x := Fin (cos a * r); THREE.y := Fin h; THREE.z := Fin (sin a * r) |}.
Proof. reflexivity. Qed.

Lemma on_circle (a r : R) : cos a * r * (cos a * r) + sin a * r * (sin a * r) = r * r.
Proof.
  replace (cos a * r * (cos a * r) + sin a * r * (sin a * r))
    with (r * r * (Rsqr (sin a) + Rsqr (cos a))) by (unfold Rsqr; ring).
  rewrite sin2_cos2. ring.
Qed.

(** The loop that draws a circle in [n] segments. *)
Lemma circle_loop (n : nat) (r h : R) :
  n <> 0%nat ->
  Components.for_loop (n + 1) 0
    (fun i pts =>
       pts ++ [Components.circle_point
                 (of_nat i / of_nat n * Math.PI * Fin 2)%js (Fin r) (Fin h)])
    []
  = map (fun i => {| THREE.x := Fin (cos (INR i / INR n * PI * 2) * r);
                     THREE.y := Fin h;
                     THREE.z := Fin (sin (INR i / INR n * PI * 2) * r) |})
        (seq 0 (n + 1)).
Proof.
  intros Hn.
  rewrite (for_loop_push
             (fun i => Components.circle_point
                         (of_nat i / of_nat n * Math.PI * Fin 2)%js (Fin r) (Fin h))).
  rewrite app_nil_l. apply map_ext. intros i.
  rewrite step_angle by assumption. apply circle_point_Fin.
Qed.

Lemma full_turn (n : nat) : n <> 0%nat -> INR n / INR n * PI * 2 = 2 * PI.
Proof.
  intros Hn. unfold Rdiv. rewrite Rinv_r by (apply not_0_INR; assumption). ring.
Qed.

Lemma no_turn (n : nat) : INR 0 / INR n * PI * 2 = 0.
Proof. simpl. unfold Rdiv. ring. Qed.

(** ** The equatorial ring *)

(** The equatorial ring is a closed polyline of 65 points, all of them in
    the reference plane on the circle of radius [radius]; it starts and
    ends at [[radius, 0, 0]]. *)
Theorem EquatorialRing_closed_circle :
  forall (radius : option number) (r : R),
    default (Fin 1) radius = Fin r ->
    length (Components.EquatorialRing_points radius) = 65%nat
    /\ (forall p, p ∈ Components.EquatorialRing_points radius ->
         exists px pz : R,
           p = {| THREE.x := Fin px; THREE.y := Fin 0; THREE.z := Fin pz |}
           /\ px * px + pz * pz = r * r)
    /\ Components.EquatorialRing_points radius !! 0%nat
       = Some {| THREE.x := Fin r; THREE.y := Fin 0; THREE.z := Fin 0 |}
    /\ Components.EquatorialRing_points radius !! 64%nat
       = Some {| THREE.x := Fin r; THREE.y := Fin 0; THREE.z := Fin 0 |}.
Proof.
  intros radius r Hr. unfold Components.EquatorialRing_points.
  rewrite Hr, (circle_loop 64 r 0) by discriminate.
  split; [rewrite length_map, length_seq; reflexivity|].
  split.
  - intros p Hp. apply list_elem_of_fmap in Hp as (i & -> & _).
    eexists _, _. split; [reflexivity|]. apply on_circle.
  - assert (Hat : forall i, (i < 65)%nat ->
        map (fun i => {| THREE.x := Fin (cos (INR i / INR 64 * PI * 2) * r);
                         THREE.y := Fin 0;
                         THREE.z := Fin (sin (INR i / INR 64 * PI * 2) * r) |})
            (seq 0 (64 + 1)) !! i
        = Some {| THREE.x := Fin (cos (INR i / INR 64 * PI * 2) * r);
                  THREE.y := Fin 0;
                  THREE.z := Fin (sin (INR i / INR 64 * PI * 2) * r) |}).
    { intros i Hi. rewrite list_lookup_fmap, lookup_seq_lt by assumption. reflexivity. }
    split.
    + rewrite (Hat 0%nat) by lia. rewrite no_turn, cos_0, sin_0.
      do 2 f_equal; f_equal; ring.
    + rewrite (Hat 64%nat) by lia. rewrite full_turn by discriminate.
      rewrite cos_2PI, sin_2PI. do 2 f_equal; f_equal; ring.
Qed.

Lemma EquatorialRing_closed_circle_witness :
  length (Components.EquatorialRing_points None) = 65%nat
  /\ (forall p, p ∈ Components.EquatorialRing_points None ->
       exists px pz : R,
         p = {| THREE.x := Fin px; THREE.y := Fin 0; THREE.z := Fin pz |}
         /\ px * px + pz * pz = 1 * 1)
  /\ Components.EquatorialRing_points None !! 0%nat
     = Some {| THREE.x := Fin 1; THREE.y := Fin 0; THREE.z := Fin 0 |}
  /\ Components.EquatorialRing_points None !! 64%nat
     = Some {| THREE.x := Fin 1; THREE.y := Fin 0; THREE.z := Fin 0 |}.
Proof.
  apply (EquatorialRing_closed_circle None 1). reflexivity.
Defined.

(** ** The grid *)

(** The grid is the eight spokes followed by the range rings
    [1 .. divisions - 1]. *)
Lemma RadarGrid_lines_split (radius : option number) (divisions : option nat) :
  Components.RadarGrid_lines radius divisions
  = map (fun i =>
           {| Components.points :=
                [ {| THREE.x := Fin 0; THREE.y := Fin 0; THREE.z := Fin 0 |};
                  Components.circle_point
                    (of_nat i / of_nat 8 * Math.PI * Fin 2)%js
                    (default (Fin 1) radius) (Fin 0) ];
              Components.key := "spoke-" +:+ pretty i |})
        (seq 0 8)
    ++ map (fun i =>
              {| Components.points :=
                   Components.for_loop (32 + 1) 0
                     (fun j pts =>
                        pts ++ [Components.circle_point
                                  (of_nat j / of_nat 32 * Math.PI * Fin 2)%js
                                  (of_nat i / of_nat (default 4%nat divisions)
                                   * default (Fin 1) radius)%js
                                  (Fin 0)])
                     [];
                 Components.key := "ring-" +:+ pretty i |})
           (seq 1 (default 4%nat divisions - 1)).
Proof.
  unfold Components.RadarGrid_lines. cbv zeta.
  rewrite (for_loop_push
             (fun i =>
                {| Components.points :=
                     Components.for_loop (32 + 1) 0
                       (fun j pts =>
                          pts ++ [Components.circle_point
                                    (of_nat j / of_nat 32 * Math.PI * Fin 2)%js
                                    (of_nat i / of_nat (default 4%nat divisions)
                                     * default (Fin 1) radius)%js
                                    (Fin 0)])
                       [];
                   Components.key := "ring-" +:+ pretty i |})).
  reflexivity.
Qed.

Lemma spoke_key_inj : Inj (=) (=) (fun i : nat => "spoke-" +:+ pretty i).
Proof. intros i j H. apply (inj pretty), (inj (String.app "spoke-")), H. Qed.

Lemma ring_key_inj : Inj (=) (=) (fun i : nat => "ring-" +:+ pretty i).
Proof. intros i j H. apply (inj pretty), (inj (String.app "ring-")), H. Qed.

(** The grid has eight spokes and [divisions - 1] rings (none when
    [divisions] is [0] or [1]); their React keys, [spoke-0] to [spoke-7]
    then [ring-1] to [ring-(divisions - 1)], are pairwise distinct. *)
Theorem RadarGrid_keys_distinct :
  forall (radius : option number) (divisions : option nat),
    length (Components.RadarGrid_lines radius divisions)
    = (8 + (default 4 divisions - 1))%nat
    /\ map Components.key (Components.RadarGrid_lines radius divisions)
       = map (fun i : nat => "spoke-" +:+ pretty i) (seq 0 8)
         ++ map (fun i : nat => "ring-" +:+ pretty i) (seq 1 (default 4%nat divisions - 1))
    /\ NoDup (map Components.key (Components.RadarGrid_lines radius divisions)).
Proof.
  intros radius divisions. rewrite RadarGrid_lines_split.
  assert (Hkeys :
    map Components.key
      (map (fun i =>
           {| Components.points :=
                [ {| THREE.x := Fin 0; THREE.y := Fin 0; THREE.z := Fin 0 |};
                  Components.circle_point
                    (of_nat i / of_nat 8 * Math.PI * Fin 2)%js
                    (default (Fin 1) radius) (Fin 0) ];
              Components.key := "spoke-" +:+ pretty i |})
        (seq 0 8)
    ++ map (fun i =>
              {| Components.points :=
                   Components.for_loop (32 + 1) 0
                     (fun j pts =>
                        pts ++ [Components.circle_point
                                  (of_nat j / of_nat 32 * Math.PI * Fin 2)%js
                                  (of_nat i / of_nat (default 4%nat divisions)
                                   * default (Fin 1) radius)%js
                                  (Fin 0)])
                     [];
                 Components.key := "ring-" +:+ pretty i |})
           (seq 1 (default 4%nat divisions - 1)))
    = map (fun i : nat => "spoke-" +:+ pretty i) (seq 0 8)
      ++ map (fun i : nat => "ring-" +:+ pretty i) (seq 1 (default 4%nat divisions - 1))).
  { rewrite map_app, !map_map. reflexivity. }
  split; [rewrite length_app, !length_map, !length_seq; reflexivity|].
  split; [exact Hkeys|].
  rewrite Hkeys. apply NoDup_app. split; [|split].
  - apply (@NoDup_fmap_2 _ _ _ spoke_key_inj), NoDup_seq.
  - intros k Hspoke Hring.
    apply list_elem_of_fmap in Hspoke as (i & -> & _).
    apply list_elem_of_fmap in Hring as (j & Hij & _).
    discriminate Hij.
  - apply (@NoDup_fmap_2 _ _ _ ring_key_inj), NoDup_seq.
Qed.

Lemma ring_fraction (i d : nat) :
  (1 <= i < d)%nat -> INR d <> 0 /\ 0 < INR i / INR d < 1.
Proof.
  intros [Hi Hd].
  assert (Hd0 : 0 < INR d) by (apply lt_0_INR; lia).
  assert (Hi0 : 0 < INR i) by (apply lt_0_INR; lia).
  assert (Hid : INR i < INR d) by (apply lt_INR; assumption).
  split; [lra|]. split.
  - apply Rmult_lt_0_compat; [assumption|apply Rinv_0_lt_compat; assumption].
  - apply (Rmult_lt_reg_r (INR d)); [assumption|].
    unfold Rdiv. rewrite Rmult_assoc, Rinv_l by lra. lra.
Qed.

(** Range ring [i] (for [1 <= i < divisions]) is the line after the
    spokes with key [ring-i]: a closed polyline of 33 points in the
    reference plane on the circle of radius [i / divisions * radius],
    strictly inside the dish. *)
Theorem RadarGrid_rings_inside_dish :
  forall (radius : option number) (divisions : option nat) (r : R) (i : nat),
    default (Fin 1) radius = Fin r ->
    (1 <= i < default 4 divisions)%nat ->
    exists line : Components.GridLine,
      Components.RadarGrid_lines radius divisions !! (8 + (i - 1))%nat = Some line
      /\ Components.key line = "ring-" +:+ pretty i
      /\ length (Components.points line) = 33%nat
      /\ (forall p, p ∈ Components.points line ->
          exists px pz : R,
            p = {| THREE.x := Fin px; THREE.y := Fin 0; THREE.z := Fin pz |}
            /\ px * px + pz * pz
               = INR i / INR (default 4%nat divisions) * r
                 * (INR i / INR (default 4%nat divisions) * r))
      /\ head (Components.points line) = last (Components.points line)
      /\ 0 < INR i / INR (default 4%nat divisions) < 1.
Proof.
  intros radius divisions r i Hr Hi.
  destruct (ring_fraction i (default 4%nat divisions) Hi) as [Hd Hfrac].
  rewrite RadarGrid_lines_split, Hr.
  rewrite lookup_app_r by (rewrite length_map, length_seq; lia).
  rewrite length_map, length_seq.
  replace (8 + (i - 1) - 8)%nat with (i - 1)%nat by lia.
  rewrite list_lookup_fmap, lookup_seq_lt by lia.
  replace (1 + (i - 1))%nat with i by lia.
  cbn [fmap option_fmap option_map].
  eexists. split; [reflexivity|].
  cbn [Components.key Components.points].
  change (of_nat i / of_nat (default 4%nat divisions))%js
    with (Fin (INR i) / Fin (INR (default 4%nat divisions)))%js.
  rewrite div_Fin by assumption. fin_arith.
  rewrite (circle_loop 32 _ 0) by discriminate.
  split; [reflexivity|].
  split; [rewrite length_map, length_seq; reflexivity|].
  split; [|split; [|exact Hfrac]].
  - intros p Hp. apply list_elem_of_fmap in Hp as (j & -> & _).
    eexists _, _. split; [reflexivity|]. apply on_circle.
  - cbn [seq map Nat.add head last].
    rewrite no_turn, full_turn by discriminate.
    rewrite cos_0, sin_0, cos_2PI, sin_2PI. reflexivity.
Qed.

Lemma RadarGrid_rings_inside_dish_witness :
  exists line : Components.GridLine,
    Components.RadarGrid_lines None None !! (8 + (2 - 1))%nat = Some line
    /\ Components.key line = "ring-" +:+ pretty 2%nat
    /\ length (Components.points line) = 33%nat
    /\ (forall p, p ∈ Components.points line ->
        exists px pz : R,
          p = {| THREE.x := Fin px; THREE.y := Fin 0; THREE.z := Fin pz |}
          /\ px * px + pz * pz
             = INR 2 / INR (default 4%nat None) * 1
               * (INR 2 / INR (default 4%nat None) * 1))
    /\ head (Components.points line) = last (Components.points line)
    /\ 0 < INR 2 / INR (default 4%nat None) < 1.
Proof.
  apply (RadarGrid_rings_inside_dish None None 1 2).
  - reflexivity.
  - simpl. lia.
Defined.

Lemma half_turn (i : nat) :
  INR (i + 4) / INR 8 * PI * 2 = INR i / INR 8 * PI * 2 + PI.
Proof.
  rewrite plus_INR. replace (INR 4) with 4 by (simpl; ring).
  replace (INR 8) with 8 by (simpl; ring). field.
Qed.

(** The eight spokes are four diameters of the dish: spoke [i] runs from
    the centre to a point of the circle of radius [radius], and spoke
    [i + 4] to the opposite point. *)
Theorem RadarGrid_spokes_are_diameters :
  forall (radius : option number) (divisions : option nat) (r : R) (i : nat),
    default (Fin 1) radius = Fin r ->
    (i < 4)%nat ->
    exists px pz : R,
      px * px + pz * pz = r * r
      /\ Components.RadarGrid_lines radius divisions !! i
         = Some {| Components.points :=
                     [ {| THREE.x := Fin 0; THREE.y := Fin 0; THREE.z := Fin 0 |};
                       {| THREE.x := Fin px; THREE.y := Fin 0; THREE.z := Fin pz |} ];
                   Components.key := "spoke-" +:+ pretty i |}
      /\ Components.RadarGrid_lines radius divisions !! (i + 4)%nat
         = Some {| Components.points :=
                     [ {| THREE.x := Fin 0; THREE.y := Fin 0; THREE.z := Fin 0 |};
                       {| THREE.x := Fin (- px); THREE.y := Fin 0; THREE.z := Fin (- pz) |} ];
                   Components.key := "spoke-" +:+ pretty (i + 4)%nat |}.
Proof.
  intros radius divisions r i Hr Hi.
  rewrite RadarGrid_lines_split, Hr.
  exists (cos (INR i / INR 8 * PI * 2) * r), (sin (INR i / INR 8 * PI * 2) * r).
  split; [apply on_circle|].
  rewrite !lookup_app_l by (rewrite length_map, length_seq; lia).
  rewrite !list_lookup_fmap, !lookup_seq_lt by lia.
  cbn [fmap option_fmap option_map Nat.add].
  rewrite !step_angle by discriminate. rewrite !circle_point_Fin.
  split; [reflexivity|].
  rewrite half_turn, neg_cos, neg_sin.
  replace (- cos (INR i / INR 8 * PI * 2) * r)
    with (- (cos (INR i / INR 8 * PI * 2) * r)) by ring.
  replace (- sin (INR i / INR 8 * PI * 2) * r)
    with (- (sin (INR i / INR 8 * PI * 2) * r)) by ring.
  reflexivity.
Qed.

Lemma RadarGrid_spokes_are_diameters_witness :
  exists px pz : R,
    px * px + pz * pz = 1 * 1
    /\ Components.RadarGrid_lines None None !! 1%nat
       = Some {| Components.points :=
                   [ {| THREE.x := Fin 0; THREE.y := Fin 0; THREE.z := Fin 0 |};
                     {| THREE.x := Fin px; THREE.y := Fin 0; THREE.z := Fin pz |} ];
                 Components.key := "spoke-" +:+ pretty 1%nat |}
    /\ Components.RadarGrid_lines None None !! (1 + 4)%nat
       = Some {| Components.points :=
                   [ {| THREE.x := Fin 0; THREE.y := Fin 0; THREE.z := Fin 0 |};
                     {| THREE.x := Fin (- px); THREE.y := Fin 0; THREE.z := Fin (- pz) |} ];
                 Components.key := "spoke-" +:+ pretty (1 + 4)%nat |}.
Proof.
  apply (RadarGrid_spokes_are_diameters None None 1 1).
  - reflexivity.
  - lia.
Defined.

(** ** The scan sweep *)

Lemma Rrem_nonneg (n d : R) :
  0 <= n -> 0 < d ->
  exists k : Z, (0 <= k)%Z /\ Rrem n d = n - d * IZR k /\ 0 <= Rrem n d < d.
Proof.
  intros Hn Hd. unfold Rrem, Rtrunc.
  assert (Hq : 0 <= n / d).
  { apply Rmult_le_pos; [assumption|]. left. apply Rinv_0_lt_compat. assumption. }
  destruct (Rle_dec 0 (n / d)) as [_|H]; [|contradiction].
  destruct (base_Int_part (n / d)) as [Hlow Hhigh].
  set (k := Int_part (n / d)) in *.
  assert (Hn' : n = n / d * d) by (field; lra).
  exists k. split; [|split; [reflexivity|]].
  - apply le_IZR. apply Rnot_lt_le. intros Hneg.
    assert (IZR k <= -1).
    { apply IZR_le. apply lt_IZR in Hneg. lia. }
    lra.
  - split.
    + assert (d * IZR k <= d * (n / d)) by (apply Rmult_le_compat_l; lra). lra.
    + assert (d * (n / d - 1) < d * IZR k) by (apply Rmult_lt_compat_l; lra). lra.
Qed.

Lemma ScanSweep_next_range (a t : R) :
  0 <= a < 2 * PI -> 0 <= t ->
  exists (a' : R) (k : Z),
    Components.ScanSweep_next (Fin a) (Fin t) = Fin a'
    /\ 0 <= a' < 2 * PI
    /\ (0 <= k)%Z
    /\ a' = a + 1.5 * t - 2 * PI * IZR k.
Proof.
  intros Ha Ht. pose proof PI_RGT_0 as Hpi.
  unfold Components.ScanSweep_next, Math.PI. fin_arith. unfold rem.
  destruct (Req_dec_T (PI * 2) 0) as [H0|_]; [lra|].
  destruct (Rrem_nonneg (a + t * 1.5) (PI * 2)) as (k & Hk & Heq & Hrange); [lra|lra|].
  exists (Rrem (a + t * 1.5) (PI * 2)), k.
  split; [reflexivity|]. split; [lra|]. split; [assumption|]. rewrite Heq. ring.
Qed.

Lemma ScanSweep_fold (ts : list R) (a0 : R) :
  Forall (fun t => 0 <= t) ts ->
  0 <= a0 < 2 * PI ->
  exists (a : R) (k : Z),
    fold_left Components.ScanSweep_next (map Fin ts) (Fin a0) = Fin a
    /\ 0 <= a < 2 * PI
    /\ (0 <= k)%Z
    /\ a = a0 + 1.5 * fold_right Rplus 0 ts - 2 * PI * IZR k.
Proof.
  intros Hts. revert a0. induction Hts as [|t ts Ht Hts IH]; intros a0 Ha0.
  - exists a0, 0%Z. simpl. split; [reflexivity|]. split; [assumption|].
    split; [lia|]. ring.
  - destruct (ScanSweep_next_range a0 t Ha0 Ht) as (a1 & k1 & Hstep & Ha1 & Hk1 & Heq1).
    destruct (IH a1 Ha1) as (a & k & Hfold & Ha & Hk & Heq).
    exists a, (k1 + k)%Z. simpl. rewrite Hstep.
    split; [assumption|]. split; [assumption|]. split; [lia|].
    rewrite Heq, Heq1, plus_IZR. ring.
Qed.

(** Over any sequence of frames with non-negative durations the sweep
    angle stays in [[0, 2 * PI)]: it is [1.5] times the elapsed time,
    reduced by a whole number of turns. *)
Theorem ScanSweep_angle_wraps :
  forall ts : list R,
    Forall (fun t => 0 <= t) ts ->
    exists (a : R) (k : Z),
      Components.ScanSweep_angle (map Fin ts) = Fin a
      /\ 0 <= a < 2 * PI
      /\ (0 <= k)%Z
      /\ a = 1.5 * fold_right Rplus 0 ts - 2 * PI * IZR k.
Proof.
  intros ts Hts. pose proof PI_RGT_0 as Hpi.
  destruct (ScanSweep_fold ts 0 Hts ltac:(lra)) as (a & k & Hfold & Ha & Hk & Heq).
  exists a, k. split; [exact Hfold|]. split; [assumption|]. split; [assumption|].
  rewrite Heq. ring.
Qed.

Lemma ScanSweep_angle_wraps_witness :
  exists (a : R) (k : Z),
    Components.ScanSweep_angle (map Fin [0.016; 5]) = Fin a
    /\ 0 <= a < 2 * PI
    /\ (0 <= k)%Z
    /\ a = 1.5 * fold_right Rplus 0 [0.016; 5] - 2 * PI * IZR k.
Proof.
  apply (ScanSweep_angle_wraps [0.016; 5]).
  repeat constructor; lra.
Defined.

(** ** The heading indicator and a contact straight ahead *)

(** A contact straight ahead on the negative z axis is drawn on the
    negative z axis of the dish, the side the heading indicator points
    to; both use the [radarRadius] the scene hands them. *)
Theorem contact_ahead_on_heading_side :
  forall (contact : gmap string value) (options : Options) (d m r : R),
    tracked contact 0 0 (- d) ->
    0 < d ->
    at_origin_unrotated options ->
    EliteRadar3D.maxRangeOf options = Fin m ->
    0 < m ->
    EliteRadar3D.radarRadiusOf options = Fin r ->
    0 < r ->
    exists (out : gmap string value) (zc zt : R),
      EliteRadar3D.transformToRadarSpace contact options = Normal out
      /\ out !! "radarPosition" = Some (VArray [Fin 0; Fin 0; Fin zc])
      /\ Components.HeadingIndicator_points (Some (Fin r))
         = [ {| THREE.x := Fin 0; THREE.y := Fin 0.002; THREE.z := Fin 0 |};
             {| THREE.x := Fin 0; THREE.y := Fin 0.002; THREE.z := Fin zt |} ]
      /\ zc = - (Rmin (d / m) 1 * r)
      /\ zt = - r * 0.15
      /\ zc < 0 /\ zt < 0.
Proof.
  intros contact options d m r Hpos Hd Horigin Hm Hm0 Hr Hr0.
  pose proof (relative_origin contact options 0 0 (- d) Hpos Horigin) as Hrel.
  destruct (projection_finite contact options 0 0 (- d) m r Hrel Hm ltac:(lra) Hr)
    as (out & Hout & Hradar & _ & _).
  assert (Hh : sqrt (0 * 0 + - d * - d) = d).
  { replace (0 * 0 + - d * - d) with (d * d) by lra. apply sqrt_of_square. lra. }
  assert (Hdist : sqrt (0 * 0 + 0 * 0 + - d * - d) = d).
  { replace (0 * 0 + 0 * 0 + - d * - d) with (d * d) by lra. apply sqrt_of_square. lra. }
  rewrite Hdist, Hh, Ratan2_0_neg, Ratan2_0_pos, sin_0, sin_PI, cos_PI in Hradar by lra.
  assert (Hclamp : 0 < Rmin (d / m) 1).
  { apply Rmin_glb_lt; [|lra].
    apply Rmult_lt_0_compat; [assumption|apply Rinv_0_lt_compat; assumption]. }
  exists out, (- (Rmin (d / m) 1 * r)), (- r * 0.15).
  split; [assumption|].
  split; [rewrite Hradar; apply Some_VArray3; ring|].
  split; [reflexivity|]. split; [reflexivity|]. split; [reflexivity|].
  split; [|lra].
  assert (0 < Rmin (d / m) 1 * r) by (apply Rmult_lt_0_compat; assumption). lra.
Qed.

Lemma contact_ahead_on_heading_side_witness :
  exists (out : gmap string value) (zc zt : R),
    EliteRadar3D.transformToRadarSpace station_1 no_options = Normal out
    /\ out !! "radarPosition" = Some (VArray [Fin 0; Fin 0; Fin zc])
    /\ Components.HeadingIndicator_points (Some (Fin 1))
       = [ {| THREE.x := Fin 0; THREE.y := Fin 0.002; THREE.z := Fin 0 |};
           {| THREE.x := Fin 0; THREE.y := Fin 0.002; THREE.z := Fin zt |} ]
    /\ zc = - (Rmin (4000 / 5000) 1 * 1)
    /\ zt = - 1 * 0.15
    /\ zc < 0 /\ zt < 0.
Proof.
  apply (contact_ahead_on_heading_side station_1 no_options 4000 5000 1).
  - unfold tracked, station_1. lookup_out. reflexivity.
  - lra.
  - split; [left | right; left]; reflexivity.
  - reflexivity.
  - lra.
  - reflexivity.
  - lra.
Defined.

(** ** The stalk *)

(** The stalk of a projected contact is vertical: it starts in the
    reference plane at the base point and ends at the marker, with the
    same two horizontal coordinates. *)
Theorem stalk_is_vertical :
  forall (contact : gmap string value) (options : Options) (out : gmap string value),
    EliteRadar3D.transformToRadarSpace contact options = Normal out ->
    exists radarX radarY radarZ : number,
      out !! "radarPosition" = Some (VArray [radarX; radarY; radarZ])
      /\ Components.RadarContact_stalk out
         = Some (Normal
                   ({| THREE.x := radarX; THREE.y := Fin 0; THREE.z := radarZ |},
                    {| THREE.x := radarX; THREE.y := radarY; THREE.z := radarZ |})).
Proof.
  intros contact options out Hout.
  destruct (transform_returns contact options out Hout) as (relX & relY & relZ & Hrel).
  destruct (transform_fields contact options _ _ _ Hrel)
    as (out' & Hout' & Hradar & Hbase & _).
  rewrite Hout in Hout'. injection Hout' as <-.
  eexists _, _, _. split; [exact Hradar|].
  unfold Components.RadarContact_stalk, Components.RadarStalk_points.
  rewrite Hradar, Hbase. reflexivity.
Qed.

Lemma stalk_is_vertical_witness :
  exists (out : gmap string value) (radarX radarY radarZ : number),
    EliteRadar3D.transformToRadarSpace hostile_1 no_options = Normal out
    /\ out !! "radarPosition" = Some (VArray [radarX; radarY; radarZ])
    /\ Components.RadarContact_stalk out
       = Some (Normal
                 ({| THREE.x := radarX; THREE.y := Fin 0; THREE.z := radarZ |},
                  {| THREE.x := radarX; THREE.y := radarY; THREE.z := radarZ |})).
Proof.
  eexists.
  destruct (stalk_is_vertical hostile_1 no_options _ eq_refl)
    as (radarX & radarY & radarZ & Hradar & Hstalk).
  exists radarX, radarY, radarZ.
  split; [reflexivity|]. split; assumption.
Defined.

(** ** The scene's batch of contacts *)

Lemma array_map_transform (options : Options) (cs : list (gmap string value)) :
  match Components.array_map
          (fun contact => EliteRadar3D.transformToRadarSpace contact options) cs with
  | Normal outs =>
      Forall2 (fun contact out =>
                 EliteRadar3D.transformToRadarSpace contact options = Normal out)
              cs outs
  | Throw e => e = TypeError /\ exists c, c ∈ cs /\ c !! "position" = None
  end.
Proof.
  induction cs as [|c cs IH]; simpl.
  - constructor.
  - destruct (c !! "position") as [v|] eqn:Hpos.
    + destruct (relative_defined c options v Hpos) as (relX & relY & relZ & Hrel).
      rewrite (transform_of_relative c options _ _ _ Hrel).
      destruct (Components.array_map _ cs) as [outs|e].
      * constructor; [apply transform_of_relative, Hrel|exact IH].
      * destruct IH as (He & c' & Hin & Hnone).
        split; [assumption|]. exists c'. split; [right; assumption|assumption].
    + unfold EliteRadar3D.transformToRadarSpace.
      rewrite (relative_undefined c options Hpos).
      split; [reflexivity|]. exists c. split; [left|assumption].
Qed.

(** The scene projects its contacts one by one, in order: when every
    contact has a position it obtains as many projected contacts, the
    i-th being the projection of the i-th; a single contact without a
    position makes the whole batch throw. *)
Theorem RadarScene_batch :
  forall props : Components.SceneProps,
    ((forall c, c ∈ default [] (Components.contacts props) -> is_Some (c !! "position")) ->
     exists outs : list (gmap string value),
       Components.RadarScene_radarContacts props = Normal outs
       /\ length outs = length (default [] (Components.contacts props))
       /\ Forall2 (fun contact out =>
                     EliteRadar3D.transformToRadarSpace contact
                       (Components.RadarScene_options props) = Normal out)
                  (default [] (Components.contacts props)) outs)
    /\ ((exists c, c ∈ default [] (Components.contacts props) /\ c !! "position" = None) ->
        Components.RadarScene_radarContacts props = Throw TypeError).
Proof.
  intros props. unfold Components.RadarScene_radarContacts.
  pose proof (array_map_transform (Components.RadarScene_options props)
                (default [] (Components.contacts props))) as H.
  destruct (Components.array_map _ _) as [outs|e].
  - split.
    + intros _. exists outs. split; [reflexivity|].
      split; [symmetry; eapply Forall2_length; exact H|exact H].
    + intros (c & Hin & Hnone). exfalso.
      apply list_elem_of_lookup in Hin as [i Hi].
      destruct (Forall2_lookup_l _ _ _ _ _ H Hi) as (out & _ & Hout).
      unfold EliteRadar3D.transformToRadarSpace in Hout.
      rewrite (relative_undefined c _ Hnone) in Hout. discriminate.
  - destruct H as (-> & c & Hin & Hnone). split.
    + intros Hall. destruct (Hall c Hin) as [v Hv]. congruence.
    + intros _. reflexivity.
Qed.

Lemma RadarScene_batch_witness :
  (exists outs : list (gmap string value),
      Components.RadarScene_radarContacts
        {| Components.contacts := Some [hostile_1; station_1];
           Components.scene_options := no_options |} = Normal outs
      /\ length outs = 2%nat)
  /\ Components.RadarScene_radarContacts
       {| Components.contacts := Some [hostile_1; no_position; station_1];
          Components.scene_options := no_options |} = Throw TypeError.
Proof.
  split.
  - destruct (proj1 (RadarScene_batch
                       {| Components.contacts := Some [hostile_1; station_1];
                          Components.scene_options := no_options |}))
      as (outs & Hrun & Hlen & _).
    + intros c Hc. cbn [default from_option Components.contacts Datatypes.id] in Hc.
      apply elem_of_cons in Hc as [->|Hc]; [eexists; apply hostile_1_tracked|].
      apply elem_of_cons in Hc as [->|Hc]; [|inversion Hc].
      eexists. unfold station_1. lookup_out. reflexivity.
    + exists outs. split; assumption.
  - apply (proj2 (RadarScene_batch
                    {| Components.contacts := Some [hostile_1; no_position; station_1];
                       Components.scene_options := no_options |})).
    exists no_position. split.
    + cbn [default from_option Components.contacts Datatypes.id].
      right. left.
    + reflexivity.
Defined.

(** ** The demo's animation *)

Lemma jitter_moves (c : gmap string value) (u0 u1 u2 : number) :
  well_formed c ->
  (exists u, u0 = Fin u /\ 0 <= u < 1) ->
  (exists u, u1 = Fin u /\ 0 <= u < 1) ->
  (exists u, u2 = Fin u /\ 0 <= u < 1) ->
  exists c', Components.jitter c u0 u1 u2 = Some (Normal c') /\ moved_within 50 25 50 c c'.
Proof.
  intros (x & y & z & Hpos) (a & -> & Ha) (b & -> & Hb) (d & -> & Hd).
  unfold Components.jitter. unfold tracked in Hpos. rewrite Hpos.
  cbn [index_number lookup list_lookup from_option Datatypes.id]. fin_arith.
  eexists. split; [reflexivity|].
  exists x, y, z, (x + (a - 0.5) * 100), (y + (b - 0.5) * 50), (z + (d - 0.5) * 100).
  split; [exact Hpos|]. split; [unfold tracked; lookup_out; reflexivity|].
  repeat split; try (apply Rabs_le; lra).
  intros k Hk. rewrite lookup_insert_ne by congruence. reflexivity.
Qed.

Lemma animate_tick (random : nat -> number) (n : nat) (prev : list (gmap string value)) :
  unit_random random ->
  Forall well_formed prev ->
  exists next : list (gmap string value),
    Components.animate random n prev = Some (Normal next)
    /\ Forall2 (moved_within 50 25 50) prev next.
Proof.
  intros Hrandom Hprev. revert n.
  induction Hprev as [|c prev Hc Hprev IH]; intros n; simpl.
  - exists []. split; [reflexivity|constructor].
  - destruct (jitter_moves c (random n) (random (n + 1)%nat) (random (n + 2)%nat)
                Hc (Hrandom _) (Hrandom _) (Hrandom _)) as (c' & -> & Hmoved).
    destruct (IH (n + 3)%nat) as (next & -> & Hnext).
    exists (c' :: next). split; [reflexivity|]. constructor; assumption.
Qed.

(** One tick of the demo moves every contact by at most 50, 25 and 50
    units along the three axes and changes nothing else: the contacts
    keep their number, their order and every other property. *)
Theorem animate_moves_each_contact_a_little :
  forall (random : nat -> number) (n : nat) (prev : list (gmap string value)),
    unit_random random ->
    Forall well_formed prev ->
    exists next : list (gmap string value),
      Components.animate random n prev = Some (Normal next)
      /\ length next = length prev
      /\ Forall2 (moved_within 50 25 50) prev next.
Proof.
  intros random n prev Hrandom Hprev.
  destruct (animate_tick random n prev Hrandom Hprev) as (next & Hrun & Hmoved).
  exists next. split; [assumption|]. split; [|assumption].
  symmetry. eapply Forall2_length. exact Hmoved.
Qed.

Lemma animate_moves_each_contact_a_little_witness :
  exists next : list (gmap string value),
    Components.animate (fun _ => Fin 0.25) 0 [hostile_1; station_1] = Some (Normal next)
    /\ length next = length [hostile_1; station_1]
    /\ Forall2 (moved_within 50 25 50) [hostile_1; station_1] next.
Proof.
  apply (animate_moves_each_contact_a_little (fun _ => Fin 0.25) 0 [hostile_1; station_1]).
  - intros n. exists 0.25. split; [reflexivity|lra].
  - repeat constructor.
    + exists 2000, 800, 1500. unfold tracked, hostile_1. lookup_out. reflexivity.
    + exists 0, 0, (- 4000). unfold tracked, station_1. lookup_out. reflexivity.
Defined.

Lemma tracked_unique (c : gmap string value) (x y z x' y' z' : R) :
  tracked c x y z -> tracked c x' y' z' -> x = x' /\ y = y' /\ z = z'.
Proof.
  unfold tracked. intros H H'. rewrite H in H'. injection H' as -> -> ->. auto.
Qed.

Lemma moved_within_trans (a b d a' b' d' : R) (c1 c2 c3 : gmap string value) :
  moved_within a b d c1 c2 ->
  moved_within a' b' d' c2 c3 ->
  moved_within (a + a') (b + b') (d + d') c1 c3.
Proof.
  intros (x1 & y1 & z1 & x2 & y2 & z2 & H1 & H2 & Hx & Hy & Hz & Hframe)
         (x2' & y2' & z2' & x3 & y3 & z3 & H2' & H3 & Hx' & Hy' & Hz' & Hframe').
  destruct (tracked_unique c2 _ _ _ _ _ _ H2 H2') as (<- & <- & <-).
  exists x1, y1, z1, x3, y3, z3.
  split; [assumption|]. split; [assumption|].
  split; [|split; [|split]].
  - replace (x3 - x1) with ((x3 - x2) + (x2 - x1)) by ring.
    eapply Rle_trans; [apply Rabs_triang|lra].
  - replace (y3 - y1) with ((y3 - y2) + (y2 - y1)) by ring.
    eapply Rle_trans; [apply Rabs_triang|lra].
  - replace (z3 - z1) with ((z3 - z2) + (z2 - z1)) by ring.
    eapply Rle_trans; [apply Rabs_triang|lra].
  - intros k Hk. rewrite Hframe', Hframe by assumption. reflexivity.
Qed.

Lemma moved_within_refl (c : gmap string value) :
  well_formed c -> moved_within 0 0 0 c c.
Proof.
  intros (x & y & z & H). exists x, y, z, x, y, z.
  split; [assumption|]. split; [assumption|].
  replace (x - x) with 0 by ring. replace (y - y) with 0 by ring.
  replace (z - z) with 0 by ring. rewrite Rabs_R0.
  repeat split; try lra. 
Qed.

Lemma moved_within_well_formed (a b d : R) (c c' : gmap string value) :
  moved_within a b d c c' -> well_formed c'.
Proof. intros (x & y & z & x' & y' & z' & _ & H & _). exists x', y', z'. exact H. Qed.

Lemma animate_ticks_drift (randoms : list (nat -> number)) (prev : list (gmap string value)) :
  Forall unit_random randoms ->
  Forall well_formed prev ->
  exists now : list (gmap string value),
    Components.animate_ticks randoms prev = Some (Normal now)
    /\ Forall2 (moved_within (50 * INR (length randoms))
                             (25 * INR (length randoms))
                             (50 * INR (length randoms))) prev now.
Proof.
  intros Hrandoms. revert prev.
  induction Hrandoms as [|random randoms Hrandom Hrandoms IH]; intros prev Hprev.
  - exists prev. split; [reflexivity|].
    simpl. rewrite !Rmult_0_r.
    induction Hprev; constructor; [apply moved_within_refl; assumption|assumption].
  - destruct (animate_tick random 0 prev Hrandom Hprev) as (next & Hrun & Hmoved).
    assert (Hnext : Forall well_formed next).
    { clear -Hmoved. induction Hmoved; constructor;
        [eapply moved_within_well_formed; eassumption|assumption]. }
    destruct (IH next Hnext) as (now & Hlater & Hdrift).
    exists now. cbn [Components.animate_ticks]. rewrite Hrun.
    split; [exact Hlater|].
    change (length (random :: randoms)) with (S (length randoms)). rewrite S_INR.
    clear -Hmoved Hdrift. revert now Hdrift.
    induction Hmoved as [|c c' prev next Hc Hmoved IHm]; intros now Hdrift.
    + inversion Hdrift. constructor.
    + inversion Hdrift as [|c'' c3 next' now' Hc3 Hrest]; subst. constructor.
      * pose proof (moved_within_trans _ _ _ _ _ _ _ _ _ Hc Hc3) as H.
        replace (50 * (INR (length randoms) + 1)) with (50 + 50 * INR (length randoms)) by ring.
        replace (25 * (INR (length randoms) + 1)) with (25 + 25 * INR (length randoms)) by ring.
        exact H.
      * apply IHm. assumption.
Qed.

(** However long the demo runs, its contacts stay well formed, in number
    and in order, each within [50 * n], [25 * n] and [50 * n] units of
    where it started after [n] ticks; so the scene's projection of them
    never throws. *)
Theorem demo_animation_keeps_scene_alive :
  forall (randoms : list (nat -> number)) (prev : list (gmap string value))
         (options : Options),
    Forall unit_random randoms ->
    Forall well_formed prev ->
    exists now outs : list (gmap string value),
      Components.animate_ticks randoms prev = Some (Normal now)
      /\ Forall2 (moved_within (50 * INR (length randoms))
                               (25 * INR (length randoms))
                               (50 * INR (length randoms))) prev now
      /\ Forall well_formed now
      /\ Components.RadarScene_radarContacts
           {| Components.contacts := Some now; Components.scene_options := options |}
         = Normal outs
      /\ length outs = length prev.
Proof.
  intros randoms prev options Hrandoms Hprev.
  destruct (animate_ticks_drift randoms prev Hrandoms Hprev) as (now & Hrun & Hdrift).
  assert (Hnow : Forall well_formed now).
  { clear -Hdrift. induction Hdrift; constructor;
      [eapply moved_within_well_formed; eassumption|assumption]. }
  set (props := {| Components.contacts := Some now;
                   Components.scene_options := options |}).
  pose proof (array_map_transform (Components.RadarScene_options props) now) as Hmap.
  destruct (Components.array_map _ now) as [outs|e] eqn:Harr.
  - exists now, outs. split; [assumption|]. split; [assumption|].
    split; [assumption|]. split; [exact Harr|].
    rewrite <- (Forall2_length _ _ _ Hmap). symmetry.
    eapply Forall2_length. exact Hdrift.
  - exfalso. destruct Hmap as (_ & c & Hin & Hnone).
    rewrite Forall_forall in Hnow. destruct (Hnow c Hin) as (x & y & z & Hpos).
    unfold tracked in Hpos. congruence.
Qed.

Lemma demo_animation_keeps_scene_alive_witness :
  exists now outs : list (gmap string value),
    Components.animate_ticks [fun _ => Fin 0.25; fun _ => Fin 0.75] [hostile_1; station_1]
    = Some (Normal now)
    /\ Forall2 (moved_within (50 * INR 2) (25 * INR 2) (50 * INR 2))
               [hostile_1; station_1] now
    /\ Forall well_formed now
    /\ Components.RadarScene_radarContacts
         {| Components.contacts := Some now; Components.scene_options := no_options |}
       = Normal outs
    /\ length outs = 2%nat.
Proof.
  apply (demo_animation_keeps_scene_alive
           [fun _ => Fin 0.25; fun _ => Fin 0.75] [hostile_1; station_1] no_options).
  - repeat constructor.
    + intros n. exists 0.25. split; [reflexivity|lra].
    + intros n. exists 0.75. split; [reflexivity|lra].
  - repeat constructor.
    + exists 2000, 800, 1500. unfold tracked, hostile_1. lookup_out. reflexivity.
    + exists 0, 0, (- 4000). unfold tracked, station_1. lookup_out. reflexivity.
Defined.

(** ** Markers *)

(** For the five known types the demo draws the geometry the main
    component draws; for any other type, or none, the main component
    draws a sphere and the demo draws no geometry at all. *)
Theorem ContactMarker_copies_differ_on_unknown_types :
  forall (type : option value) (size : option number),
    (Components.type_is type "hostile" || Components.type_is type "friendly"
     || Components.type_is type "station" || Components.type_is type "missile"
     || Components.type_is type "neutral" = true ->
     Components.Demo_ContactMarker_geometries type size
     = [Components.ContactMarker_geometry type size])
    /\ (Components.type_is type "hostile" || Components.type_is type "friendly"
        || Components.type_is type "station" || Components.type_is type "missile"
        || Components.type_is type "neutral" = false ->
        Components.Demo_ContactMarker_geometries type size = []
        /\ Components.ContactMarker_geometry type size
           = Components.sphereGeometry (default (Fin 0.025) size * Fin 0.6)%js 8 8).
Proof.
  intros type size.
  unfold Components.Demo_ContactMarker_geometries, Components.ContactMarker_geometry.
  destruct type as [[a|b|t|l]|]; cbn [Components.type_is orb];
    try (split; [discriminate|intros _; split; reflexivity]).
  destruct (decide (t = "hostile")) as [->|H1]; [split; [reflexivity|discriminate]|].
  destruct (decide (t = "friendly")) as [->|H2]; [split; [reflexivity|discriminate]|].
  destruct (decide (t = "station")) as [->|H3]; [split; [reflexivity|discriminate]|].
  destruct (decide (t = "missile")) as [->|H4]; [split; [reflexivity|discriminate]|].
  destruct (decide (t = "neutral")) as [->|H5]; [split; [reflexivity|discriminate]|].
  rewrite !bool_decide_eq_false_2 by assumption.
  split; [discriminate|intros _; split; reflexivity].
Qed.

Lemma ContactMarker_copies_differ_on_unknown_types_witness :
  Components.Demo_ContactMarker_geometries (Some (VString "station")) None
  = [Components.ContactMarker_geometry (Some (VString "station")) None]
  /\ Components.Demo_ContactMarker_geometries (Some (VString "asteroid")) None = []
  /\ Components.ContactMarker_geometry (Some (VString "asteroid")) None
     = Components.sphereGeometry (default (Fin 0.025) None * Fin 0.6)%js 8 8.
Proof.
  split.
  - apply (proj1 (ContactMarker_copies_differ_on_unknown_types
                    (Some (VString "station")) None)).
    reflexivity.
  - apply (proj2 (ContactMarker_copies_differ_on_unknown_types
                    (Some (VString "asteroid")) None)).
    reflexivity.
Defined.

(** ** Malformed positions and ranges *)

Lemma relative_NaN (contact : gmap string value) (options : Options) (v : value) :
  contact !! "position" = Some v ->
  (forall i, index_number v i = NaN) ->
  EliteRadar3D.relative contact options = Normal (NaN, NaN, NaN).
Proof.
  intros Hpos Hv. unfold EliteRadar3D.relative. rewrite Hpos, !Hv.
  destruct (EliteRadar3D.shipRelativeOf options); reflexivity.
Qed.

(** Both copies throw when [contact.position] is undefined.  When it is
    a number or a boolean the demo copy still throws (the value is not
    iterable), while the main component returns an object whose
    [normalizedDistance] and [radarPosition] are [NaN]. *)
Theorem position_not_an_array :
  forall (contact : gmap string value) (options : Options),
    (contact !! "position" = None ->
     EliteRadar3D.transformToRadarSpace contact options = Throw TypeError
     /\ EliteRadarDemo.transformToRadarSpace contact options = Throw TypeError)
    /\ ((exists a, contact !! "position" = Some (VNumber a))
        \/ (exists b, contact !! "position" = Some (VBoolean b)) ->
        EliteRadarDemo.transformToRadarSpace contact options = Throw TypeError
        /\ exists out : gmap string value,
            EliteRadar3D.transformToRadarSpace contact options = Normal out
            /\ out !! "normalizedDistance" = Some (VNumber NaN)
            /\ out !! "radarPosition" = Some (VArray [NaN; NaN; NaN])).
Proof.
  intros contact options. split.
  - intros Hpos. split.
    + unfold EliteRadar3D.transformToRadarSpace.
      rewrite (relative_undefined contact options Hpos). reflexivity.
    + unfold EliteRadarDemo.transformToRadarSpace. rewrite Hpos. reflexivity.
  - intros Hpos.
    assert (Hv : exists v, contact !! "position" = Some v
                           /\ (forall i, index_number v i = NaN)
                           /\ EliteRadarDemo.destructure3 (Some v) = Throw TypeError).
    { destruct Hpos as [[a Ha]|[b Hb]]; eexists; (split; [eassumption|]);
        split; reflexivity. }
    destruct Hv as (v & Hv & Hnan & Hdemo). split.
    + unfold EliteRadarDemo.transformToRadarSpace. rewrite Hv, Hdemo. reflexivity.
    + pose proof (relative_NaN contact options v Hv Hnan) as Hrel.
      destruct (transform_fields contact options _ _ _ Hrel)
        as (out & Hout & Hradar & _ & Hnd & _).
      exists out. split; [assumption|]. split; assumption.
Qed.

Lemma position_not_an_array_witness :
  (EliteRadar3D.transformToRadarSpace no_position no_options = Throw TypeError
   /\ EliteRadarDemo.transformToRadarSpace no_position no_options = Throw TypeError)
  /\ (EliteRadarDemo.transformToRadarSpace
        (<["position" := VNumber (Fin 7)]> no_position) no_options = Throw TypeError
      /\ exists out : gmap string value,
          EliteRadar3D.transformToRadarSpace
            (<["position" := VNumber (Fin 7)]> no_position) no_options = Normal out
          /\ out !! "normalizedDistance" = Some (VNumber NaN)
          /\ out !! "radarPosition" = Some (VArray [NaN; NaN; NaN])).
Proof.
  split.
  - apply (proj1 (position_not_an_array no_position no_options)). reflexivity.
  - apply (proj2 (position_not_an_array
                    (<["position" := VNumber (Fin 7)]> no_position) no_options)).
    left. exists (Fin 7). apply lookup_insert_eq.
Defined.



(** The marker is never farther from the centre of the dish than
    [sqrt 1.25] times [normalizedDistance * |radarRadius|]: its squared
    distance is at most [1.25 * (normalizedDistance * radarRadius)^2]. *)
Theorem marker_distance_bound :
  forall (contact : gmap string value) (options : Options) (x y z m r : R),
    tracked contact x y z ->
    finite_observer options = true ->
    EliteRadar3D.maxRangeOf options = Fin m ->
    0 < m ->
    EliteRadar3D.radarRadiusOf options = Fin r ->
    exists (out : gmap string value) (d radarX radarY radarZ : R),
      EliteRadar3D.transformToRadarSpace contact options = Normal out
      /\ out !! "normalizedDistance" = Some (VNumber (Fin d))
      /\ out !! "radarPosition" = Some (VArray [Fin radarX; Fin radarY; Fin radarZ])
      /\ radarX * radarX + radarY * radarY + radarZ * radarZ <= 1.25 * (d * r) * (d * r)
      /\ radarX * radarX + radarY * radarY + radarZ * radarZ <= 1.25 * r * r.
Proof.
  intros contact options x y z m r Hpos Hobs Hm Hm0 Hr.
  destruct (relative_finite contact options x y z Hpos Hobs) as (rx & ry & rz & Hrel).
  destruct (projection_finite contact options rx ry rz m r Hrel Hm ltac:(lra) Hr)
    as (out & Hout & Hradar & _ & Hnd).
  destruct (clamp_nonneg (sqrt (rx * rx + ry * ry + rz * rz)) m) as [Hd0 Hd1];
    [apply sqrt_pos|assumption|].
  set (d := Rmin (sqrt (rx * rx + ry * ry + rz * rz) / m) 1) in *.
  pose proof (on_circle (Ratan2 rx rz) (d * r)) as Hcircle.
  pose proof (SIN_bound (Ratan2 ry (sqrt (rx * rx + rz * rz)))) as Hsin.
  set (t := Ratan2 rx rz) in *.
  set (s := sin (Ratan2 ry (sqrt (rx * rx + rz * rz)))) in *.
  eexists out, d, _, _, _.
  split; [assumption|]. split; [assumption|]. split; [exact Hradar|].
  assert (Hs : s * s <= 1) by nra.
  assert (Hy : d * s * r * 0.5 * (d * s * r * 0.5) <= 0.25 * (d * r) * (d * r)).
  { replace (d * s * r * 0.5 * (d * s * r * 0.5))
      with (0.25 * ((d * r) * (d * r)) * (s * s)) by lra.
    assert (0 <= (d * r) * (d * r)) by nra. nra. }
  assert (Hxz : d * r * sin t * (d * r * sin t) + d * r * cos t * (d * r * cos t)
                = d * r * (d * r)) by lra.
  split; [lra|].
  assert (d * r * (d * r) <= r * r).
  { replace (d * r * (d * r)) with (d * d * (r * r)) by ring.
    assert (d * d <= 1) by nra. assert (0 <= r * r) by nra. nra. }
  lra.
Qed.

Lemma marker_distance_bound_witness :
  exists (out : gmap string value) (d radarX radarY radarZ : R),
    EliteRadar3D.transformToRadarSpace hostile_1 no_options = Normal out
    /\ out !! "normalizedDistance" = Some (VNumber (Fin d))
    /\ out !! "radarPosition" = Some (VArray [Fin radarX; Fin radarY; Fin radarZ])
    /\ radarX * radarX + radarY * radarY + radarZ * radarZ <= 1.25 * (d * 1) * (d * 1)
    /\ radarX * radarX + radarY * radarY + radarZ * radarZ <= 1.25 * 1 * 1.
Proof.
  apply (marker_distance_bound hostile_1 no_options 2000 800 1500 5000 1).
  - unfold tracked, hostile_1. lookup_out. reflexivity.
  - reflexivity.
  - reflexivity.
  - lra.
  - reflexivity.
Defined.

(** At every frame the sweep line is a radius of the dish, drawn just
    above the reference plane: it runs from [[0, 0.001, 0]] to a point of
    the circle of radius [radius] at the same height. *)
Theorem ScanSweep_line_is_radius :
  forall (ts : list R) (radius : option number) (r : R),
    Forall (fun t => 0 <= t) ts ->
    default (Fin 1) radius = Fin r ->
    exists px pz : R,
      Components.ScanSweep_points (Components.ScanSweep_angle (map Fin ts)) radius
      = [ {| THREE.x := Fin 0; THREE.y := Fin 0.001; THREE.z := Fin 0 |};
          {| THREE.x := Fin px; THREE.y := Fin 0.001; THREE.z := Fin pz |} ]
      /\ px * px + pz * pz = r * r.
Proof.
  intros ts radius r Hts Hr. pose proof PI_RGT_0 as Hpi.
  destruct (ScanSweep_fold ts 0 Hts ltac:(lra)) as (a & k & Hfold & _).
  unfold Components.ScanSweep_points, Components.ScanSweep_angle.
  rewrite Hfold, Hr, circle_point_Fin.
  eexists _, _. split; [reflexivity|]. apply on_circle.
Qed.

Lemma ScanSweep_line_is_radius_witness :
  exists px pz : R,
    Components.ScanSweep_points (Components.ScanSweep_angle (map Fin [0.016; 5])) None
    = [ {| THREE.x := Fin 0; THREE.y := Fin 0.001; THREE.z := Fin 0 |};
        {| THREE.x := Fin px; THREE.y := Fin 0.001; THREE.z := Fin pz |} ]
    /\ px * px + pz * pz = 1 * 1.
Proof.
  apply (ScanSweep_line_is_radius [0.016; 5] None 1).
  - repeat constructor; lra.
  - reflexivity.
Defined.
